(** * The bucketed endpoint-error metric of [model_wrapper.py], and the
    job launcher [launch_job.py]

    A shallow embedding of [EndpointDistanceMetricRawTorch], of
    [ModelWrapper.validation_step] and [ModelWrapper.validation_epoch_end],
    and of the script [launch_job.py], followed by the properties of the
    accumulator that the validation pipeline relies on, of the validation
    step that feeds it, and of the files and commands of the launcher.

    Conventions of the embedding:
    - [torch.float] values are IEEE binary32 numbers, taken from the
      Standard Library's [SpecFloat] at precision 24 and maximal exponent
      128, with round-to-nearest-even; a NaN carries no payload. The point
      and flow arrays are float32 tensors, and a Python number that meets a
      float32 tensor (a threshold, a bucket boundary, the scale factor) is
      the float32 it is converted to;
    - [torch.long] values are integers of [Z] with the 64-bit two's
      complement wrap-around written out;
    - [torch.sum] over the points and [torch.norm(p=2)] over the columns
      are reductions whose order of addition and intermediate rounding the
      library chooses: they are parameters of the model, the class
      [Reductions], and the kernel that adds in index order with one
      rounding per addition is its instance [sequential];
    - a method of a Python object is a computation in a state-and-exception
      monad: it is run on the object and yields an outcome (a value or a
      raised exception) together with the object as the method left it;
    - a Python [dict] that is only read by key is a [gmap]; the dict handed
      to the constructor, whose insertion order assigns the class indices, is
      the list of its items. *)

From Stdlib Require Import ZArith Floats.SpecFloat.
From stdpp Require Import base numbers list sorting gmap strings pretty.

Local Open Scope Z_scope.

(* ===================================================================== *)
(** * Numbers *)
(* ===================================================================== *)

(** ** binary32: the element type of a [torch.float] tensor *)

Definition float32 : Type := spec_float.

Module F32.
Definition prec : Z := 24.
Definition emax : Z := 128.

Definition zero : float32 := S754_zero false.
Definition nan : float32 := S754_nan.
Definition infinity : float32 := S754_infinity false.

Definition add : float32 → float32 → float32 := SFadd prec emax.
Definition sub : float32 → float32 → float32 := SFsub prec emax.
Definition mul : float32 → float32 → float32 := SFmul prec emax.
Definition div : float32 → float32 → float32 := SFdiv prec emax.
Definition sqrt : float32 → float32 := SFsqrt prec emax.
Definition abs : float32 → float32 := SFabs.

(** Comparisons of IEEE 754: every comparison with a NaN is false. *)
Definition ltb (x y : float32) : bool := SFltb x y.
Definition leb (x y : float32) : bool := SFleb x y.
Definition geb (x y : float32) : bool := SFleb y x.

Definition is_nan (x : float32) : bool :=
  match x with S754_nan => true | _ => false end.

(** The maximum used by a [p=inf] norm: a NaN operand gives NaN. *)
Definition max (x y : float32) : float32 :=
  if is_nan x then x else if is_nan y then y else if ltb x y then y else x.

(** Conversion of an integer, rounding to nearest even. *)
Definition of_Z (z : Z) : float32 := binary_normalize prec emax z 0 false.

(** The sign bit is clear, or the value is a NaN. Sums of norms have
    this shape; in particular they are never the negative zero. *)
Definition sign_clear (x : float32) : bool :=
  match x with
  | S754_zero s | S754_infinity s | S754_finite s _ _ => negb s
  | S754_nan => true
  end.
End F32.

(** ** int64: the element type of a [torch.long] tensor *)

Module I64.
Definition min_int : Z := - 2 ^ 63.
Definition max_int : Z := 2 ^ 63 - 1.

Definition wrap (z : Z) : Z := (z + 2 ^ 63) `mod` 2 ^ 64 - 2 ^ 63.
Definition add (x y : Z) : Z := wrap (x + y).

Definition in_range (z : Z) : bool := (min_int <=? z) && (z <=? max_int).
End I64.

(* ===================================================================== *)
(** * Python outcomes and the method monad *)
(* ===================================================================== *)

(** The exceptions the modelled code can raise. A failed [assert] is an
    [AssertionError], a missing dict key a [KeyError], an index outside a
    tensor an [IndexError]. The message of an [AssertionError] is the
    literal part of the source's f-string, before the colon; the shapes
    the source formats after it are left out. *)
Inductive exn : Type :=
  | AssertionError (msg : string)
  | KeyError (key : Z)
  | IndexError.

Inductive outcome (A : Type) : Type :=
  | Return (a : A)
  | Raise (e : exn).
Arguments Return {A} a.
Arguments Raise {A} e.

(** A method run on an object of type [S]: the outcome and the object
    afterwards. On [Raise] the object is the one at the raise. *)
Definition method (S A : Type) : Type := S → outcome A * S.

Definition run {S A} (m : method S A) (s : S) : outcome A * S := m s.

#[global] Instance method_ret {S} : MRet (method S) :=
  λ A a s, (Return a, s).
#[global] Instance method_bind {S} : MBind (method S) :=
  λ A B f m s,
    match m s with
    | (Return a, s') => f a s'
    | (Raise e, s') => (Raise e, s')
    end.

Definition raise {S A} (e : exn) : method S A := λ s, (Raise e, s).
Definition gets {S A} (f : S → A) : method S A := λ s, (Return (f s), s).
Definition modify {S} (f : S → S) : method S unit := λ s, (Return tt, f s).

Definition py_assert {S} (b : bool) (msg : string) : method S unit :=
  if b then mret tt else raise (AssertionError msg).

(** [for x in l: body x] *)
Fixpoint for_each {S A} (l : list A) (body : A → method S unit) : method S unit :=
  match l with
  | [] => mret tt
  | x :: l' => body x ;; for_each l' body
  end.

(** [enumerate(l)] *)
Definition enumerate {A} (l : list A) : list (nat * A) :=
  zip (seq 0 (length l)) l.

(* ===================================================================== *)
(** * Tensors *)
(* ===================================================================== *)

(** A two-dimensional float tensor of shape [(N, ncols)]: the point array
    and the two flow arrays. The column count is kept beside the rows so
    that an array without points still has a shape. *)
Record Tensor : Type := { rows : list (list float32); ncols : nat }.

Definition shape (t : Tensor) : nat * nat := (length (rows t), ncols t).

Definition shape_eqb (s1 s2 : nat * nat) : bool :=
  Nat.eqb s1.1 s2.1 && Nat.eqb s1.2 s2.2.

(** [t[:, :k]] *)
Definition take_cols (k : nat) (t : Tensor) : Tensor :=
  {| rows := take k <$> rows t; ncols := Nat.min k (ncols t) |}.

(** [a - b] for two tensors of one shape. *)
Definition tensor_sub (a b : Tensor) : Tensor :=
  {| rows := zip_with (zip_with F32.sub) (rows a) (rows b); ncols := ncols a |}.

(** [torch.sum] of a one-dimensional float tensor and
    [torch.norm(row, p=2)] of one row are reductions of the library: the
    program fixes neither the order in which the entries are added nor the
    rounding of the intermediate results, and the library's choice differs
    between its kernels. The model is therefore parametric in the two
    functions, and keeps of them what holds of every such kernel: the sum
    is a function of the entries in their order and the norm of a row a
    function of that row; the sum of no entries is [0.0], the sum of one
    entry is that entry, a sum of entries without sign bit has no sign
    bit, and a norm has no sign bit. *)
Class Reductions : Type := {
  torch_sum : list float32 → float32;
  norm_p2 : list float32 → float32;
  torch_sum_nil : torch_sum [] = F32.zero;
  torch_sum_single x : F32.sign_clear x = true → torch_sum [x] = x;
  torch_sum_sign_clear l :
    Forall (λ x, F32.sign_clear x = true) l → F32.sign_clear (torch_sum l) = true;
  norm_p2_sign_clear row : F32.sign_clear (norm_p2 row) = true
}.

(** The reference kernel: accumulation from [0.0] in index order, every
    intermediate result rounded to float32. *)
Definition sequential_sum (l : list float32) : float32 := foldl F32.add F32.zero l.

Definition sequential_norm_p2 (row : list float32) : float32 :=
  F32.sqrt (sequential_sum ((λ x, F32.mul x x) <$> row)).

(** [torch.sum] of a boolean mask: the number of [True] entries, a long. *)
Definition torch_sum_mask (mask : list bool) : Z :=
  Z.of_nat (length (filter (λ b, b = true) mask)).

(** [torch.norm(row, p=inf)] of one row: the largest absolute value, which
    involves no rounding. *)
Definition norm_inf (row : list float32) : float32 :=
  match F32.abs <$> row with
  | [] => F32.zero
  | a :: l => foldl F32.max a l
  end.

(** [torch.norm(t, dim=1, p=...)]: one reduction per row. *)
Definition torch_norm_p2 `{Reductions} (t : Tensor) : list float32 := norm_p2 <$> rows t.
Definition torch_norm_inf (t : Tensor) : list float32 := norm_inf <$> rows t.

(** [values[mask]]: the entries whose mask bit is set, in order. *)
Fixpoint masked_select {A} (values : list A) (mask : list bool) : list A :=
  match values, mask with
  | v :: values', b :: mask' =>
      if b then v :: masked_select values' mask' else masked_select values' mask'
  | _, _ => []
  end.

(** [m1 & m2] and [~m] on masks. *)
Definition mask_and (m1 m2 : list bool) : list bool := zip_with andb m1 m2.
Definition mask_not (m : list bool) : list bool := negb <$> m.

(** A four-dimensional tensor, indexed [t[a, b, c, d]]. *)
Abbreviation tensor4 A := (list (list (list (list A)))).
Definition idx4 : Type := nat * nat * nat * nat.

Definition tensor4_get {A} (t : tensor4 A) (i : idx4) : option A :=
  let '(a, b, c, d) := i in
  t1 ← t !! a; t2 ← t1 !! b; t3 ← t2 !! c; t3 !! d.

Definition tensor4_alter {A} (f : A → A) (i : idx4) (t : tensor4 A) : tensor4 A :=
  let '(a, b, c, d) := i in alter (alter (alter (alter f d) c) b) a t.

(** [torch.zeros((n0, n1, n2, n3))] with the zero of the element type. *)
Definition tensor4_full {A} (z : A) (n0 n1 n2 n3 : nat) : tensor4 A :=
  replicate n0 (replicate n1 (replicate n2 (replicate n3 z))).

Definition tensor4_map {A B} (f : A → B) (t : tensor4 A) : tensor4 B :=
  fmap (M := list) (fmap (M := list) (fmap (M := list) (fmap (M := list) f))) t.

(** [t.zero_()] and [torch.zeros_like(t)] *)
Definition tensor4_zero {A} (z : A) (t : tensor4 A) : tensor4 A :=
  tensor4_map (λ _, z) t.

(** Element-wise combination of two tensors of one shape. *)
Definition tensor4_zip_with {A} (f : A → A → A) (t u : tensor4 A) : tensor4 A :=
  zip_with (zip_with (zip_with (zip_with f))) t u.

Definition tensor4_forallb {A} (p : A → bool) (t : tensor4 A) : bool :=
  forallb (forallb (forallb (forallb p))) t.

(** The tensor has shape [(n0, n1, n2, n3)]. *)
Definition has_shape {A} (t : tensor4 A) (n0 n1 n2 n3 : nat) : bool :=
  Nat.eqb (length t) n0 &&
  forallb (λ t1, Nat.eqb (length t1) n1 &&
    forallb (λ t2, Nat.eqb (length t2) n2 &&
      forallb (λ t3 : list A, Nat.eqb (length t3) n3) t2) t1) t.

(* ===================================================================== *)
(** * [EndpointDistanceMetricRawTorch] *)
(* ===================================================================== *)

Record EndpointDistanceMetricRawTorch : Type := {
  class_index_to_name_map : gmap nat string;
  class_id_to_index_map : gmap Z nat;
  speed_bucket_splits_meters_per_second : list float32;
  endpoint_error_splits_meters : list float32;
  per_class_bucketed_error_sum : tensor4 float32;
  per_class_bucketed_error_count : tensor4 Z;
  close_object_threshold_meters : float32;
  per_frame_to_per_second_scale_factor : float32;
  total_forward_time : float32;
  total_forward_count : Z
}.

Abbreviation Metric := EndpointDistanceMetricRawTorch.

(** Field updates, one per attribute the methods assign. *)
Definition set_error_sum (f : tensor4 float32 → tensor4 float32) (self : Metric) : Metric :=
  {| class_index_to_name_map := class_index_to_name_map self;
     class_id_to_index_map := class_id_to_index_map self;
     speed_bucket_splits_meters_per_second := speed_bucket_splits_meters_per_second self;
     endpoint_error_splits_meters := endpoint_error_splits_meters self;
     per_class_bucketed_error_sum := f (per_class_bucketed_error_sum self);
     per_class_bucketed_error_count := per_class_bucketed_error_count self;
     close_object_threshold_meters := close_object_threshold_meters self;
     per_frame_to_per_second_scale_factor := per_frame_to_per_second_scale_factor self;
     total_forward_time := total_forward_time self;
     total_forward_count := total_forward_count self |}.

Definition set_error_count (f : tensor4 Z → tensor4 Z) (self : Metric) : Metric :=
  {| class_index_to_name_map := class_index_to_name_map self;
     class_id_to_index_map := class_id_to_index_map self;
     speed_bucket_splits_meters_per_second := speed_bucket_splits_meters_per_second self;
     endpoint_error_splits_meters := endpoint_error_splits_meters self;
     per_class_bucketed_error_sum := per_class_bucketed_error_sum self;
     per_class_bucketed_error_count := f (per_class_bucketed_error_count self);
     close_object_threshold_meters := close_object_threshold_meters self;
     per_frame_to_per_second_scale_factor := per_frame_to_per_second_scale_factor self;
     total_forward_time := total_forward_time self;
     total_forward_count := total_forward_count self |}.

Definition set_forward_time (f : float32 → float32) (self : Metric) : Metric :=
  {| class_index_to_name_map := class_index_to_name_map self;
     class_id_to_index_map := class_id_to_index_map self;
     speed_bucket_splits_meters_per_second := speed_bucket_splits_meters_per_second self;
     endpoint_error_splits_meters := endpoint_error_splits_meters self;
     per_class_bucketed_error_sum := per_class_bucketed_error_sum self;
     per_class_bucketed_error_count := per_class_bucketed_error_count self;
     close_object_threshold_meters := close_object_threshold_meters self;
     per_frame_to_per_second_scale_factor := per_frame_to_per_second_scale_factor self;
     total_forward_time := f (total_forward_time self);
     total_forward_count := total_forward_count self |}.

Definition set_forward_count (f : Z → Z) (self : Metric) : Metric :=
  {| class_index_to_name_map := class_index_to_name_map self;
     class_id_to_index_map := class_id_to_index_map self;
     speed_bucket_splits_meters_per_second := speed_bucket_splits_meters_per_second self;
     endpoint_error_splits_meters := endpoint_error_splits_meters self;
     per_class_bucketed_error_sum := per_class_bucketed_error_sum self;
     per_class_bucketed_error_count := per_class_bucketed_error_count self;
     close_object_threshold_meters := close_object_threshold_meters self;
     per_frame_to_per_second_scale_factor := per_frame_to_per_second_scale_factor self;
     total_forward_time := total_forward_time self;
     total_forward_count := f (total_forward_count self) |}.

(** [list(zip(splits, splits[1:]))] *)
Definition bucket_bounds (splits : list float32) : list (float32 * float32) :=
  zip splits (drop 1 splits).

Definition speed_bucket_bounds (self : Metric) : list (float32 * float32) :=
  bucket_bounds (speed_bucket_splits_meters_per_second self).

Definition epe_bucket_bounds (self : Metric) : list (float32 * float32) :=
  bucket_bounds (endpoint_error_splits_meters self).

(** The two loops of [__init__] that number the classes in the dict's
    insertion order. *)
Definition build_class_index_to_name_map (class_id_to_name_map : list (Z * string))
  : gmap nat string :=
  foldl (λ m '(cls_index, (cls_id, cls_name)), <[cls_index := cls_name]> m)
        ∅ (enumerate class_id_to_name_map).

Definition build_class_id_to_index_map (class_id_to_name_map : list (Z * string))
  : gmap Z nat :=
  foldl (λ m '(cls_index, (cls_id, cls_name)), <[cls_id := cls_index]> m)
        ∅ (enumerate class_id_to_name_map).

(** The defaults of [__init__]: 35.0 and 10.0. *)
Definition default_close_object_threshold_meters : float32 :=
  Eval vm_compute in F32.of_Z 35.
Definition default_per_frame_to_per_second_scale_factor : float32 :=
  Eval vm_compute in F32.of_Z 10.

(** [__init__]. The dict [class_id_to_name_map] is given as the list of
    its items in insertion order; its keys are distinct. *)
Definition init (class_id_to_name_map : list (Z * string))
    (speed_bucket_splits endpoint_error_splits : list float32)
    (close_threshold scale_factor : float32) : Metric :=
  let n_class := length class_id_to_name_map in
  let n_speed := length (bucket_bounds speed_bucket_splits) in
  let n_epe := length (bucket_bounds endpoint_error_splits) in
  {| class_index_to_name_map := build_class_index_to_name_map class_id_to_name_map;
     class_id_to_index_map := build_class_id_to_index_map class_id_to_name_map;
     speed_bucket_splits_meters_per_second := speed_bucket_splits;
     endpoint_error_splits_meters := endpoint_error_splits;
     per_class_bucketed_error_sum := tensor4_full F32.zero 2 n_class n_speed n_epe;
     per_class_bucketed_error_count := tensor4_full 0 2 n_class n_speed n_epe;
     close_object_threshold_meters := close_threshold;
     per_frame_to_per_second_scale_factor := scale_factor;
     total_forward_time := F32.zero;
     total_forward_count := 0 |}.

Definition init_default (class_id_to_name_map : list (Z * string))
    (speed_bucket_splits endpoint_error_splits : list float32) : Metric :=
  init class_id_to_name_map speed_bucket_splits endpoint_error_splits
       default_close_object_threshold_meters
       default_per_frame_to_per_second_scale_factor.

(** [tensor[idx] += v] on the two accumulators. An index outside the
    tensor raises. *)
Definition iadd_error_sum (idx : idx4) (v : float32) : method Metric unit :=
  λ self,
    match tensor4_get (per_class_bucketed_error_sum self) idx with
    | Some _ => (Return tt, set_error_sum (tensor4_alter (λ x, F32.add x v) idx) self)
    | None => (Raise IndexError, self)
    end.

Definition iadd_error_count (idx : idx4) (n : Z) : method Metric unit :=
  λ self,
    match tensor4_get (per_class_bucketed_error_count self) idx with
    | Some _ => (Return tt, set_error_count (tensor4_alter (λ x, I64.add x n) idx) self)
    | None => (Raise IndexError, self)
    end.

(** [self.class_id_to_index_map[class_id]] *)
Definition lookup_class_index (class_id : Z) : method Metric nat :=
  λ self,
    match class_id_to_index_map self !! class_id with
    | Some class_index => (Return class_index, self)
    | None => (Raise (KeyError class_id), self)
    end.

(** The three assertions that open [update_class_error]. *)
Definition shape_check (pc regressed_flow gt_flow : Tensor) : bool :=
  shape_eqb (shape regressed_flow) (shape gt_flow) &&
  Nat.eqb (shape regressed_flow).1 (shape pc).1 &&
  Nat.eqb (shape pc).2 3.

(** The per-point quantities computed before the loops. *)
Definition is_close_mask_of (threshold : float32) (pc : Tensor) : list bool :=
  let xy_points := take_cols 2 pc in
  let point_xy_distances := torch_norm_inf xy_points in
  (λ d, F32.leb d threshold) <$> point_xy_distances.

Definition endpoint_errors_of `{Reductions} (regressed_flow gt_flow : Tensor) :
    list float32 :=
  torch_norm_p2 (tensor_sub regressed_flow gt_flow).

Definition gt_speeds_of `{Reductions} (scale_factor : float32) (gt_flow : Tensor) :
    list float32 :=
  (λ n, F32.mul n scale_factor) <$> torch_norm_p2 gt_flow.

(** [(values >= lower) & (values < upper)], for one value and for the
    whole tensor. *)
Definition in_bucket (v : float32) (bounds : float32 * float32) : bool :=
  F32.geb v bounds.1 && F32.ltb v bounds.2.

Definition bucket_mask (values : list float32) (bounds : float32 * float32) : list bool :=
  (λ v, in_bucket v bounds) <$> values.

Definition update_class_error `{Reductions} (pc : Tensor) (class_id : Z)
    (regressed_flow gt_flow : Tensor) : method Metric unit :=
  py_assert (shape_eqb (shape regressed_flow) (shape gt_flow)) "Shapes do not match" ;;
  py_assert (Nat.eqb (shape regressed_flow).1 (shape pc).1) "Shapes do not match" ;;
  py_assert (Nat.eqb (shape pc).2 3) "Shapes do not match" ;;
  threshold ← gets close_object_threshold_meters;
  let is_close_mask := is_close_mask_of threshold pc in
  class_index ← lookup_class_index class_id;
  let endpoint_errors := endpoint_errors_of regressed_flow gt_flow in
  scale_factor ← gets per_frame_to_per_second_scale_factor;
  let gt_speeds := gt_speeds_of scale_factor gt_flow in
  for_each (enumerate [is_close_mask; mask_not is_close_mask])
    (λ '(close_mask_idx, close_mask),
      speed_bounds ← gets speed_bucket_bounds;
      for_each (enumerate speed_bounds)
        (λ '(speed_idx, speed_bound),
          let speed_mask := bucket_mask gt_speeds speed_bound in
          epe_bounds ← gets epe_bucket_bounds;
          for_each (enumerate epe_bounds)
            (λ '(epe_idx, epe_bound),
              let endpoint_error_mask := bucket_mask endpoint_errors epe_bound in
              let total_mask :=
                mask_and (mask_and close_mask speed_mask) endpoint_error_mask in
              iadd_error_sum (close_mask_idx, class_index, speed_idx, epe_idx)
                (torch_sum (masked_select endpoint_errors total_mask)) ;;
              iadd_error_count (close_mask_idx, class_index, speed_idx, epe_idx)
                (torch_sum_mask total_mask)))).

Definition update_runtime (run_time : float32) (run_count : Z) : method Metric unit :=
  modify (set_forward_time (λ t, F32.add t run_time)) ;;
  modify (set_forward_count (λ c, I64.add c run_count)).

Definition reset : method Metric unit :=
  modify (set_error_sum (tensor4_zero F32.zero)) ;;
  modify (set_error_count (tensor4_zero 0)) ;;
  modify (set_forward_time (λ _, F32.zero)) ;;
  modify (set_forward_count (λ _, 0)).


(** ** [gather] *)

(** [torch.sum(stack, dim=0)]: the rows of the stack are added in order
    onto zeros, element by element. *)
Definition sum_dim0_float (stack : list float32) : float32 :=
  foldl F32.add F32.zero stack.

Definition sum_dim0_long (stack : list Z) : Z :=
  foldl I64.add 0 stack.

Definition sum_dim0_tensor4_float (stack : list (tensor4 float32)) : tensor4 float32 :=
  match stack with
  | [] => []
  | t :: _ => foldl (tensor4_zip_with F32.add) (tensor4_zero F32.zero t) stack
  end.

Definition sum_dim0_tensor4_long (stack : list (tensor4 Z)) : tensor4 Z :=
  match stack with
  | [] => []
  | t :: _ => foldl (tensor4_zip_with I64.add) (tensor4_zero 0 t) stack
  end.

(** The gather capability handed to [gather]: from this process's tensor to
    the stack of that tensor over all processes. It is applied to tensors
    of four types, hence four components. *)
Record gather_fn : Type := {
  gather_tensor4_float : tensor4 float32 → list (tensor4 float32);
  gather_tensor4_long : tensor4 Z → list (tensor4 Z);
  gather_float : float32 → list float32;
  gather_long : Z → list Z
}.

(** What [gather] returns: the four summed tensors. *)
Record gathered : Type := {
  g_error_sum : tensor4 float32;
  g_error_count : tensor4 Z;
  g_forward_time : float32;
  g_forward_count : Z
}.

Definition gather (fn : gather_fn) : method Metric gathered :=
  error_sum ← gets per_class_bucketed_error_sum;
  let per_class_bucketed_error_sum :=
    sum_dim0_tensor4_float (gather_tensor4_float fn error_sum) in
  error_count ← gets per_class_bucketed_error_count;
  let per_class_bucketed_error_count :=
    sum_dim0_tensor4_long (gather_tensor4_long fn error_count) in
  forward_time ← gets total_forward_time;
  let total_forward_time := sum_dim0_float (gather_float fn forward_time) in
  forward_count ← gets total_forward_count;
  let total_forward_count := sum_dim0_long (gather_long fn forward_count) in
  mret {| g_error_sum := per_class_bucketed_error_sum;
          g_error_count := per_class_bucketed_error_count;
          g_forward_time := total_forward_time;
          g_forward_count := total_forward_count |}.


(** The sum over a stack of snapshots, tensor by tensor. *)
Definition sum_stack (stack : list gathered) : gathered :=
  {| g_error_sum := sum_dim0_tensor4_float (g_error_sum <$> stack);
     g_error_count := sum_dim0_tensor4_long (g_error_count <$> stack);
     g_forward_time := sum_dim0_float (g_forward_time <$> stack);
     g_forward_count := sum_dim0_long (g_forward_count <$> stack) |}.

(* ===================================================================== *)
(** * [ModelWrapper]: the end of a validation epoch *)
(* ===================================================================== *)

(** The attributes of the wrapper that the epoch end reads or writes. *)
Record ModelWrapper : Type := {
  metric : Metric;
  global_rank : nat
}.

(** [self.metric.m(...)]: a method of the metric run on the wrapper. *)
Definition on_metric {A} (m : method Metric A) : method ModelWrapper A :=
  λ self,
    let '(r, metric') := m (metric self) in
    (r, {| metric := metric'; global_rank := global_rank self |}).

(** The dict built on rank 0. *)
Record validation_result_dict : Type := {
  r_per_class_bucketed_error_sum : tensor4 float32;
  r_per_class_bucketed_error_count : tensor4 Z;
  r_average_forward_time : float32
}.

(** The first half of [validation_epoch_end]: the gather, then the reset
    of the metric of this process. Its value is the tuple of local
    variables that hold the gathered sums. *)
Definition gather_then_reset (all_gather : gather_fn) : method ModelWrapper gathered :=
  g ← on_metric (gather all_gather);
  on_metric reset ;;
  mret g.

(** [validation_epoch_end]. The Python method returns [{}] on every path;
    the value returned here is the [validation_result_dict] it builds on
    rank 0 and hands to [_log_validation_metrics] and
    [_save_validation_data], and [None] on the other ranks. The division is
    the one of a float tensor by a long tensor: the long is converted to
    binary32 first. *)
Definition validation_epoch_end (all_gather : gather_fn)
  : method ModelWrapper (option validation_result_dict) :=
  g ← gather_then_reset all_gather;
  rank ← gets global_rank;
  if negb (Nat.eqb rank 0) then mret None
  else
    mret (Some
      {| r_per_class_bucketed_error_sum := g_error_sum g;
         r_per_class_bucketed_error_count := g_error_count g;
         r_average_forward_time :=
           F32.div (g_forward_time g) (F32.of_Z (g_forward_count g)) |}).

(** ** The processes of a distributed run *)

(** Modelled from the spec: the [all_gather] of the training framework, a
    barrier-synchronised collective that collects the tensor of each
    process into a stack with one entry per process. A call returns, in
    every process, the stack of the tensors that the processes passed to
    it. [all_gather_at] is this capability for the process of rank [rank]:
    its own entry is the tensor that it passes, the other entries are the
    tensors that the other processes hold in [world] and pass. *)
Definition all_gather_at (world : list Metric) (rank : nat) : gather_fn :=
  {| gather_tensor4_float := λ local, <[rank := local]> (per_class_bucketed_error_sum <$> world);
     gather_tensor4_long := λ local, <[rank := local]> (per_class_bucketed_error_count <$> world);
     gather_float := λ local, <[rank := local]> (total_forward_time <$> world);
     gather_long := λ local, <[rank := local]> (total_forward_count <$> world) |}.


(* ===================================================================== *)
(** * Auxiliary definitions of the statements *)
(* ===================================================================== *)

#[global] Instance float32_inhabited : Inhabited float32 := populate F32.zero.

(** The tensor whose cell [i] is [f i] of the cell [i] of [t]. *)
Definition tensor4_imap {A B} (f : idx4 → A → B) (t : tensor4 A) : tensor4 B :=
  imap (λ a, imap (λ b, imap (λ c, imap (λ d, f (a, b, c, d))))) t.

(** The index is within the shape [(n0, n1, n2, n3)]. *)
Definition in_shape (i : idx4) (n0 n1 n2 n3 : nat) : Prop :=
  let '(a, b, c, d) := i in (a < n0 ∧ b < n1 ∧ c < n2 ∧ d < n3)%nat.

(** The mask [total_mask] that the loops of [update_class_error] build at
    the iteration [(close_mask_idx, speed_idx, epe_idx) = (c, s, e)]. *)
Definition total_mask_at `{Reductions} (self : Metric) (pc regressed_flow gt_flow : Tensor)
    (c s e : nat) : list bool :=
  let is_close_mask := is_close_mask_of (close_object_threshold_meters self) pc in
  let endpoint_errors := endpoint_errors_of regressed_flow gt_flow in
  let gt_speeds := gt_speeds_of (per_frame_to_per_second_scale_factor self) gt_flow in
  mask_and
    (mask_and ([is_close_mask; mask_not is_close_mask] !!! c)
              (bucket_mask gt_speeds (speed_bucket_bounds self !!! s)))
    (bucket_mask endpoint_errors (epe_bucket_bounds self !!! e)).

(** What that iteration adds to its cell of each accumulator. *)
Definition cell_error_sum `{Reductions} (self : Metric) (pc regressed_flow gt_flow : Tensor)
    (c s e : nat) : float32 :=
  torch_sum (masked_select (endpoint_errors_of regressed_flow gt_flow)
                           (total_mask_at self pc regressed_flow gt_flow c s e)).

Definition cell_error_count `{Reductions} (self : Metric) (pc regressed_flow gt_flow : Tensor)
    (c s e : nat) : Z :=
  torch_sum_mask (total_mask_at self pc regressed_flow gt_flow c s e).

(** The iterations that precede [(c, s, e)] in the order of the loops. *)
Definition before (c s e : nat) (c' s' e' : nat) : bool :=
  (c' <? c)%nat || (c' =? c)%nat && ((s' <? s)%nat || (s' =? s)%nat && (e' <? e)%nat).

(** The metric after the iterations selected by [done] have run: the row
    [class_index] of both accumulators has received their contributions. *)
Definition accumulated (done : nat → nat → nat → bool) (class_index : nat)
    (fs : nat → nat → nat → float32) (fc : nat → nat → nat → Z) (self : Metric) : Metric :=
  set_error_sum
    (tensor4_imap (λ '(c, k, s, e) x,
       if bool_decide (k = class_index) && done c s e then F32.add x (fs c s e) else x))
    (set_error_count
      (tensor4_imap (λ '(c, k, s, e) x,
         if bool_decide (k = class_index) && done c s e then I64.add x (fc c s e) else x))
      self).

(** The invariant of a metric object: the accumulators have the shape fixed
    by the configuration, every class index of the table is a row of them,
    no partial sum has its sign bit set and every count is an int64. *)
Definition wf (self : Metric) : bool :=
  let n_class := size (class_id_to_index_map self) in
  let n_speed := length (speed_bucket_bounds self) in
  let n_epe := length (epe_bucket_bounds self) in
  has_shape (per_class_bucketed_error_sum self) 2 n_class n_speed n_epe &&
  has_shape (per_class_bucketed_error_count self) 2 n_class n_speed n_epe &&
  bool_decide (map_Forall (λ _ class_index, (class_index < n_class)%nat)
                          (class_id_to_index_map self)) &&
  tensor4_forallb F32.sign_clear (per_class_bucketed_error_sum self) &&
  tensor4_forallb I64.in_range (per_class_bucketed_error_count self).

Arguments tensor4_imap : simpl never.
Arguments tensor4_alter : simpl never.
Arguments tensor4_get : simpl never.
Arguments tensor4_map : simpl never.

(** The boundaries are sorted: none is above the next. Equal neighbours
    are allowed, and bound a bucket without values. *)
Definition sorted (splits : list float32) : bool :=
  forallb (λ b, F32.leb b.1 b.2) (bucket_bounds splits).

(** The index, in [[is_close_mask, ~is_close_mask]], of the proximity mask
    that holds a point: 0 for a close point, 1 for a far one. *)
Definition proximity_index (close : bool) : nat := if close then 0%nat else 1%nat.

(** The value lies in none of the buckets. *)
Definition outside_all_buckets (v : float32) (bounds : list (float32 * float32)) : bool :=
  forallb (λ b, negb (in_bucket v b)) bounds.

(** Two metrics agree on everything but the two bucketed accumulators. *)
Definition same_outside_accumulators (self self' : Metric) : Prop :=
  class_index_to_name_map self' = class_index_to_name_map self ∧
  class_id_to_index_map self' = class_id_to_index_map self ∧
  speed_bucket_splits_meters_per_second self' = speed_bucket_splits_meters_per_second self ∧
  endpoint_error_splits_meters self' = endpoint_error_splits_meters self ∧
  close_object_threshold_meters self' = close_object_threshold_meters self ∧
  per_frame_to_per_second_scale_factor self' = per_frame_to_per_second_scale_factor self ∧
  total_forward_time self' = total_forward_time self ∧
  total_forward_count self' = total_forward_count self.

(** [t[i:i+1]]: the tensor of the single row [row] of [t]. *)
Definition point_tensor (t : Tensor) (row : list float32) : Tensor :=
  {| rows := [row]; ncols := ncols t |}.

(** The points of a call processed one per call, in index order. *)
Definition update_class_error_per_point `{Reductions} (pc : Tensor) (class_id : Z)
    (regressed_flow gt_flow : Tensor) : method Metric unit :=
  for_each (zip (rows pc) (zip (rows regressed_flow) (rows gt_flow)))
    (λ '(p, (r, g)),
      update_class_error (point_tensor pc p) class_id
        (point_tensor regressed_flow r) (point_tensor gt_flow g)).

(** The tensor without its row [i]. *)
Definition delete_point (i : nat) (t : Tensor) : Tensor :=
  {| rows := delete i (rows t); ncols := ncols t |}.

(** The value is outside the ranges of all the buckets of [splits]: no
    bucket mask selects it, which is the case in particular when the
    boundaries are sorted and the value is below the lowest or at or above
    the highest of them. *)
Definition out_of_range (v : float32) (splits : list float32) : Prop :=
  outside_all_buckets v (bucket_bounds splits) = true ∨
  (sorted splits = true ∧
   ((∃ lo, splits !! 0%nat = Some lo ∧ F32.ltb v lo = true) ∨
    (∃ hi, last splits = Some hi ∧ F32.leb hi v = true))).

(** The metrics that a program can hold: the one built by the constructor
    from a dict (a list of items with distinct keys), and those left by
    the methods, whatever their outcome. *)
Inductive reachable `{Reductions} : Metric → Prop :=
  | reachable_init items speed_splits epe_splits threshold scale :
      NoDup items.*1 →
      reachable (init items speed_splits epe_splits threshold scale)
  | reachable_update_class_error self pc class_id regressed_flow gt_flow :
      reachable self →
      reachable (run (update_class_error pc class_id regressed_flow gt_flow) self).2
  | reachable_update_runtime self run_time run_count :
      reachable self →
      reachable (run (update_runtime run_time run_count) self).2
  | reachable_gather self fn :
      reachable self → reachable (run (gather fn) self).2
  | reachable_reset self :
      reachable self → reachable (run reset self).2.

(** ** The order of binary32 numbers *)

(** The position of a number on the extended real line, as a triple
    compared lexicographically: the class (infinities, negative, zero,
    positive), then the exponent and the mantissa, both negated below zero. *)
Definition order_key (x : float32) : Z * Z * Z :=
  match x with
  | S754_nan => (0, 0, 0)
  | S754_zero _ => (0, 0, 0)
  | S754_infinity true => (-2, 0, 0)
  | S754_infinity false => (2, 0, 0)
  | S754_finite false m e => (1, e, Z.pos m)
  | S754_finite true m e => (-1, - e, Z.neg m)
  end.

(** The lexicographic order of the triples, strict and large. *)
Definition key_lt (a b : Z * Z * Z) : Prop :=
  a.1.1 < b.1.1 ∨ (a.1.1 = b.1.1 ∧ (a.1.2 < b.1.2 ∨ (a.1.2 = b.1.2 ∧ a.2 < b.2))).

Definition key_le (a b : Z * Z * Z) : Prop :=
  a.1.1 < b.1.1 ∨ (a.1.1 = b.1.1 ∧ (a.1.2 < b.1.2 ∨ (a.1.2 = b.1.2 ∧ a.2 <= b.2))).


(* ===================================================================== *)
(** * Example configurations and inputs *)
(* ===================================================================== *)

Definition example_items : list (Z * string) := [(0, "BACKGROUND"); (7, "CAR")].

(** A metric with two classes, the speed buckets [0, 5) and [5, 10) and
    the error buckets [0, 1) and [1, inf), with the default threshold and
    scale factor. *)
Definition example_metric : Metric :=
  init_default example_items
    [F32.of_Z 0; F32.of_Z 5; F32.of_Z 10] [F32.of_Z 0; F32.of_Z 1; F32.infinity].

(** The same metric with the sorted speed boundaries 0, 10, 10, 20, of
    which two are equal: the speed buckets are [0, 10), the empty [10, 10)
    and [10, 20). *)
Definition repeated_boundary_metric : Metric :=
  init_default example_items
    [F32.of_Z 0; F32.of_Z 10; F32.of_Z 10; F32.of_Z 20]
    [F32.of_Z 0; F32.of_Z 1; F32.infinity].

(** A tensor of shape [(0, 3)]. *)
Definition empty_points : Tensor := {| rows := []; ncols := 3 |}.

(** One point at the origin, and a flow array for it that has two columns
    only. *)
Definition one_point : Tensor :=
  {| rows := [[F32.zero; F32.zero; F32.zero]]; ncols := 3 |}.

Definition flow_two_columns : Tensor :=
  {| rows := [[F32.zero; F32.zero]]; ncols := 2 |}.

(** One point at 35 m on the negative x axis. *)
Definition point_at_threshold : Tensor :=
  {| rows := [[F32.of_Z (-35); F32.of_Z 0; F32.of_Z 1]]; ncols := 3 |}.

(** One point whose predicted flow is off by 2^24 along x, and two points
    whose predicted flows are off by 1 each; the ground-truth flows are
    zero. *)
Definition far_error_point : Tensor :=
  {| rows := [[F32.of_Z 1; F32.of_Z 2; F32.of_Z 0]]; ncols := 3 |}.
Definition far_error_flow : Tensor :=
  {| rows := [[F32.of_Z 16777216; F32.of_Z 0; F32.of_Z 0]]; ncols := 3 |}.
Definition zero_flow : Tensor :=
  {| rows := [[F32.of_Z 0; F32.of_Z 0; F32.of_Z 0]]; ncols := 3 |}.

(** A predicted flow that is off by 1 along x. *)
Definition unit_flow : Tensor :=
  {| rows := [[F32.of_Z 1; F32.of_Z 0; F32.of_Z 0]]; ncols := 3 |}.

Definition two_points : Tensor :=
  {| rows := [[F32.of_Z 1; F32.of_Z 2; F32.of_Z 0]; [F32.of_Z 3; F32.of_Z 4; F32.of_Z 0]];
     ncols := 3 |}.
Definition two_unit_flows : Tensor :=
  {| rows := [[F32.of_Z 1; F32.of_Z 0; F32.of_Z 0]; [F32.of_Z 0; F32.of_Z 1; F32.of_Z 0]];
     ncols := 3 |}.
Definition two_zero_flows : Tensor :=
  {| rows := [[F32.of_Z 0; F32.of_Z 0; F32.of_Z 0]; [F32.of_Z 0; F32.of_Z 0; F32.of_Z 0]];
     ncols := 3 |}.

(** The tensors of three processes, each with a single cell: the sums
    [2^24], [1] and [1], the counts 5, 5 and 0. *)
Definition process_a : gathered :=
  {| g_error_sum := [[[[F32.of_Z 16777216]]]]; g_error_count := [[[[5]]]];
     g_forward_time := F32.of_Z 16777216; g_forward_count := 5 |}.
Definition process_b : gathered :=
  {| g_error_sum := [[[[F32.of_Z 1]]]]; g_error_count := [[[[5]]]];
     g_forward_time := F32.of_Z 1; g_forward_count := 5 |}.
Definition process_c : gathered :=
  {| g_error_sum := [[[[F32.of_Z 1]]]]; g_error_count := [[[[0]]]];
     g_forward_time := F32.of_Z 1; g_forward_count := 0 |}.

(** Two points of which the second has a ground-truth flow of 2 m per
    frame, that is a speed of 20 m/s, above the highest speed boundary of
    [example_metric]. *)
Definition fast_flows : Tensor :=
  {| rows := [[F32.of_Z 0; F32.of_Z 0; F32.of_Z 0]; [F32.of_Z 2; F32.of_Z 0; F32.of_Z 0]];
     ncols := 3 |}.

(* ===================================================================== *)
(** * The metric under sequences of calls *)
(* ===================================================================== *)

(** A call of one of the methods of the metric by the code that owns it. *)
Inductive metric_call : Type :=
  | call_update_class_error (pc : Tensor) (class_id : Z) (regressed_flow gt_flow : Tensor)
  | call_update_runtime (run_time : float32) (run_count : Z)
  | call_gather (fn : gather_fn)
  | call_reset.

(** The metric as the call leaves it, whether it returns or raises. *)
Definition run_call `{Reductions} (self : Metric) (c : metric_call) : Metric :=
  match c with
  | call_update_class_error pc class_id regressed_flow gt_flow =>
      (run (update_class_error pc class_id regressed_flow gt_flow) self).2
  | call_update_runtime run_time run_count =>
      (run (update_runtime run_time run_count) self).2
  | call_gather fn => (run (gather fn) self).2
  | call_reset => (run reset self).2
  end.

Definition run_calls `{Reductions} (calls : list metric_call) (self : Metric) : Metric :=
  foldl run_call self calls.

(** The attributes that [__init__] sets once and for all. *)
Definition same_configuration (self self' : Metric) : Prop :=
  class_index_to_name_map self' = class_index_to_name_map self ∧
  class_id_to_index_map self' = class_id_to_index_map self ∧
  speed_bucket_splits_meters_per_second self' = speed_bucket_splits_meters_per_second self ∧
  endpoint_error_splits_meters self' = endpoint_error_splits_meters self ∧
  close_object_threshold_meters self' = close_object_threshold_meters self ∧
  per_frame_to_per_second_scale_factor self' = per_frame_to_per_second_scale_factor self.

(** Two tensors of one shape. *)
Definition same_shape {A} (t t' : tensor4 A) : Prop :=
  ∀ n0 n1 n2 n3, has_shape t' n0 n1 n2 n3 = has_shape t n0 n1 n2 n3.

(** A method keeps a property of the object, on every outcome. *)
Definition preserves {St A} (I : St → Prop) (m : method St A) : Prop :=
  ∀ s, I s → I (m s).2.

(** A method neither reads nor writes what [f] changes: to run it after
    [f] is to run it before, with the same outcome. *)
Definition commutes {St A} (f : St → St) (m : method St A) : Prop :=
  ∀ s, m (f s) = ((m s).1, f (m s).2).



(* ===================================================================== *)
(** * [ModelWrapper.validation_step] *)
(* ===================================================================== *)

(** ** The tensor operations of the step *)

(** [l[i]] on a Python sequence or on the first dimension of a tensor: a
    negative index counts from the end, an index outside is an
    [IndexError], here [None]. *)
Definition py_getitem {A} (l : list A) (i : Z) : option A :=
  let n := Z.of_nat (length l) in
  if (0 <=? i) && (i <? n) then l !! Z.to_nat i
  else if (- n <=? i) && (i <? 0) then l !! Z.to_nat (i + n)
  else None.

(** [t[idxes]] for a long tensor of indices: the entries of [t] at these
    indices, in their order. *)
Definition index_select {A} (l : list A) (idxes : list Z) : option (list A) :=
  mapM (py_getitem l) idxes.

Definition tensor_index (t : Tensor) (idxes : list Z) : option Tensor :=
  rows' ← index_select (rows t) idxes;
  Some {| rows := rows'; ncols := ncols t |}.

(** [t[mask]] for a boolean mask over the first dimension: the mask must
    have the length of that dimension. *)
Definition tensor_mask (t : Tensor) (mask : list bool) : option Tensor :=
  if Nat.eqb (length mask) (length (rows t))
  then Some {| rows := masked_select (rows t) mask; ncols := ncols t |}
  else None.

(** Broadcasting of one dimension: the sizes agree or one of them is 1. *)
Definition broadcast_dim (n m : nat) : option nat :=
  if Nat.eqb n m then Some n
  else if Nat.eqb n 1 then Some m
  else if Nat.eqb m 1 then Some n
  else None.

(** The tensor expanded to the shape [(n, c)] that it broadcasts to. *)
Definition expand (n c : nat) (t : Tensor) : Tensor :=
  let rows' :=
    if Nat.eqb (length (rows t)) n then rows t
    else replicate n (default [] (head (rows t))) in
  {| rows := (λ row, if Nat.eqb (ncols t) c then row
                     else replicate c (default F32.zero (head row))) <$> rows';
     ncols := c |}.

(** [a - b] with broadcasting; shapes that do not broadcast are a
    [RuntimeError], here [None]. *)
Definition torch_sub (a b : Tensor) : option Tensor :=
  n ← broadcast_dim (length (rows a)) (length (rows b));
  c ← broadcast_dim (ncols a) (ncols b);
  Some (tensor_sub (expand n c a) (expand n c b)).

(** [torch.unique(t)] of a long tensor: its distinct values in increasing
    order. *)
Definition torch_unique (t : list Z) : list Z := merge_sort Z.le (remove_dups t).

(** [class_info == cls_id] *)
Definition cls_mask_of (class_info : list Z) (cls_id : Z) : list bool :=
  (λ c, Z.eqb c cls_id) <$> class_info.

(** ** Outcomes of the step *)

(** What the step can raise: the exceptions of the metric, and the
    [RuntimeError] of a tensor operation. *)
Inductive step_outcome (A : Type) : Type :=
  | Done (a : A)
  | Raised (e : exn)
  | RaisedRuntimeError.
Arguments Done {A} a.
Arguments Raised {A} e.
Arguments RaisedRuntimeError {A}.

Definition step (S A : Type) : Type := S → step_outcome A * S.

#[global] Instance step_ret {S} : MRet (step S) :=
  λ A a s, (Done a, s).
#[global] Instance step_bind {S} : MBind (step S) :=
  λ A B f m s,
    match m s with
    | (Done a, s') => f a s'
    | (Raised e, s') => (Raised e, s')
    | (RaisedRuntimeError, s') => (RaisedRuntimeError, s')
    end.

(** A method run as part of the step. *)
Definition lift {S A} (m : method S A) : step S A :=
  λ s,
    match m s with
    | (Return a, s') => (Done a, s')
    | (Raise e, s') => (Raised e, s')
    end.

Definition or_index_error {S A} (o : option A) : step S A :=
  λ s, match o with Some a => (Done a, s) | None => (Raised IndexError, s) end.

Definition or_runtime_error {S A} (o : option A) : step S A :=
  λ s, match o with Some a => (Done a, s) | None => (RaisedRuntimeError, s) end.

Definition step_assert {S} (b : bool) (msg : string) : step S unit :=
  λ s, if b then (Done tt, s) else (Raised (AssertionError msg), s).

Fixpoint for_each_step {S A} (l : list A) (body : A → step S unit) : step S unit :=
  match l with
  | [] => mret tt
  | x :: l' => body x ;; for_each_step l' body
  end.

(** ** The batch *)

(** The entries of [input_batch] that the step reads: per sample, the
    point arrays, the flowed point arrays and the class ids of the points,
    each a sequence over the time steps. A point array is a float tensor
    of two dimensions, the class ids of a frame are a long tensor of one
    dimension. *)
Record InputBatch : Type := {
  pc_array_stack : list (list Tensor);
  flowed_pc_array_stack : list (list Tensor);
  pc_class_mask_stack : list (list (list Z))
}.

(** The entries of [model_res["forward"]] that the step reads: per sample
    the regressed flow and the indices of the valid points of the two
    frames, each a long tensor of indices, and the duration of the forward
    pass over the batch. *)
Record OutputBatch : Type := {
  flow : list Tensor;
  pc0_valid_point_idxes : list (list Z);
  pc1_valid_point_idxes : list (list Z);
  batch_delta_time : float32
}.

(** The body of the loop over the samples of the batch. *)
Definition validation_sample `{Reductions}
    (pc_array flowed_pc_array : list Tensor) (regressed_flow : Tensor)
    (pc0_valid_point_idxes pc1_valid_point_idxes : list Z)
    (class_info : list (list Z)) : step ModelWrapper unit :=
  pc0_frame ← or_index_error (py_getitem pc_array (-2));
  pc0_pc ← or_index_error (tensor_index pc0_frame pc0_valid_point_idxes);
  pc1_frame ← or_index_error (py_getitem pc_array (-1));
  pc1_pc ← or_index_error (tensor_index pc1_frame pc1_valid_point_idxes);
  flowed_frame ← or_index_error (py_getitem flowed_pc_array (-2));
  ground_truth_flowed_pc0_to_pc1 ←
    or_index_error (tensor_index flowed_frame pc0_valid_point_idxes);
  class_frame ← or_index_error (py_getitem class_info (-2));
  pc0_pc_class_info ← or_index_error (index_select class_frame pc0_valid_point_idxes);
  ground_truth_flow ← or_runtime_error (torch_sub ground_truth_flowed_pc0_to_pc1 pc0_pc);
  step_assert (shape_eqb (shape pc0_pc) (shape ground_truth_flowed_pc0_to_pc1))
    "The input and ground truth pointclouds are not the same shape." ;;
  step_assert (shape_eqb (shape pc0_pc) (shape regressed_flow))
    "The input pc and output flow are not the same shape." ;;
  step_assert (shape_eqb (shape regressed_flow) (shape ground_truth_flow))
    "The regressed and ground truth flowed pointclouds are not the same shape." ;;
  for_each_step (torch_unique pc0_pc_class_info)
    (λ cls_id,
      let cls_mask := cls_mask_of pc0_pc_class_info cls_id in
      pc ← or_index_error (tensor_mask pc0_pc cls_mask);
      regressed ← or_index_error (tensor_mask regressed_flow cls_mask);
      ground_truth ← or_index_error (tensor_mask ground_truth_flow cls_mask);
      lift (on_metric (update_class_error pc cls_id regressed ground_truth))).

(** [validation_step]. The batch is [input_batch]; [output_batch] is what
    the model returns for it under the key ["forward"]; [has_labels] is the
    attribute that [__init__] reads from the configuration. The transfer of
    the metric to the device changes no value. The time of the batch is the
    float32 that the float tensor [total_forward_time] takes it as. *)
Definition validation_step `{Reductions} (has_labels : bool)
    (input_batch : InputBatch) (output_batch : OutputBatch) : step ModelWrapper unit :=
  if negb has_labels then mret tt
  else
    lift (on_metric (update_runtime (batch_delta_time output_batch)
                       (Z.of_nat (length (pc_array_stack input_batch))))) ;;
    for_each_step
      (zip (pc_array_stack input_batch)
        (zip (flowed_pc_array_stack input_batch)
          (zip (flow output_batch)
            (zip (pc0_valid_point_idxes output_batch)
              (zip (pc1_valid_point_idxes output_batch)
                   (pc_class_mask_stack input_batch))))))
      (λ '(pc_array, (flowed_pc_array, (regressed_flow,
            (pc0_valid_point_idxes, (pc1_valid_point_idxes, class_info))))),
        validation_sample pc_array flowed_pc_array regressed_flow
          pc0_valid_point_idxes pc1_valid_point_idxes class_info).

(** The attribute [has_labels] as [ModelWrapper.__init__] sets it: true
    unless the configuration has an attribute [has_labels], whose value it
    then takes. The argument is that attribute of the configuration, if it
    has one. *)
Definition init_has_labels (cfg_has_labels : option bool) : bool :=
  match cfg_has_labels with
  | None => true
  | Some has_labels => has_labels
  end.

(** The validation steps of an epoch: one per batch. *)
Definition validation_steps `{Reductions} (has_labels : bool)
    (batches : list (InputBatch * OutputBatch)) : step ModelWrapper unit :=
  for_each_step batches (λ '(input_batch, output_batch),
    validation_step has_labels input_batch output_batch).

(** The last two entries of a sequence. *)
Definition last_two {A} (l : list A) : list A := drop (length l - 2) l.

(** The batch without the frames that precede the last two. *)
Definition keep_last_two (input_batch : InputBatch) : InputBatch :=
  {| pc_array_stack := last_two <$> pc_array_stack input_batch;
     flowed_pc_array_stack := last_two <$> flowed_pc_array_stack input_batch;
     pc_class_mask_stack := last_two <$> pc_class_mask_stack input_batch |}.

(** A method of the step keeps a property of the object, on every
    outcome. *)
Definition step_preserves {St A} (I : St → Prop) (m : step St A) : Prop :=
  ∀ s, I s → I (m s).2.

(* ===================================================================== *)
(** * [launch_job.py] *)
(* ===================================================================== *)

(** ** Strings and paths *)

(** A Python [str] is the string of its characters, each a code point
    below 256. *)

(** [f"{n:0{width}d}"]: the sign, then zeros up to the width, then the
    decimal digits. *)
Definition format_0d (width : nat) (n : Z) : string :=
  let sign := if n <? 0 then "-" else "" in
  let digits := pretty (Z.abs_N n) in
  sign +:+ String.concat "" (replicate (width - String.length sign - String.length digits) "0")
       +:+ digits.

(** [sub in s] *)
Fixpoint is_substring (sub s : string) : bool :=
  String.prefix sub s ||
  match s with
  | EmptyString => false
  | String _ s' => is_substring sub s'
  end.

(** [s.split(sep)] for a separator of one character. *)
Fixpoint split (sep : Ascii.ascii) (s : string) : list string :=
  match s with
  | EmptyString => [EmptyString]
  | String c s' =>
      if Ascii.eqb c sep then EmptyString :: split sep s'
      else match split sep s' with
           | part :: parts => String c part :: parts
           | [] => [String c EmptyString]
           end
  end.

(** [c.isspace()]: the tab, the line feed, the vertical tab, the form
    feed, the carriage return, the four separators 28 to 31, the space,
    the next line and the no-break space. *)
Definition isspace (c : Ascii.ascii) : bool :=
  let n := Ascii.nat_of_ascii c in
  ((9 <=? n) && (n <=? 13) || (28 <=? n) && (n <=? 32) || (n =? 133) || (n =? 160))%nat.

(** [s.lstrip()], [s.rstrip()] and [s.strip()] *)
Fixpoint lstrip (s : string) : string :=
  match s with
  | EmptyString => EmptyString
  | String c s' => if isspace c then lstrip s' else s
  end.

Fixpoint rstrip (s : string) : string :=
  match s with
  | EmptyString => EmptyString
  | String c s' =>
      match rstrip s' with
      | EmptyString => if isspace c then EmptyString else String c EmptyString
      | rest => String c rest
      end
  end.

Definition strip (s : string) : string := rstrip (lstrip s).

(** [str(Path(p) / name)] for the string [p] of a path and a name without
    a slash. *)
Definition path_join (p name : string) : string :=
  if String.eqb p "." then name
  else if String.eqb p "/" || String.eqb p "//" then p +:+ name
  else p +:+ "/" +:+ name.

(** ** The arguments, the environment and the effects *)

(** The parsed command line; [job_dir] is the string of the path. *)
Record Args : Type := {
  command : string;
  job_dir : string;
  num_gpus : Z;
  cpus_per_gpu : Z;
  mem_per_gpu : Z;
  runtime_mins : Z;
  runtime_hours : option Z;
  job_name : string;
  qos : string;
  partition : string;
  dry_run : bool;
  use_srun : bool;
  blacklist_substring : option string
}.

(** What the script reads from its environment: the number of entries of
    [job_dir], the standard output of a command run by [run_cmd], the
    string of the working directory and whether the image file exists. *)
Record Env : Type := {
  num_prior_jobs : nat;
  stdout_of : string → string;
  current_working_dir : string;
  docker_image_is_file : bool
}.

(** What the script does to its environment, in order. File operations
    are taken to succeed; what the script prints is left out. *)
Inductive effect : Type :=
  | Mkdir (path : string)
  | WriteFile (path content : string)
  | RunCmd (cmd : string).

Definition perform (e : effect) : method (list effect) unit :=
  modify (λ log, log ++ [e]).

(** [run_cmd] of [loader_utils], which runs a shell command: the call is
    recorded, the standard output that it returns comes from the
    environment. *)
Definition run_cmd (env : Env) (cmd : string) : method (list effect) string :=
  perform (RunCmd cmd) ;; mret (stdout_of env cmd).

(** ** The functions of the script *)

(** The line feed, Python's ['\n']. *)
Definition line_feed : Ascii.ascii := Ascii.ascii_of_nat 10.

Definition load_available_nodes (env : Env) : method (list effect) (list string) :=
  res ← run_cmd env "sinfo --Node | awk '{print $1}' | tail +2";
  let available_nodes := split line_feed res in
  mret (strip <$> available_nodes).

Definition get_runtime_format (runtime_mins : Z) : string :=
  let hours := runtime_mins `div` 60 in
  let minutes := runtime_mins `mod` 60 in
  format_0d 2 hours +:+ ":" +:+ format_0d 2 minutes +:+ ":00".

Definition make_command_file (jobdir_path command : string) : method (list effect) unit :=
  let command_path := path_join jobdir_path "command.sh" in
  let command_file_content := "#!/bin/bash
"
    +:+ command
    +:+ "
" in
  perform (WriteFile command_path command_file_content).

Definition docker_image_path_of (env : Env) : string :=
  path_join (current_working_dir env) "kylevedder_offline_sceneflow_latest.sqsh".

Definition make_srun (args : Args) (env : Env) (jobdir_path : string)
    (job_runtime_mins : Z) (node_blacklist : list string) : method (list effect) unit :=
  let srun_path := path_join jobdir_path "srun.sh" in
  let docker_image_path := docker_image_path_of env in
  py_assert (docker_image_is_file env)
    ("Docker image " +:+ docker_image_path +:+ " squash file does not exist") ;;
  let srun_file_content := "#!/bin/bash
srun --gpus="
    +:+ pretty (num_gpus args)
    +:+ " --nodes=1 --mem-per-gpu="
    +:+ pretty (mem_per_gpu args)
    +:+ "G --cpus-per-gpu="
    +:+ pretty (cpus_per_gpu args)
    +:+ " --time="
    +:+ get_runtime_format job_runtime_mins
    +:+ " --exclude="
    +:+ String.concat "," node_blacklist
    +:+ " --job-name="
    +:+ job_name args
    +:+ " --qos="
    +:+ qos args
    +:+ " --partition="
    +:+ partition args
    +:+ " --container-mounts=../../datasets/:/efs/,`pwd`:/project --container-image="
    +:+ docker_image_path
    +:+ " bash "
    +:+ jobdir_path
    +:+ "/command.sh
" in
  perform (WriteFile srun_path srun_file_content).

Definition make_sbatch (args : Args) (env : Env) (jobdir_path : string)
    (job_runtime_mins : Z) (node_blacklist : list string) : method (list effect) unit :=
  let current_working_dir := current_working_dir env in
  let sbatch_path := path_join jobdir_path "sbatch.bash" in
  let docker_image_path := docker_image_path_of env in
  py_assert (docker_image_is_file env)
    ("Docker image " +:+ docker_image_path +:+ " squash file does not exist") ;;
  let sbatch_file_content := "#!/bin/bash
#SBATCH --job-name="
    +:+ job_name args
    +:+ "
#SBATCH --qos="
    +:+ qos args
    +:+ "
#SBATCH --partition="
    +:+ partition args
    +:+ "
#SBATCH --nodes=1
#SBATCH --output="
    +:+ jobdir_path
    +:+ "/job.out
#SBATCH --error="
    +:+ jobdir_path
    +:+ "/job.err
#SBATCH --time="
    +:+ get_runtime_format job_runtime_mins
    +:+ "
#SBATCH --gpus="
    +:+ pretty (num_gpus args)
    +:+ "
#SBATCH --mem-per-gpu="
    +:+ pretty (mem_per_gpu args)
    +:+ "G
#SBATCH --cpus-per-gpu="
    +:+ pretty (cpus_per_gpu args)
    +:+ "
#SBATCH --exclude="
    +:+ String.concat "," node_blacklist
    +:+ "
#SBATCH --container-mounts=../../datasets/:/efs/,"
    +:+ current_working_dir
    +:+ ":/project
#SBATCH --container-image="
    +:+ docker_image_path
    +:+ "

bash "
    +:+ jobdir_path
    +:+ "/command.sh && echo 'done' > "
    +:+ jobdir_path
    +:+ "/job.done
" in
  perform (WriteFile sbatch_path sbatch_file_content).

Definition make_screen (args : Args) (jobdir_path : string) : method (list effect) unit :=
  let screen_path := path_join jobdir_path "screen.sh" in
  let screen_file_content := "#!/bin/bash
screen -L -Logfile "
    +:+ jobdir_path
    +:+ "/stdout.log -dmS "
    +:+ job_name args
    +:+ " bash "
    +:+ jobdir_path
    +:+ "/srun.sh
" in
  perform (WriteFile screen_path screen_file_content).

(** The name of the directory of a job: the number of the entries that
    [job_dir] holds, on six digits. *)
Definition jobdir_name (num_prior_jobs : nat) : string :=
  format_0d 6 (Z.of_nat num_prior_jobs).

(** [args.runtime_mins if args.runtime_hours is None else
    args.runtime_hours * 60] *)
Definition job_runtime_mins_of (args : Args) : Z :=
  match runtime_hours args with
  | None => runtime_mins args
  | Some hours => hours * 60
  end.

(** The list comprehension that selects the nodes to exclude. *)
Definition node_blacklist_of (blacklist_substring : string) (node_list : list string)
  : list string :=
  filter (λ node, is_substring blacklist_substring node = true) node_list.

(** The script, from the parsed arguments on. *)
Definition launch_job (args : Args) (env : Env) : method (list effect) unit :=
  let jobdir_path := path_join (job_dir args) (jobdir_name (num_prior_jobs env)) in
  perform (Mkdir jobdir_path) ;;
  let job_runtime_mins := job_runtime_mins_of args in
  node_blacklist ←
    match blacklist_substring args with
    | Some substring =>
        node_list ← load_available_nodes env;
        mret (node_blacklist_of substring node_list)
    | None => mret []
    end;
  make_command_file jobdir_path (command args) ;;
  (if use_srun args
   then make_srun args env jobdir_path job_runtime_mins node_blacklist ;;
        make_screen args jobdir_path
   else make_sbatch args env jobdir_path job_runtime_mins node_blacklist) ;;
  (if negb (dry_run args)
   then if use_srun args
        then run_cmd env ("bash " +:+ jobdir_path +:+ "/screen.sh") ;; mret tt
        else mret tt
   else mret tt).

(** The commands and the files of a list of effects. *)
Definition commands_run (log : list effect) : list string :=
  omap (λ e, match e with RunCmd cmd => Some cmd | _ => None end) log.

Definition files_written (log : list effect) : list string :=
  omap (λ e, match e with WriteFile path _ => Some path | _ => None end) log.

(** The two decimal digits of a number below 100. *)
Definition two_digits (n : Z) : string :=
  String (Ascii.ascii_of_nat (48 + Z.to_nat (n `div` 10)))
    (String (Ascii.ascii_of_nat (48 + Z.to_nat (n `mod` 10))) EmptyString).

(** The string without its leading zeros. *)
Fixpoint strip_zeros (s : string) : string :=
  match s with
  | EmptyString => EmptyString
  | String c s' => if Ascii.eqb c (Ascii.ascii_of_nat 48) then strip_zeros s' else s
  end.

(* ===================================================================== *)
(** * Totals over the cells of a class *)
(* ===================================================================== *)

Definition sum_Z (l : list Z) : Z := foldr Z.add 0 l.

(** The sum of [f] over the iterations of the three loops of
    [update_class_error]: the two proximity masks, the speed buckets and
    the error buckets. *)
Definition sum_over_loops (self : Metric) (f : nat → nat → nat → Z) : Z :=
  sum_Z ((λ c,
    sum_Z ((λ s,
      sum_Z ((λ e, f c s e) <$> seq 0 (length (epe_bucket_bounds self))))
      <$> seq 0 (length (speed_bucket_bounds self))))
    <$> seq 0 2).

(** The count that a cell of [per_class_bucketed_error_count] holds. *)
Definition count_at (self : Metric) (c k s e : nat) : Z :=
  default 0 (tensor4_get (per_class_bucketed_error_count self) (c, k, s, e)).

(** The points of a call whose ground-truth speed lies in some speed
    bucket and whose endpoint error lies in some error bucket. *)
Definition in_range_mask `{Reductions} (self : Metric) (regressed_flow gt_flow : Tensor) :
    list bool :=
  zip_with
    (λ v err, existsb (in_bucket v) (speed_bucket_bounds self) &&
              existsb (in_bucket err) (epe_bucket_bounds self))
    (gt_speeds_of (per_frame_to_per_second_scale_factor self) gt_flow)
    (endpoint_errors_of regressed_flow gt_flow).

(* ===================================================================== *)
(** * Facts on the numbers *)
(* ===================================================================== *)

(** ** Addition, and the sign of sums, squares and square roots *)

Module F32Facts.

Lemma f32_add_comm x y : F32.add x y = F32.add y x.
Proof.
  unfold F32.add.
  destruct x as [[]|[]| |sx mx ex], y as [[]|[]| |sy my ey]; try reflexivity.
  cbn [SFadd]. rewrite (Z.min_comm ey ex). f_equal. apply Z.add_comm.
Qed.

Lemma f32_add_zero_r x : x ≠ S754_zero true → F32.add x F32.zero = x.
Proof. destruct x as [[]|[]| |sx mx ex]; intros H; try reflexivity. congruence. Qed.

Lemma f32_add_zero_l x : x ≠ S754_zero true → F32.add F32.zero x = x.
Proof. rewrite f32_add_comm. apply f32_add_zero_r. Qed.

Lemma sign_clear_not_neg_zero x : F32.sign_clear x = true → x ≠ S754_zero true.
Proof. intros H ->. discriminate. Qed.

Lemma sign_clear_round_aux m e l :
  F32.sign_clear (binary_round_aux F32.prec F32.emax false m e l) = true.
Proof.
  unfold binary_round_aux.
  destruct (shr_fexp _ _ _ _ _) as [mrs' e'].
  destruct (shr_fexp _ _ _ _ _) as [mrs'' e''].
  destruct (shr_m mrs''); [reflexivity | | reflexivity].
  destruct (e'' <=? _); reflexivity.
Qed.

Lemma sign_clear_round m e :
  F32.sign_clear (binary_round F32.prec F32.emax false m e) = true.
Proof.
  unfold binary_round. destruct (shl_align _ _ _). apply sign_clear_round_aux.
Qed.

Lemma sign_clear_add x y :
  F32.sign_clear x = true → F32.sign_clear y = true → F32.sign_clear (F32.add x y) = true.
Proof.
  destruct x as [[]|[]| |[] mx ex], y as [[]|[]| |[] my ey]; try discriminate; try reflexivity.
  intros _ _. unfold F32.add. cbn [SFadd cond_Zopp].
  destruct (shl_align mx _ _) as [m1 e1], (shl_align my _ _) as [m2 e2]. cbn [fst].
  cbn [Z.add binary_normalize]. apply sign_clear_round.
Qed.

Lemma sign_clear_square x : F32.sign_clear (F32.mul x x) = true.
Proof.
  destruct x as [[]|[]| |[] mx ex]; try reflexivity; apply sign_clear_round_aux.
Qed.

Lemma sign_clear_sqrt x : F32.sign_clear x = true → F32.sign_clear (F32.sqrt x) = true.
Proof.
  destruct x as [[]|[]| |[] mx ex]; try discriminate; try reflexivity.
  intros _. unfold F32.sqrt. cbn [SFsqrt].
  destruct (SFsqrt_core_binary _ _ _ _) as [[mz ez] lz]. apply sign_clear_round_aux.
Qed.

Lemma sign_clear_zero : F32.sign_clear F32.zero = true.
Proof. reflexivity. Qed.

(** Division by a zero never gives a finite number. *)
Lemma div_zero x s :
  match F32.div x (S754_zero s) with
  | S754_nan | S754_infinity _ => True
  | _ => False
  end.
Proof. destruct x as [[]|[]| |[] mx ex]; exact I. Qed.

End F32Facts.

(** ** The comparisons of binary32 form a total preorder off the NaN *)

Module F32Order.

Lemma compare_cont_Eq m1 m2 : Pos.compare_cont Eq m1 m2 = (Z.pos m1 ?= Z.pos m2).
Proof. reflexivity. Qed.

Lemma ltb_key x y :
  F32.ltb x y = true ↔
  F32.is_nan x = false ∧ F32.is_nan y = false ∧ key_lt (order_key x) (order_key y).
Proof.
  unfold F32.ltb, SFltb, key_lt.
  destruct x as [[]|[]| |[] mx ex], y as [[]|[]| |[] my ey]; cbn;
    try (split; [intros; repeat split; (discriminate || lia || done) | intros (? & ? & ?); (discriminate || lia || done)]).
  - rewrite compare_cont_Eq.
    destruct (Z.compare_spec ex ey), (Z.compare_spec (Z.pos mx) (Z.pos my)); cbn;
      split; try (intros; repeat split; (discriminate || lia || done)); try (intros (? & ? & ?); (discriminate || lia || done)).
  - rewrite compare_cont_Eq.
    destruct (Z.compare_spec ex ey), (Z.compare_spec (Z.pos mx) (Z.pos my)); cbn;
      split; try (intros; repeat split; (discriminate || lia || done)); try (intros (? & ? & ?); (discriminate || lia || done)).
Qed.

Lemma leb_key x y :
  F32.leb x y = true ↔
  F32.is_nan x = false ∧ F32.is_nan y = false ∧ key_le (order_key x) (order_key y).
Proof.
  unfold F32.leb, SFleb, key_le.
  destruct x as [[]|[]| |[] mx ex], y as [[]|[]| |[] my ey]; cbn;
    try (split; [intros; repeat split; (discriminate || lia || done) | intros (? & ? & ?); (discriminate || lia || done)]).
  - rewrite compare_cont_Eq.
    destruct (Z.compare_spec ex ey), (Z.compare_spec (Z.pos mx) (Z.pos my)); cbn;
      split; try (intros; repeat split; (discriminate || lia || done)); try (intros (? & ? & ?); (discriminate || lia || done)).
  - rewrite compare_cont_Eq.
    destruct (Z.compare_spec ex ey), (Z.compare_spec (Z.pos mx) (Z.pos my)); cbn;
      split; try (intros; repeat split; (discriminate || lia || done)); try (intros (? & ? & ?); (discriminate || lia || done)).
Qed.

Lemma leb_trans x y z : F32.leb x y = true → F32.leb y z = true → F32.leb x z = true.
Proof.
  rewrite !leb_key. unfold key_le.
  destruct (order_key x) as [[??]?], (order_key y) as [[??]?], (order_key z) as [[??]?]; cbn.
  intros (? & ? & ?) (? & ? & ?). repeat split; try done. lia.
Qed.

Lemma ltb_leb_trans x y z : F32.ltb x y = true → F32.leb y z = true → F32.ltb x z = true.
Proof.
  rewrite !leb_key, !ltb_key. unfold key_le, key_lt.
  destruct (order_key x) as [[??]?], (order_key y) as [[??]?], (order_key z) as [[??]?]; cbn.
  intros (? & ? & ?) (? & ? & ?). repeat split; try done. lia.
Qed.

Lemma leb_ltb_trans x y z : F32.leb x y = true → F32.ltb y z = true → F32.ltb x z = true.
Proof.
  rewrite !leb_key, !ltb_key. unfold key_le, key_lt.
  destruct (order_key x) as [[??]?], (order_key y) as [[??]?], (order_key z) as [[??]?]; cbn.
  intros (? & ? & ?) (? & ? & ?). repeat split; try done. lia.
Qed.

Lemma ltb_irrefl x : F32.ltb x x = false.
Proof.
  destruct (F32.ltb x x) eqn:E; [|done]. apply ltb_key in E as (_ & _ & E).
  unfold key_lt in E. lia.
Qed.

Lemma ltb_leb x y : F32.ltb x y = true → F32.leb x y = true.
Proof. rewrite leb_key, ltb_key. unfold key_le, key_lt. intros (? & ? & ?). repeat split; try done. lia. Qed.

Lemma leb_refl x : F32.is_nan x = false → F32.leb x x = true.
Proof. intros H. apply leb_key. unfold key_le. repeat split; try done. lia. Qed.

Lemma leb_not_nan_l x y : F32.leb x y = true → F32.is_nan x = false.
Proof. rewrite leb_key. tauto. Qed.

Lemma leb_not_nan_r x y : F32.leb x y = true → F32.is_nan y = false.
Proof. rewrite leb_key. tauto. Qed.

Lemma ltb_not_nan_l x y : F32.ltb x y = true → F32.is_nan x = false.
Proof. rewrite ltb_key. tauto. Qed.

Lemma ltb_not_nan_r x y : F32.ltb x y = true → F32.is_nan y = false.
Proof. rewrite ltb_key. tauto. Qed.

End F32Order.

(** ** Facts on int64 addition *)

Module I64Facts.

Lemma wrap_in_range z : I64.in_range (I64.wrap z) = true.
Proof.
  unfold I64.in_range, I64.wrap, I64.min_int, I64.max_int.
  pose proof (Z.mod_pos_bound (z + 2 ^ 63) (2 ^ 64) ltac:(lia)).
  apply andb_true_iff. split; apply Z.leb_le; lia.
Qed.

Lemma wrap_id z : I64.in_range z = true → I64.wrap z = z.
Proof.
  unfold I64.in_range, I64.wrap, I64.min_int, I64.max_int.
  rewrite andb_true_iff, !Z.leb_le. intros [? ?].
  rewrite Z.mod_small; lia.
Qed.

Lemma wrap_wrap z : I64.wrap (I64.wrap z) = I64.wrap z.
Proof. apply wrap_id, wrap_in_range. Qed.

Lemma wrap_add_l x y : I64.wrap (I64.wrap x + y) = I64.wrap (x + y).
Proof.
  unfold I64.wrap. f_equal.
  replace (((x + 2 ^ 63) `mod` 2 ^ 64 - 2 ^ 63) + y + 2 ^ 63)
    with ((x + 2 ^ 63) `mod` 2 ^ 64 + y) by lia.
  rewrite Zplus_mod_idemp_l. f_equal. lia.
Qed.

Lemma wrap_add_r x y : I64.wrap (x + I64.wrap y) = I64.wrap (x + y).
Proof. rewrite Z.add_comm, wrap_add_l. f_equal. lia. Qed.

Lemma i64_add_in_range x y : I64.in_range (I64.add x y) = true.
Proof. apply wrap_in_range. Qed.

Lemma i64_add_comm x y : I64.add x y = I64.add y x.
Proof. unfold I64.add. f_equal. lia. Qed.

Lemma i64_add_assoc x y z : I64.add (I64.add x y) z = I64.add x (I64.add y z).
Proof. unfold I64.add. rewrite wrap_add_l, wrap_add_r. f_equal. lia. Qed.

Lemma i64_add_0_r x : I64.in_range x = true → I64.add x 0 = x.
Proof. intros H. unfold I64.add. rewrite Z.add_0_r. by apply wrap_id. Qed.

Lemma i64_add_0_l x : I64.in_range x = true → I64.add 0 x = x.
Proof. intros H. rewrite i64_add_comm. by apply i64_add_0_r. Qed.

(** Adding separately or at once. *)
Lemma i64_add_add x m n : I64.add (I64.add x m) n = I64.add x (m + n).
Proof. unfold I64.add. rewrite wrap_add_l. f_equal. lia. Qed.

End I64Facts.

(* ===================================================================== *)
(** * The reference kernel of the reductions *)
(* ===================================================================== *)

Lemma sequential_sum_single x : F32.sign_clear x = true → sequential_sum [x] = x.
Proof.
  intros H. apply F32Facts.f32_add_zero_l, F32Facts.sign_clear_not_neg_zero, H.
Qed.

Lemma sequential_sum_sign_clear l :
  Forall (λ x, F32.sign_clear x = true) l → F32.sign_clear (sequential_sum l) = true.
Proof.
  unfold sequential_sum. generalize F32.zero, F32Facts.sign_clear_zero.
  induction l as [|x l IH]; intros acc Hacc Hl; [done|].
  apply Forall_cons in Hl as [Hx Hl]. cbn. apply IH; [|done].
  by apply F32Facts.sign_clear_add.
Qed.

Lemma sequential_norm_p2_sign_clear row : F32.sign_clear (sequential_norm_p2 row) = true.
Proof.
  unfold sequential_norm_p2. apply F32Facts.sign_clear_sqrt, sequential_sum_sign_clear.
  apply Forall_fmap, Forall_forall. intros x _. apply F32Facts.sign_clear_square.
Qed.

(** Accumulation in index order is a kernel of the class: the laws hold
    of it. The closed examples below are computed with it. *)
#[global] Instance sequential : Reductions | 100 :=
  {| torch_sum := sequential_sum;
     norm_p2 := sequential_norm_p2;
     torch_sum_nil := eq_refl;
     torch_sum_single := sequential_sum_single;
     torch_sum_sign_clear := sequential_sum_sign_clear;
     norm_p2_sign_clear := sequential_norm_p2_sign_clear |}.

(* ===================================================================== *)
(** * Facts on four-dimensional tensors *)
(* ===================================================================== *)

Section tensor4.
Context {A : Type}.
Implicit Types (t : tensor4 A) (i j : idx4).

Lemma alter_imap {X Y} (g : nat → X → Y) (h : Y → Y) (l : list X) (n : nat) :
  alter h n (imap g l) = imap (λ m x, if decide (m = n) then h (g m x) else g m x) l.
Proof.
  revert g n. induction l as [|x l IH]; intros g n; [done|].
  destruct n as [|n]; cbn.
  - reflexivity.
  - f_equal. rewrite IH. apply imap_ext. intros m y _. cbn.
    destruct (decide (m = n)), (decide (S m = S n)); done || lia.
Qed.

Lemma tensor4_get_imap {B} (f : idx4 → A → B) t i :
  tensor4_get (tensor4_imap f t) i = f i <$> tensor4_get t i.
Proof.
  destruct i as [[[a b] c] d]. unfold tensor4_get, tensor4_imap.
  rewrite list_lookup_imap. destruct (t !! a) as [t1|]; [cbn|done].
  rewrite list_lookup_imap. destruct (t1 !! b) as [t2|]; [cbn|done].
  rewrite list_lookup_imap. destruct (t2 !! c) as [t3|]; [cbn|done].
  by rewrite list_lookup_imap.
Qed.

Lemma tensor4_imap_ext {B} (f g : idx4 → A → B) t :
  (∀ i x, tensor4_get t i = Some x → f i x = g i x) →
  tensor4_imap f t = tensor4_imap g t.
Proof.
  intros H. unfold tensor4_imap.
  apply imap_ext; intros a t1 Ha. apply imap_ext; intros b t2 Hb.
  apply imap_ext; intros c t3 Hc. apply imap_ext; intros d x Hd.
  apply H. unfold tensor4_get. rewrite Ha. cbn. rewrite Hb. cbn. by rewrite Hc.
Qed.

Lemma imap_id {X} (l : list X) : imap (λ _ x, x) l = l.
Proof. induction l as [|x l IH]; [done|]. rewrite imap_cons. f_equal. exact IH. Qed.

Lemma tensor4_imap_id t : tensor4_imap (λ _ x, x) t = t.
Proof.
  unfold tensor4_imap.
  rewrite <- (imap_id t) at 2. apply imap_ext; intros a t1 _.
  rewrite <- (imap_id t1) at 2. apply imap_ext; intros b t2 _.
  rewrite <- (imap_id t2) at 2. apply imap_ext; intros c t3 _.
  apply imap_id.
Qed.

Lemma tensor4_imap_imap {B C} (f : idx4 → A → B) (g : idx4 → B → C) t :
  tensor4_imap g (tensor4_imap f t) = tensor4_imap (λ i x, g i (f i x)) t.
Proof.
  unfold tensor4_imap.
  assert (Himap : ∀ X Y Z (f : nat → X → Y) (g : nat → Y → Z) (l : list X),
    imap g (imap f l) = imap (λ n x, g n (f n x)) l).
  { intros X Y Z f0 g0 l. revert f0 g0. induction l as [|x l IH]; intros f0 g0; [done|].
    rewrite !imap_cons. f_equal. rewrite IH. done. }
  rewrite Himap. apply imap_ext; intros a t1 _.
  rewrite Himap. apply imap_ext; intros b t2 _.
  rewrite Himap. apply imap_ext; intros c t3 _.
  by rewrite Himap.
Qed.

Lemma tensor4_alter_imap (f : idx4 → A → A) (h : A → A) t i :
  tensor4_alter h i (tensor4_imap f t) =
  tensor4_imap (λ j x, if decide (j = i) then h (f j x) else f j x) t.
Proof.
  destruct i as [[[a b] c] d]. unfold tensor4_alter, tensor4_imap.
  rewrite alter_imap. apply imap_ext; intros a' t1 _.
  destruct (decide (a' = a)) as [->|Ha].
  - rewrite alter_imap. apply imap_ext; intros b' t2 _.
    destruct (decide (b' = b)) as [->|Hb].
    + rewrite alter_imap. apply imap_ext; intros c' t3 _.
      destruct (decide (c' = c)) as [->|Hc].
      * rewrite alter_imap. apply imap_ext; intros d' x _.
        destruct (decide (d' = d)) as [->|Hd].
        -- by rewrite decide_True.
        -- rewrite decide_False; [done|congruence].
      * apply imap_ext; intros d' x _. rewrite decide_False; [done|congruence].
    + apply imap_ext; intros c' t3 _. apply imap_ext; intros d' x _.
      rewrite decide_False; [done|congruence].
  - apply imap_ext; intros b' t2 _. apply imap_ext; intros c' t3 _.
    apply imap_ext; intros d' x _. rewrite decide_False; [done|congruence].
Qed.

Lemma tensor4_map_imap {B} (f : A → B) t : tensor4_map f t = tensor4_imap (λ _, f) t.
Proof.
  unfold tensor4_map, tensor4_imap.
  rewrite <- imap_const. apply imap_ext; intros a t1 _. cbn.
  rewrite <- imap_const. apply imap_ext; intros b t2 _. cbn.
  rewrite <- imap_const. apply imap_ext; intros c t3 _. cbn.
  by rewrite <- imap_const.
Qed.

Lemma has_shape_get t n0 n1 n2 n3 i :
  has_shape t n0 n1 n2 n3 = true →
  is_Some (tensor4_get t i) ↔ in_shape i n0 n1 n2 n3.
Proof.
  destruct i as [[[a b] c] d]. unfold has_shape, in_shape, tensor4_get.
  rewrite andb_true_iff, Nat.eqb_eq. intros [H0 H].
  apply Is_true_true, forallb_True in H. rewrite Forall_lookup in H.
  destruct (t !! a) as [t1|] eqn:Ha; cbn.
  2:{ apply lookup_ge_None in Ha. split; [by intros [? ?]|lia]. }
  pose proof (lookup_lt_Some _ _ _ Ha) as Ha'.
  apply H in Ha. apply Is_true_true in Ha. rewrite andb_true_iff, Nat.eqb_eq in Ha.
  destruct Ha as [H1 H']. apply Is_true_true, forallb_True in H'. rewrite Forall_lookup in H'.
  destruct (t1 !! b) as [t2|] eqn:Hb; cbn.
  2:{ apply lookup_ge_None in Hb. split; [by intros [? ?]|lia]. }
  pose proof (lookup_lt_Some _ _ _ Hb) as Hb'.
  apply H' in Hb. apply Is_true_true in Hb. rewrite andb_true_iff, Nat.eqb_eq in Hb.
  destruct Hb as [H2 H'']. apply Is_true_true, forallb_True in H''. rewrite Forall_lookup in H''.
  destruct (t2 !! c) as [t3|] eqn:Hc; cbn.
  2:{ apply lookup_ge_None in Hc. split; [by intros [? ?]|lia]. }
  pose proof (lookup_lt_Some _ _ _ Hc) as Hc'.
  apply H'' in Hc. apply Is_true_true, Nat.eqb_eq in Hc.
  rewrite lookup_lt_is_Some. lia.
Qed.

End tensor4.

Section tensor4_more.
Context {A : Type}.
Implicit Types (t : tensor4 A).

Lemma tensor4_forallb_get (p : A → bool) t :
  tensor4_forallb p t = true ↔ ∀ i x, tensor4_get t i = Some x → p x = true.
Proof.
  unfold tensor4_forallb, tensor4_get. split.
  - intros H [[[a b] c] d] x Hx.
    apply Is_true_true, forallb_True in H. rewrite Forall_lookup in H.
    destruct (t !! a) as [t1|] eqn:Ha; [cbn in Hx|done].
    apply H, forallb_True in Ha. rewrite Forall_lookup in Ha.
    destruct (t1 !! b) as [t2|] eqn:Hb; [cbn in Hx|done].
    apply Ha, forallb_True in Hb. rewrite Forall_lookup in Hb.
    destruct (t2 !! c) as [t3|] eqn:Hc; [cbn in Hx|done].
    apply Hb, forallb_True in Hc. rewrite Forall_lookup in Hc.
    apply Is_true_true. by eapply Hc.
  - intros H.
    apply Is_true_true, forallb_True, Forall_lookup. intros a t1 Ha.
    apply forallb_True, Forall_lookup. intros b t2 Hb.
    apply forallb_True, Forall_lookup. intros c t3 Hc.
    apply forallb_True, Forall_lookup. intros d x Hd.
    apply Is_true_true, (H (a, b, c, d)). by rewrite Ha; cbn; rewrite Hb; cbn; rewrite Hc.
Qed.

End tensor4_more.

Section tensor4_shape.
Context {A : Type}.
Implicit Types (t : tensor4 A).

Lemma has_shape_imap {B} (f : idx4 → A → B) t n0 n1 n2 n3 :
  has_shape (tensor4_imap f t) n0 n1 n2 n3 = has_shape t n0 n1 n2 n3.
Proof.
  assert (Hforall : ∀ X Y (g : nat → X → Y) (p : Y → bool) (q : X → bool) (l : list X),
    (∀ n x, l !! n = Some x → p (g n x) = q x) → forallb p (imap g l) = forallb q l).
  { intros X Y g p q l. revert g. induction l as [|x l IH]; intros g Hg; [done|].
    rewrite imap_cons. cbn. rewrite (Hg 0%nat x eq_refl). f_equal.
    apply IH. intros n y Hn. apply (Hg (S n) y Hn). }
  unfold has_shape, tensor4_imap. rewrite length_imap. f_equal.
  apply Hforall. intros a t1 _. rewrite length_imap. f_equal.
  apply Hforall. intros b t2 _. rewrite length_imap. f_equal.
  apply Hforall. intros c t3 _. by rewrite length_imap.
Qed.

Lemma tensor4_forallb_imap {B} (f : idx4 → A → B) (p : B → bool) t :
  (∀ i x, tensor4_get t i = Some x → p (f i x) = true) →
  tensor4_forallb p (tensor4_imap f t) = true.
Proof.
  intros H. apply tensor4_forallb_get. intros i y.
  rewrite tensor4_get_imap. destruct (tensor4_get t i) as [x|] eqn:Hx; [|done].
  intros [= <-]. by apply H.
Qed.

Lemma has_shape_full (z : A) n0 n1 n2 n3 :
  has_shape (tensor4_full z n0 n1 n2 n3) n0 n1 n2 n3 = true.
Proof.
  unfold has_shape, tensor4_full.
  assert (Hrep : ∀ X (p : X → bool) (x : X) n, p x = true → forallb p (replicate n x) = true).
  { intros X p x n Hp. induction n as [|n IH]; [done|]. cbn. by rewrite Hp, IH. }
  rewrite length_replicate, Nat.eqb_refl. cbn.
  apply Hrep. rewrite length_replicate, Nat.eqb_refl. cbn.
  apply Hrep. rewrite length_replicate, Nat.eqb_refl. cbn.
  apply Hrep. by rewrite length_replicate, Nat.eqb_refl.
Qed.

Lemma tensor4_forallb_full (p : A → bool) (z : A) n0 n1 n2 n3 :
  p z = true → tensor4_forallb p (tensor4_full z n0 n1 n2 n3) = true.
Proof.
  intros Hp. unfold tensor4_forallb, tensor4_full.
  assert (Hrep : ∀ X (p : X → bool) (x : X) n, p x = true → forallb p (replicate n x) = true).
  { intros X q x n Hq. induction n as [|n IH]; [done|]. cbn. by rewrite Hq, IH. }
  by repeat apply Hrep.
Qed.

End tensor4_shape.

(* ===================================================================== *)
(** * The class table built by [__init__] *)
(* ===================================================================== *)

Section class_table.
Implicit Types (items : list (Z * string)) (m : gmap Z nat).

Let ins := (λ (m : gmap Z nat) '(cls_index, (cls_id, cls_name)),
              <[cls_id := cls_index]> m) : gmap Z nat → nat * (Z * string) → gmap Z nat.

Lemma class_fold_absent items m (j : nat) class_id :
  class_id ∉ items.*1 →
  foldl ins m (zip (seq j (length items)) items) !! class_id = m !! class_id.
Proof.
  revert m j. induction items as [|[id0 nm] items IH]; intros m j Hnot; [done|].
  cbn in *. apply not_elem_of_cons in Hnot as [Hne Hnot].
  rewrite IH by done. by rewrite lookup_insert_ne.
Qed.

Lemma class_fold_present items m (j i : nat) class_id name :
  NoDup items.*1 → items !! i = Some (class_id, name) →
  foldl ins m (zip (seq j (length items)) items) !! class_id = Some (j + i)%nat.
Proof.
  revert m j i. induction items as [|[id0 nm] items IH]; intros m j i Hnd Hi; [done|].
  cbn in *. apply NoDup_cons in Hnd as [Hnot Hnd].
  destruct i as [|i]; cbn in Hi.
  - injection Hi as -> ->. rewrite class_fold_absent by done.
    rewrite lookup_insert_eq. f_equal. lia.
  - rewrite (IH _ _ i) by done. f_equal. lia.
Qed.

Lemma class_fold_values items m (j : nat) class_id v :
  foldl ins m (zip (seq j (length items)) items) !! class_id = Some v →
  m !! class_id = Some v ∨ (j ≤ v < j + length items)%nat.
Proof.
  revert m j. induction items as [|[id0 nm] items IH]; intros m j H; [by left|].
  cbn in *. apply IH in H as [H|H]; [|right; lia].
  destruct (decide (id0 = class_id)) as [->|Hne].
  - rewrite lookup_insert_eq in H. injection H as <-. right. lia.
  - rewrite lookup_insert_ne in H by done. by left.
Qed.

Lemma class_fold_dom items m (j : nat) :
  dom (foldl ins m (zip (seq j (length items)) items)) = dom m ∪ list_to_set items.*1.
Proof.
  revert m j. induction items as [|[id0 nm] items IH]; intros m j; cbn.
  - set_solver.
  - rewrite IH, dom_insert_L. set_solver.
Qed.

Lemma build_class_id_to_index_map_absent items class_id :
  class_id ∉ items.*1 → build_class_id_to_index_map items !! class_id = None.
Proof. intros H. unfold build_class_id_to_index_map, enumerate. by rewrite class_fold_absent. Qed.

Lemma build_class_id_to_index_map_present items i class_id name :
  NoDup items.*1 → items !! i = Some (class_id, name) →
  build_class_id_to_index_map items !! class_id = Some i.
Proof.
  intros Hnd Hi. unfold build_class_id_to_index_map, enumerate.
  by rewrite (class_fold_present _ _ 0 i _ name).
Qed.

Lemma build_class_id_to_index_map_size items :
  NoDup items.*1 → size (build_class_id_to_index_map items) = length items.
Proof.
  intros Hnd. rewrite <- size_dom. unfold build_class_id_to_index_map, enumerate.
  rewrite class_fold_dom, dom_empty_L, (left_id_L ∅ (∪)).
  rewrite size_list_to_set by done. by rewrite length_fmap.
Qed.

Lemma build_class_id_to_index_map_bound items class_id v :
  build_class_id_to_index_map items !! class_id = Some v → (v < length items)%nat.
Proof.
  unfold build_class_id_to_index_map, enumerate. intros H.
  apply class_fold_values in H as [H|H]; [done|lia].
Qed.

End class_table.

(* ===================================================================== *)
(** * Running methods and loops *)
(* ===================================================================== *)

Lemma run_bind {St A B} (m : method St A) (f : A → method St B) s a s' :
  m s = (Return a, s') → (m ≫= f) s = f a s'.
Proof. intros H. unfold mbind, method_bind. by rewrite H. Qed.

(** A loop whose body takes the state [st n] to [st (S n)] at every index
    [n] takes [st 0] to [st (length l)]. *)
Lemma for_each_states_aux {St A} (st : nat → St) (l : list A) (j : nat)
    (body : nat * A → method St unit) :
  (∀ n x, l !! n = Some x → body ((j + n)%nat, x) (st (j + n)%nat) = (Return tt, st (S (j + n)))) →
  for_each (zip (seq j (length l)) l) body (st j) = (Return tt, st (j + length l)%nat).
Proof.
  revert j. induction l as [|x l IH]; intros j H.
  - cbn. by rewrite Nat.add_0_r.
  - cbn [length seq zip zip_with for_each].
    erewrite run_bind.
    2:{ specialize (H 0%nat x eq_refl). rewrite Nat.add_0_r in H. exact H. }
    rewrite IH.
    + f_equal. f_equal. lia.
    + intros n y Hn. specialize (H (S n) y Hn).
      replace (j + S n)%nat with (S j + n)%nat in H by lia. exact H.
Qed.

Lemma for_each_states {St A} (st : nat → St) (l : list A) (body : nat * A → method St unit) :
  (∀ n x, l !! n = Some x → body (n, x) (st n) = (Return tt, st (S n))) →
  for_each (enumerate l) body (st 0%nat) = (Return tt, st (length l)).
Proof. intros H. apply (for_each_states_aux st l 0). exact H. Qed.

(** Two loops over lists of one length, whose bodies agree at every index
    on the states of a set that the bodies preserve, run alike on the
    states of the set. *)
Lemma for_each_ext_aux {St A B} (I : St → Prop) (l : list A) (l' : list B) (j : nat)
    (body : nat * A → method St unit) (body' : nat * B → method St unit) :
  length l = length l' →
  (∀ n x x', l !! n = Some x → l' !! n = Some x' →
     ∀ s, I s → body ((j + n)%nat, x) s = body' ((j + n)%nat, x') s ∧
                I (body ((j + n)%nat, x) s).2) →
  ∀ s, I s →
    for_each (zip (seq j (length l)) l) body s
    = for_each (zip (seq j (length l')) l') body' s ∧
    I (for_each (zip (seq j (length l)) l) body s).2.
Proof.
  revert l' j. induction l as [|x l IH]; intros [|x' l'] j Hlen H s Hs; try done.
  cbn in Hlen. injection Hlen as Hlen.
  cbn [length seq zip zip_with for_each].
  destruct (H 0%nat x x' eq_refl eq_refl s Hs) as [Hbody Hinv].
  rewrite Nat.add_0_r in Hbody, Hinv.
  unfold mbind, method_bind. rewrite <- Hbody.
  destruct (body (j, x) s) as [[[]|e] s1]; [|done]. cbn [snd] in Hinv.
  apply IH; [done| |done]. intros n y y' Hy Hy' s' Hs'.
  specialize (H (S n) y y' Hy Hy' s' Hs').
  by replace (j + S n)%nat with (S j + n)%nat in H by lia.
Qed.

Lemma for_each_ext {St A B} (I : St → Prop) (l : list A) (l' : list B)
    (body : nat * A → method St unit) (body' : nat * B → method St unit) :
  length l = length l' →
  (∀ n x x', l !! n = Some x → l' !! n = Some x' →
     ∀ s, I s → body (n, x) s = body' (n, x') s ∧ I (body (n, x) s).2) →
  ∀ s, I s →
    for_each (enumerate l) body s = for_each (enumerate l') body' s ∧
    I (for_each (enumerate l) body s).2.
Proof. intros Hlen H. by apply (for_each_ext_aux I l l' 0). Qed.

Lemma gets_bind {St A B} (f : St → A) (k : A → method St B) s :
  (gets f ≫= k) s = k (f s) s.
Proof. reflexivity. Qed.

(* ===================================================================== *)
(** * The loops of [update_class_error] in closed form *)
(* ===================================================================== *)

Lemma accumulated_none class_index fs fc (self : Metric) :
  accumulated (λ _ _ _, false) class_index fs fc self = self.
Proof.
  unfold accumulated, set_error_sum, set_error_count.
  destruct self as [? ? ? ? es ec ? ? ? ?]; cbn. f_equal.
  - rewrite <- (tensor4_imap_id es) at 2.
    apply tensor4_imap_ext. intros [[[c k] s] e] x _. by rewrite andb_false_r.
  - rewrite <- (tensor4_imap_id ec) at 2.
    apply tensor4_imap_ext. intros [[[c k] s] e] x _. by rewrite andb_false_r.
Qed.

Section closed_form.
Context (self0 : Metric) (class_index : nat).
Context (fs : nat → nat → nat → float32) (fc : nat → nat → nat → Z).
Context (n_class n_speed n_epe : nat).
Hypothesis Hsum : has_shape (per_class_bucketed_error_sum self0) 2 n_class n_speed n_epe = true.
Hypothesis Hcount : has_shape (per_class_bucketed_error_count self0) 2 n_class n_speed n_epe = true.
Hypothesis Hclass : (class_index < n_class)%nat.

Lemma accumulated_ext done done' :
  (∀ c s e, (c < 2)%nat → (s < n_speed)%nat → (e < n_epe)%nat → done c s e = done' c s e) →
  accumulated done class_index fs fc self0 = accumulated done' class_index fs fc self0.
Proof.
  intros H. unfold accumulated, set_error_sum, set_error_count. cbn. f_equal.
  - apply tensor4_imap_ext. intros [[[c k] s] e] x Hx.
    assert (in_shape (c, k, s, e) 2 n_class n_speed n_epe) as (? & ? & ? & ?).
    { eapply has_shape_get; [exact Hsum|eauto]. }
    by rewrite H.
  - apply tensor4_imap_ext. intros [[[c k] s] e] x Hx.
    assert (in_shape (c, k, s, e) 2 n_class n_speed n_epe) as (? & ? & ? & ?).
    { eapply has_shape_get; [exact Hcount|eauto]. }
    by rewrite H.
Qed.

Lemma accumulated_step done done' c s e :
  (c < 2)%nat → (s < n_speed)%nat → (e < n_epe)%nat →
  done c s e = false →
  (∀ c' s' e', done' c' s' e' =
     done c' s' e' || ((c' =? c)%nat && (s' =? s)%nat && (e' =? e)%nat)) →
  (iadd_error_sum (c, class_index, s, e) (fs c s e) ;;
   iadd_error_count (c, class_index, s, e) (fc c s e))
    (accumulated done class_index fs fc self0)
  = (Return tt, accumulated done' class_index fs fc self0).
Proof.
  intros Hc Hs He Hd Hd'.
  assert (is_Some (tensor4_get (per_class_bucketed_error_sum self0) (c, class_index, s, e)))
    as [x Hx] by (eapply has_shape_get; [exact Hsum|done]).
  assert (is_Some (tensor4_get (per_class_bucketed_error_count self0) (c, class_index, s, e)))
    as [y Hy] by (eapply has_shape_get; [exact Hcount|done]).
  erewrite run_bind; cycle 1.
  { unfold iadd_error_sum. cbn. rewrite tensor4_get_imap, Hx. cbn. reflexivity. }
  unfold iadd_error_count. cbn. rewrite tensor4_get_imap, Hy. cbn.
  unfold accumulated, set_error_sum, set_error_count. cbn. f_equal. f_equal.
  - rewrite tensor4_alter_imap. apply tensor4_imap_ext. intros [[[c' k'] s'] e'] z _.
    rewrite Hd'. case_decide as Hne.
    + injection Hne as -> -> -> ->.
      rewrite Hd, bool_decide_true, !Nat.eqb_refl by done. done.
    + destruct (bool_decide (k' = class_index)) eqn:Hk; cbn; [|done].
      apply bool_decide_eq_true in Hk as ->.
      destruct (Nat.eqb_spec c' c), (Nat.eqb_spec s' s), (Nat.eqb_spec e' e);
        subst; try congruence; by rewrite ?orb_false_r.
  - rewrite tensor4_alter_imap. apply tensor4_imap_ext. intros [[[c' k'] s'] e'] z _.
    rewrite Hd'. case_decide as Hne.
    + injection Hne as -> -> -> ->.
      rewrite Hd, bool_decide_true, !Nat.eqb_refl by done. done.
    + destruct (bool_decide (k' = class_index)) eqn:Hk; cbn; [|done].
      apply bool_decide_eq_true in Hk as ->.
      destruct (Nat.eqb_spec c' c), (Nat.eqb_spec s' s), (Nat.eqb_spec e' e);
        subst; try congruence; by rewrite ?orb_false_r.
Qed.

End closed_form.

Lemma before_spec c s e c' s' e' :
  before c s e c' s' e' = true ↔
  (c' < c ∨ (c' = c ∧ (s' < s ∨ (s' = s ∧ e' < e))))%nat.
Proof.
  unfold before.
  rewrite !orb_true_iff, !andb_true_iff, !orb_true_iff, !andb_true_iff,
    !Nat.ltb_lt, !Nat.eqb_eq. tauto.
Qed.

Lemma bool_eq_iff (a b : bool) : (a = true ↔ b = true) → a = b.
Proof. destruct a, b; intros [H1 H2]; try done; [symmetry; by apply H1|by apply H2]. Qed.
Lemma wf_unfold self :
  wf self = true →
  let n_class := size (class_id_to_index_map self) in
  let n_speed := length (speed_bucket_bounds self) in
  let n_epe := length (epe_bucket_bounds self) in
  has_shape (per_class_bucketed_error_sum self) 2 n_class n_speed n_epe = true ∧
  has_shape (per_class_bucketed_error_count self) 2 n_class n_speed n_epe = true ∧
  map_Forall (λ _ class_index, (class_index < n_class)%nat) (class_id_to_index_map self) ∧
  tensor4_forallb F32.sign_clear (per_class_bucketed_error_sum self) = true ∧
  tensor4_forallb I64.in_range (per_class_bucketed_error_count self) = true.
Proof.
  unfold wf. rewrite !andb_true_iff, bool_decide_eq_true. tauto.
Qed.

Lemma wf_intro self :
  has_shape (per_class_bucketed_error_sum self) 2 (size (class_id_to_index_map self))
    (length (speed_bucket_bounds self)) (length (epe_bucket_bounds self)) = true →
  has_shape (per_class_bucketed_error_count self) 2 (size (class_id_to_index_map self))
    (length (speed_bucket_bounds self)) (length (epe_bucket_bounds self)) = true →
  map_Forall (λ _ class_index, (class_index < size (class_id_to_index_map self))%nat)
    (class_id_to_index_map self) →
  tensor4_forallb F32.sign_clear (per_class_bucketed_error_sum self) = true →
  tensor4_forallb I64.in_range (per_class_bucketed_error_count self) = true →
  wf self = true.
Proof.
  intros H1 H2 H3 H4 H5. unfold wf. cbn zeta.
  by rewrite H1, H2, H4, H5, bool_decide_true.
Qed.

(** Projections of an updated metric reduce to those of the original. *)
Ltac metric_simpl :=
  unfold speed_bucket_bounds, epe_bucket_bounds, accumulated,
    set_error_sum, set_error_count, set_forward_time, set_forward_count in *;
  cbn [class_index_to_name_map class_id_to_index_map
       speed_bucket_splits_meters_per_second endpoint_error_splits_meters
       per_class_bucketed_error_sum per_class_bucketed_error_count
       close_object_threshold_meters per_frame_to_per_second_scale_factor
       total_forward_time total_forward_count] in *.

Lemma shape_check_unfold pc regressed_flow gt_flow :
  shape_check pc regressed_flow gt_flow = true ↔
  shape regressed_flow = shape gt_flow ∧
  length (rows regressed_flow) = length (rows pc) ∧ ncols pc = 3%nat.
Proof.
  unfold shape_check, shape_eqb, shape. cbn.
  rewrite !andb_true_iff, !Nat.eqb_eq. split.
  - intros [[[-> ->] ?] ?]. done.
  - intros ([= -> ->] & ? & ?). done.
Qed.

Section update_run.
Context {R : Reductions}.
Context (self : Metric) (pc regressed_flow gt_flow : Tensor) (class_id : Z) (class_index : nat).
Hypothesis Hwf : wf self = true.
Hypothesis Hk : class_id_to_index_map self !! class_id = Some class_index.

Let fs := cell_error_sum self pc regressed_flow gt_flow.
Let fc := cell_error_count self pc regressed_flow gt_flow.
Let acc done := accumulated done class_index fs fc self.

Lemma acc_ext done done' :
  (∀ c s e, (c < 2)%nat → (s < length (speed_bucket_bounds self))%nat →
            (e < length (epe_bucket_bounds self))%nat → done c s e = done' c s e) →
  acc done = acc done'.
Proof.
  destruct (wf_unfold _ Hwf) as (Hs & Hc & Hm & _).
  intros H. eapply accumulated_ext; eauto.
Qed.

Lemma class_index_lt : (class_index < size (class_id_to_index_map self))%nat.
Proof.
  destruct (wf_unfold _ Hwf) as (Hs & Hc & Hm & _). by apply (Hm _ _ Hk).
Qed.

Lemma epe_loop c s close_mask speed_bound :
  (c < 2)%nat →
  [is_close_mask_of (close_object_threshold_meters self) pc;
   mask_not (is_close_mask_of (close_object_threshold_meters self) pc)] !! c = Some close_mask →
  speed_bucket_bounds self !! s = Some speed_bound →
  for_each (enumerate (epe_bucket_bounds self))
    (λ '(epe_idx, epe_bound),
      let endpoint_error_mask :=
        bucket_mask (endpoint_errors_of regressed_flow gt_flow) epe_bound in
      let total_mask :=
        mask_and (mask_and close_mask
          (bucket_mask (gt_speeds_of (per_frame_to_per_second_scale_factor self) gt_flow)
                       speed_bound)) endpoint_error_mask in
      iadd_error_sum (c, class_index, s, epe_idx)
        (torch_sum (masked_select (endpoint_errors_of regressed_flow gt_flow) total_mask)) ;;
      iadd_error_count (c, class_index, s, epe_idx) (torch_sum_mask total_mask))
    (acc (before c s 0))
  = (Return tt, acc (before c (S s) 0)).
Proof.
  intros Hc Hcm Hsb.
  destruct (wf_unfold _ Hwf) as (Hs & Hcnt & Hm & _).
  pose proof class_index_lt as Hlt.
  rewrite (for_each_states (λ n, acc (before c s n))).
  - f_equal. apply acc_ext. intros c' s' e' ? ? ?. apply bool_eq_iff.
    rewrite !before_spec. lia.
  - intros n epe_bound Hn. cbn beta iota zeta.
    replace (torch_sum _) with (fs c s n); cycle 1.
    { unfold fs, cell_error_sum, total_mask_at.
      by rewrite (list_lookup_total_correct _ _ _ Hcm), (list_lookup_total_correct _ _ _ Hsb),
        (list_lookup_total_correct _ _ _ Hn). }
    replace (torch_sum_mask _) with (fc c s n); cycle 1.
    { unfold fc, cell_error_count, total_mask_at.
      by rewrite (list_lookup_total_correct _ _ _ Hcm), (list_lookup_total_correct _ _ _ Hsb),
        (list_lookup_total_correct _ _ _ Hn). }
    eapply accumulated_step; eauto.
    + by eapply lookup_lt_Some.
    + by eapply lookup_lt_Some.
    + apply not_true_is_false. rewrite before_spec. lia.
    + intros c' s' e'. apply bool_eq_iff.
      rewrite orb_true_iff, !andb_true_iff, !before_spec, !Nat.eqb_eq. lia.
Qed.

Lemma speed_loop c close_mask :
  (c < 2)%nat →
  [is_close_mask_of (close_object_threshold_meters self) pc;
   mask_not (is_close_mask_of (close_object_threshold_meters self) pc)] !! c = Some close_mask →
  for_each (enumerate (speed_bucket_bounds self))
    (λ '(speed_idx, speed_bound),
      let speed_mask :=
        bucket_mask (gt_speeds_of (per_frame_to_per_second_scale_factor self) gt_flow)
                    speed_bound in
      epe_bounds ← gets epe_bucket_bounds;
      for_each (enumerate epe_bounds)
        (λ '(epe_idx, epe_bound),
          let endpoint_error_mask :=
            bucket_mask (endpoint_errors_of regressed_flow gt_flow) epe_bound in
          let total_mask :=
            mask_and (mask_and close_mask speed_mask) endpoint_error_mask in
          iadd_error_sum (c, class_index, speed_idx, epe_idx)
            (torch_sum (masked_select (endpoint_errors_of regressed_flow gt_flow) total_mask)) ;;
          iadd_error_count (c, class_index, speed_idx, epe_idx) (torch_sum_mask total_mask)))
    (acc (before c 0 0))
  = (Return tt, acc (before (S c) 0 0)).
Proof.
  intros Hc Hcm.
  rewrite (for_each_states (λ n, acc (before c n 0))).
  - f_equal. apply acc_ext. intros c' s' e' ? ? ?. apply bool_eq_iff.
    rewrite !before_spec. lia.
  - intros n speed_bound Hn. cbn beta iota zeta.
    erewrite run_bind by reflexivity.
    by apply epe_loop.
Qed.

Lemma update_class_error_run :
  shape_check pc regressed_flow gt_flow = true →
  update_class_error pc class_id regressed_flow gt_flow self
  = (Return tt, acc (λ _ _ _, true)).
Proof.
  intros Hshape. unfold shape_check in Hshape.
  apply andb_true_iff in Hshape as [Hshape H3].
  apply andb_true_iff in Hshape as [H1 H2].
  unfold update_class_error. rewrite H1, H2, H3.
  erewrite run_bind by reflexivity.
  erewrite run_bind by reflexivity.
  erewrite run_bind by reflexivity.
  erewrite run_bind by reflexivity.
  erewrite run_bind by (unfold lookup_class_index; rewrite Hk; reflexivity).
  erewrite run_bind by reflexivity.
  assert (acc (before 0 0 0) = self) as Hself.
  { unfold acc. destruct (wf_unfold _ Hwf) as (Hs & Hc & _).
    rewrite <- (accumulated_none class_index fs fc self) at 2.
    apply (accumulated_ext self class_index fs fc _ _ _ Hs Hc).
    intros c' s' e' _ _ _. apply not_true_is_false. rewrite before_spec. lia. }
  match goal with |- ?m self = _ => enough (m (acc (before 0 0 0)) = (Return tt, acc (λ _ _ _, true))) as Hloop end.
  { by rewrite Hself in Hloop. }
  rewrite (for_each_states (λ n, acc (before n 0 0))).
  - cbn [length]. apply f_equal. apply acc_ext. intros c' s' e' ? ? ?.
    apply before_spec. lia.
  - intros n close_mask Hn. cbn beta iota zeta.
    erewrite run_bind by reflexivity.
    apply speed_loop; [|done].
    apply lookup_lt_Some in Hn. cbn in Hn. lia.
Qed.

End update_run.

(* ===================================================================== *)
(** * The invariant of the metric *)
(* ===================================================================== *)

Section metric_invariant.
Context {R : Reductions}.

Lemma endpoint_errors_sign_clear regressed_flow gt_flow :
  Forall (λ x, F32.sign_clear x = true) (endpoint_errors_of regressed_flow gt_flow).
Proof.
  unfold endpoint_errors_of, torch_norm_p2.
  apply Forall_fmap, Forall_forall. intros row _. apply norm_p2_sign_clear.
Qed.

Lemma masked_select_Forall {A} (P : A → Prop) values mask :
  Forall P values → Forall P (masked_select values mask).
Proof.
  intros H. revert mask. induction H as [|v values Hv H IH]; intros [|[] mask]; cbn; auto.
Qed.

Lemma cell_error_sum_sign_clear self pc regressed_flow gt_flow c s e :
  F32.sign_clear (cell_error_sum self pc regressed_flow gt_flow c s e) = true.
Proof.
  unfold cell_error_sum. apply torch_sum_sign_clear, masked_select_Forall.
  apply endpoint_errors_sign_clear.
Qed.

Lemma wf_accumulated done class_index fs fc self :
  (∀ c s e, F32.sign_clear (fs c s e) = true) →
  wf self = true → wf (accumulated done class_index fs fc self) = true.
Proof.
  intros Hfs Hwf. destruct (wf_unfold _ Hwf) as (Hs & Hc & Hm & Hsc & Hr).
  apply wf_intro; metric_simpl.
  - by rewrite has_shape_imap.
  - by rewrite has_shape_imap.
  - done.
  - apply tensor4_forallb_imap. intros [[[c k] s] e] x Hx.
    pose proof (proj1 (tensor4_forallb_get _ _) Hsc _ _ Hx) as Hxs.
    destruct (_ && _); [|done]. by apply F32Facts.sign_clear_add.
  - apply tensor4_forallb_imap. intros [[[c k] s] e] x Hx.
    pose proof (proj1 (tensor4_forallb_get _ _) Hr _ _ Hx) as Hxs.
    destruct (_ && _); [|done]. apply I64Facts.i64_add_in_range.
Qed.

Lemma same_outside_accumulated done class_index fs fc self :
  same_outside_accumulators self (accumulated done class_index fs fc self).
Proof. by repeat split. Qed.

(** The constructor establishes the invariant. *)
Lemma wf_init items speed_splits epe_splits threshold scale :
  NoDup items.*1 → wf (init items speed_splits epe_splits threshold scale) = true.
Proof.
  intros Hnd. apply wf_intro; unfold init; metric_simpl;
    rewrite ?build_class_id_to_index_map_size by done.
  - apply has_shape_full.
  - apply has_shape_full.
  - intros class_id v Hv. by eapply build_class_id_to_index_map_bound.
  - by apply tensor4_forallb_full.
  - by apply tensor4_forallb_full.
Qed.

Lemma run_reset self :
  run reset self =
  (Return tt,
   set_forward_count (λ _, 0)
     (set_forward_time (λ _, F32.zero)
       (set_error_count (tensor4_zero 0)
         (set_error_sum (tensor4_zero F32.zero) self)))).
Proof. reflexivity. Qed.

Lemma wf_reset self : wf self = true → wf (run reset self).2 = true.
Proof.
  intros Hwf. destruct (wf_unfold _ Hwf) as (Hs & Hc & Hm & Hsc & Hr).
  rewrite run_reset. apply wf_intro; cbn [snd]; metric_simpl;
    unfold tensor4_zero; rewrite ?tensor4_map_imap, ?has_shape_imap; try done.
  - by apply tensor4_forallb_imap.
  - by apply tensor4_forallb_imap.
Qed.

Lemma wf_update_runtime run_time run_count self :
  wf self = true → wf (run (update_runtime run_time run_count) self).2 = true.
Proof. intros Hwf. exact Hwf. Qed.

End metric_invariant.

(* ===================================================================== *)
(** * What a call of [update_class_error] does *)
(* ===================================================================== *)

Section update_class_error_outcomes.
Context {R : Reductions}.

(** A failed assertion leaves the metric as it was. *)
Lemma update_class_error_shape_mismatch self pc class_id regressed_flow gt_flow :
  shape_check pc regressed_flow gt_flow = false →
  run (update_class_error pc class_id regressed_flow gt_flow) self
  = (Raise (AssertionError "Shapes do not match"), self).
Proof.
  unfold shape_check, run, update_class_error. intros H.
  destruct (shape_eqb _ _); [|done].
  destruct (Nat.eqb (shape regressed_flow).1 _); [|done].
  destruct (Nat.eqb (shape pc).2 3); [discriminate|done].
Qed.

(** A class id that is not a key of the table raises [KeyError]; nothing
    has been written by then. *)
Lemma update_class_error_unknown_class self pc class_id regressed_flow gt_flow :
  shape_check pc regressed_flow gt_flow = true →
  class_id_to_index_map self !! class_id = None →
  run (update_class_error pc class_id regressed_flow gt_flow) self
  = (Raise (KeyError class_id), self).
Proof.
  intros Hshape Hk. unfold shape_check in Hshape.
  apply andb_true_iff in Hshape as [Hshape H3].
  apply andb_true_iff in Hshape as [H1 H2].
  unfold run, update_class_error. rewrite H1, H2, H3.
  do 4 (erewrite run_bind by reflexivity).
  unfold mbind, method_bind, lookup_class_index. by rewrite Hk.
Qed.

(** The closed form of a successful call. *)
Lemma update_class_error_ok self pc class_id regressed_flow gt_flow class_index :
  wf self = true →
  shape_check pc regressed_flow gt_flow = true →
  class_id_to_index_map self !! class_id = Some class_index →
  run (update_class_error pc class_id regressed_flow gt_flow) self
  = (Return tt,
     accumulated (λ _ _ _, true) class_index
       (cell_error_sum self pc regressed_flow gt_flow)
       (cell_error_count self pc regressed_flow gt_flow) self).
Proof. intros. by apply update_class_error_run. Qed.

Lemma accumulated_error_sum_get class_index fs fc self c k s e :
  tensor4_get (per_class_bucketed_error_sum
                 (accumulated (λ _ _ _, true) class_index fs fc self)) (c, k, s, e)
  = (λ x, if decide (k = class_index) then F32.add x (fs c s e) else x)
      <$> tensor4_get (per_class_bucketed_error_sum self) (c, k, s, e).
Proof.
  metric_simpl. rewrite tensor4_get_imap.
  destruct (tensor4_get _ _) as [x|]; [cbn|done]. rewrite andb_true_r.
  by destruct (decide (k = class_index)); [rewrite bool_decide_true|rewrite bool_decide_false].
Qed.

Lemma accumulated_error_count_get class_index fs fc self c k s e :
  tensor4_get (per_class_bucketed_error_count
                 (accumulated (λ _ _ _, true) class_index fs fc self)) (c, k, s, e)
  = (λ x, if decide (k = class_index) then I64.add x (fc c s e) else x)
      <$> tensor4_get (per_class_bucketed_error_count self) (c, k, s, e).
Proof.
  metric_simpl. rewrite tensor4_get_imap.
  destruct (tensor4_get _ _) as [x|]; [cbn|done]. rewrite andb_true_r.
  by destruct (decide (k = class_index)); [rewrite bool_decide_true|rewrite bool_decide_false].
Qed.

(** Contributions that are zero leave the metric as it is. *)
Lemma accumulated_zero class_index fs fc self :
  wf self = true →
  (∀ c s e, (c < 2)%nat → (s < length (speed_bucket_bounds self))%nat →
            (e < length (epe_bucket_bounds self))%nat →
            fs c s e = F32.zero ∧ fc c s e = 0) →
  accumulated (λ _ _ _, true) class_index fs fc self = self.
Proof.
  intros Hwf H. destruct (wf_unfold _ Hwf) as (Hs & Hc & Hm & Hsc & Hr).
  rewrite <- (accumulated_none class_index fs fc self) at 2.
  unfold accumulated, set_error_sum, set_error_count. cbn. f_equal.
  - apply tensor4_imap_ext. intros [[[c k] s] e] x Hx. rewrite andb_false_r.
    assert (in_shape (c, k, s, e) 2 (size (class_id_to_index_map self))
      (length (speed_bucket_bounds self)) (length (epe_bucket_bounds self))) as (? & ? & ? & ?).
    { eapply has_shape_get; [exact Hs|eauto]. }
    destruct (_ && _); [|done]. destruct (H c s e) as [-> _]; try done.
    apply F32Facts.f32_add_zero_r, F32Facts.sign_clear_not_neg_zero.
    by eapply (proj1 (tensor4_forallb_get _ _) Hsc).
  - apply tensor4_imap_ext. intros [[[c k] s] e] x Hx. rewrite andb_false_r.
    assert (in_shape (c, k, s, e) 2 (size (class_id_to_index_map self))
      (length (speed_bucket_bounds self)) (length (epe_bucket_bounds self))) as (? & ? & ? & ?).
    { eapply has_shape_get; [exact Hc|eauto]. }
    destruct (_ && _); [|done]. destruct (H c s e) as [_ ->]; try done.
    apply I64Facts.i64_add_0_r. by eapply (proj1 (tensor4_forallb_get _ _) Hr).
Qed.

(** The accumulated metric depends on the contributions of the cells of
    the accumulators only. *)
Lemma accumulated_contrib_ext class_index fs fc fs' fc' self :
  wf self = true →
  (∀ c s e, (c < 2)%nat → (s < length (speed_bucket_bounds self))%nat →
            (e < length (epe_bucket_bounds self))%nat →
            fs c s e = fs' c s e ∧ fc c s e = fc' c s e) →
  accumulated (λ _ _ _, true) class_index fs fc self
  = accumulated (λ _ _ _, true) class_index fs' fc' self.
Proof.
  intros Hwf H. destruct (wf_unfold _ Hwf) as (Hs & Hc & Hm & Hsc & Hr).
  unfold accumulated, set_error_sum, set_error_count. cbn. f_equal.
  - apply tensor4_imap_ext. intros [[[c k] s] e] x Hx.
    assert (in_shape (c, k, s, e) 2 (size (class_id_to_index_map self))
      (length (speed_bucket_bounds self)) (length (epe_bucket_bounds self))) as (? & ? & ? & ?).
    { eapply has_shape_get; [exact Hs|eauto]. }
    by destruct (H c s e) as [-> _].
  - apply tensor4_imap_ext. intros [[[c k] s] e] x Hx.
    assert (in_shape (c, k, s, e) 2 (size (class_id_to_index_map self))
      (length (speed_bucket_bounds self)) (length (epe_bucket_bounds self))) as (? & ? & ? & ?).
    { eapply has_shape_get; [exact Hc|eauto]. }
    by destruct (H c s e) as [_ ->].
Qed.

(** Every metric that a program can hold satisfies the invariant. *)
Lemma reachable_wf self : reachable self → wf self = true.
Proof.
  induction 1 as [items ss es thr sc Hnd|self pc class_id rf gf _ IH
                 |self rt rc _ IH|self fn _ IH|self _ IH].
  - by apply wf_init.
  - destruct (shape_check pc rf gf) eqn:Hshape.
    + destruct (class_id_to_index_map self !! class_id) as [class_index|] eqn:Hk.
      * rewrite (update_class_error_ok _ _ _ _ _ class_index) by done.
        apply wf_accumulated; [|done]. intros. apply cell_error_sum_sign_clear.
      * by rewrite update_class_error_unknown_class.
    + by rewrite update_class_error_shape_mismatch.
  - by apply wf_update_runtime.
  - exact IH.
  - by apply wf_reset.
Qed.

End update_class_error_outcomes.

(* ===================================================================== *)
(** * Buckets *)
(* ===================================================================== *)

Lemma bucket_bounds_length splits :
  length (bucket_bounds splits) = (length splits - 1)%nat.
Proof.
  unfold bucket_bounds. rewrite length_zip_with, length_drop. lia.
Qed.

Lemma bucket_bounds_lookup splits i lo hi :
  bucket_bounds splits !! i = Some (lo, hi) ↔
  splits !! i = Some lo ∧ splits !! S i = Some hi.
Proof.
  unfold bucket_bounds. rewrite lookup_zip_with_Some. setoid_rewrite lookup_drop. split.
  - intros (x & y & [= -> ->] & ? & ?). done.
  - intros [? ?]. by exists lo, hi.
Qed.

Lemma sorted_adjacent splits i lo hi :
  sorted splits = true →
  splits !! i = Some lo → splits !! S i = Some hi → F32.leb lo hi = true.
Proof.
  unfold sorted. intros H Hlo Hhi.
  apply Is_true_true, forallb_True in H. rewrite Forall_lookup in H.
  apply Is_true_true, (H i (lo, hi)). by apply bucket_bounds_lookup.
Qed.

Lemma sorted_le splits i j a b :
  sorted splits = true → (i < j)%nat →
  splits !! i = Some a → splits !! j = Some b → F32.leb a b = true.
Proof.
  intros Hinc Hij Ha. revert b. induction Hij as [|j Hij IH]; intros b Hb.
  - by eapply sorted_adjacent.
  - destruct (lookup_lt_is_Some_2 splits j) as [m Hm].
    { apply lookup_lt_Some in Hb. lia. }
    eapply F32Order.leb_trans; [by apply IH|]. by eapply sorted_adjacent.
Qed.

Lemma in_bucket_unfold v b :
  in_bucket v b = true ↔ F32.leb b.1 v = true ∧ F32.ltb v b.2 = true.
Proof. unfold in_bucket, F32.geb. by rewrite andb_true_iff. Qed.

(** A value lies in at most one bucket of a sorted list. *)
Lemma in_bucket_unique splits v i j b b' :
  sorted splits = true →
  bucket_bounds splits !! i = Some b → bucket_bounds splits !! j = Some b' →
  in_bucket v b = true → in_bucket v b' = true → i = j.
Proof.
  intros Hinc Hb Hb'. destruct b as [lo hi], b' as [lo' hi'].
  apply bucket_bounds_lookup in Hb as [Hlo Hhi].
  apply bucket_bounds_lookup in Hb' as [Hlo' Hhi'].
  rewrite !in_bucket_unfold. cbn. intros [H1 H2] [H3 H4].
  assert (∀ (i j : nat) (hi lo' : float32), (i < j)%nat →
    splits !! S i = Some hi → splits !! j = Some lo' →
    F32.leb lo' v = true → F32.ltb v hi = true → False) as Hcontra.
  { clear -Hinc. intros i j hi lo' Hij Hhi Hlo' Hle Hlt.
    assert (F32.leb hi lo' = true) as Hle'.
    { destruct (decide (S i = j)) as [<-|Hne].
      - replace lo' with hi by congruence.
        apply F32Order.leb_refl. by eapply F32Order.ltb_not_nan_r.
      - eapply (sorted_le splits (S i) j); [done| |done..]. lia. }
    pose proof (F32Order.ltb_leb_trans _ _ _ Hlt (F32Order.leb_trans _ _ _ Hle' Hle)) as Hvv.
    by rewrite F32Order.ltb_irrefl in Hvv. }
  destruct (Nat.lt_trichotomy i j) as [Hij|[->|Hji]]; [|done|].
  - exfalso. by eapply (Hcontra i j).
  - exfalso. by eapply (Hcontra j i).
Qed.

(* ===================================================================== *)
(** * A call without points *)
(* ===================================================================== *)

Lemma zip_with_nil_right {A B C} (f : A → B → C) (l : list A) : zip_with f l [] = [].
Proof. by destruct l. Qed.

(** C10: a call of [update_class_error] with zero points (a point array and
    two flow arrays without rows, of shapes that pass the assertions, and a
    class id of the table) succeeds and returns the metric it was given:
    [error_sum], [error_count], [total_forward_time] and
    [total_forward_count], like every other attribute, are exactly as
    before. The metric is any one that satisfies the invariant [wf], which
    the constructor establishes and every method preserves. *)
Theorem update_class_error_no_points {R : Reductions}
    (self : Metric) (pc regressed_flow gt_flow : Tensor) (class_id : Z) (class_index : nat) :
  wf self = true →
  shape_check pc regressed_flow gt_flow = true →
  rows pc = [] →
  class_id_to_index_map self !! class_id = Some class_index →
  run (update_class_error pc class_id regressed_flow gt_flow) self = (Return tt, self).
Proof.
  intros Hwf Hshape Hrows Hk.
  rewrite (update_class_error_ok _ _ _ _ _ class_index) by done.
  f_equal. apply accumulated_zero; [done|]. intros c s e _ _ _.
  apply shape_check_unfold in Hshape as (Hrg & Hlen & _).
  rewrite Hrows in Hlen. cbn in Hlen. apply nil_length_inv in Hlen.
  injection Hrg as Hrg _. rewrite Hlen in Hrg. cbn in Hrg. symmetry in Hrg.
  apply nil_length_inv in Hrg.
  unfold cell_error_sum, cell_error_count, total_mask_at, endpoint_errors_of,
    torch_norm_p2, tensor_sub, bucket_mask, mask_and. cbn [rows].
  rewrite Hlen, Hrg. cbn. rewrite zip_with_nil_right. cbn. by rewrite torch_sum_nil.
Qed.

Lemma update_class_error_no_points_witness :
  wf example_metric = true ∧
  shape_check empty_points empty_points empty_points = true ∧
  rows empty_points = [] ∧
  class_id_to_index_map example_metric !! 7 = Some 1%nat ∧
  run (update_class_error empty_points 7 empty_points empty_points) example_metric
  = (Return tt, example_metric).
Proof.
  do 4 (split; [vm_compute; reflexivity|]).
  apply (update_class_error_no_points example_metric empty_points empty_points
           empty_points 7 1); vm_compute; reflexivity.
Defined.

(* ===================================================================== *)
(** * The assertions on the shapes *)
(* ===================================================================== *)

(** The assertions pass exactly when the two flow arrays have one shape,
    as many rows as the point array, and the point array has three
    columns. The column count of the flow arrays is compared with nothing
    but itself. *)
Lemma shape_check_spec pc regressed_flow gt_flow :
  shape_check pc regressed_flow gt_flow = true ↔
  shape regressed_flow = shape gt_flow ∧
  (shape regressed_flow).1 = (shape pc).1 ∧
  (shape pc).2 = 3%nat.
Proof. apply shape_check_unfold. Qed.

(** Arrays that have matching point counts and three columns each pass. *)
Lemma shape_check_three_columns pc regressed_flow gt_flow n :
  shape pc = (n, 3%nat) → shape regressed_flow = (n, 3%nat) → shape gt_flow = (n, 3%nat) →
  shape_check pc regressed_flow gt_flow = true.
Proof. intros H1 H2 H3. apply shape_check_spec. by rewrite H1, H2, H3. Qed.

(** C4: [update_class_error] does not reject flow arrays whose rows have a
    number of coordinates other than 3. With one point of three
    coordinates and predicted and ground-truth flows of shape (1, 2), the
    three assertions pass, the call returns normally and the accumulators
    are written: the count of the cell (close, class 1, speed bucket 0,
    error bucket 0) goes from 0 to 1. The norms are those of rows of
    zeros, computed by the kernel [sequential]. *)
Theorem update_class_error_accepts_flows_of_two_columns :
  shape one_point = (1%nat, 3%nat) ∧
  shape flow_two_columns = (1%nat, 2%nat) ∧
  tensor4_get (per_class_bucketed_error_count example_metric) (0, 1, 0, 0)%nat = Some 0 ∧
  ∃ self',
    run (update_class_error one_point 7 flow_two_columns flow_two_columns) example_metric
    = (Return tt, self') ∧
    tensor4_get (per_class_bucketed_error_count self') (0, 1, 0, 0)%nat = Some 1.
Proof.
  do 3 (split; [vm_compute; reflexivity|]).
  eexists. split; vm_compute; reflexivity.
Qed.

(* ===================================================================== *)
(** * The lookup of the class index *)
(* ===================================================================== *)

(** C8, as stated, fails on a call whose arrays do not pass the
    assertions: class id 8 is not in the table, the point array has two
    columns, and the call raises [AssertionError], not [KeyError]. *)
Lemma unknown_class_with_bad_shape_raises_assertion :
  class_id_to_index_map example_metric !! 8 = None ∧
  run (update_class_error flow_two_columns 8 one_point one_point) example_metric
  = (Raise (AssertionError "Shapes do not match"), example_metric) ∧
  (run (update_class_error flow_two_columns 8 one_point one_point) example_metric).1
  ≠ Raise (KeyError 8).
Proof.
  split; [vm_compute; reflexivity|].
  split; [vm_compute; reflexivity|].
  vm_compute. discriminate.
Qed.

(** C8, amended: for a metric whose class table was built by [__init__]
    from the items of [class_id_to_name_map], and for a call whose arrays
    pass the assertions: a class id that is not a key of the dict makes the
    call raise [KeyError] for that id, with the metric unchanged; a class id
    that is the [i]-th key of the dict is looked up successfully and gives
    the index [i] that the constructor assigned, and the call then returns
    normally. *)
Theorem class_index_lookup {R : Reductions}
    (items : list (Z * string)) (self : Metric)
    (pc regressed_flow gt_flow : Tensor) (class_id : Z) :
  NoDup items.*1 →
  class_id_to_index_map self = build_class_id_to_index_map items →
  wf self = true →
  shape_check pc regressed_flow gt_flow = true →
  (class_id ∉ items.*1 →
     run (update_class_error pc class_id regressed_flow gt_flow) self
     = (Raise (KeyError class_id), self)) ∧
  (∀ i name, items !! i = Some (class_id, name) →
     run (lookup_class_index class_id) self = (Return i, self) ∧
     ∃ self', run (update_class_error pc class_id regressed_flow gt_flow) self
              = (Return tt, self')).
Proof.
  intros Hnd Hmap Hwf Hshape. split.
  - intros Hnot. apply update_class_error_unknown_class; [done|].
    rewrite Hmap. by apply build_class_id_to_index_map_absent.
  - intros i name Hi.
    assert (class_id_to_index_map self !! class_id = Some i) as Hk.
    { rewrite Hmap. by eapply build_class_id_to_index_map_present. }
    split.
    + unfold run, lookup_class_index. by rewrite Hk.
    + eexists. by apply update_class_error_ok.
Qed.

Lemma class_index_lookup_witness :
  NoDup example_items.*1 ∧
  class_id_to_index_map example_metric = build_class_id_to_index_map example_items ∧
  wf example_metric = true ∧
  shape_check one_point one_point one_point = true ∧
  run (update_class_error one_point 8 one_point one_point) example_metric
  = (Raise (KeyError 8), example_metric) ∧
  run (lookup_class_index 7) example_metric = (Return 1%nat, example_metric).
Proof.
  assert (NoDup example_items.*1) as Hnd.
  { cbn. repeat constructor; set_solver. }
  pose proof (class_index_lookup example_items example_metric one_point one_point
                one_point 8 Hnd eq_refl eq_refl eq_refl) as [H8 _].
  pose proof (class_index_lookup example_items example_metric one_point one_point
                one_point 7 Hnd eq_refl eq_refl eq_refl) as [_ H7].
  split; [exact Hnd|]. do 3 (split; [reflexivity|]).
  split.
  - apply H8. cbn. set_solver.
  - exact (proj1 (H7 1%nat "CAR"%string eq_refl)).
Defined.

(* ===================================================================== *)
(** * Classification into buckets *)
(* ===================================================================== *)

Lemma bucket_mask_lookup values bounds i v :
  values !! i = Some v → bucket_mask values bounds !! i = Some (in_bucket v bounds).
Proof. intros H. unfold bucket_mask. by rewrite list_lookup_fmap, H. Qed.

(* ===================================================================== *)
(** * Proximity *)
(* ===================================================================== *)

Lemma is_close_mask_lookup threshold pc i row :
  rows pc !! i = Some row →
  is_close_mask_of threshold pc !! i = Some (F32.leb (norm_inf (take 2 row)) threshold).
Proof.
  intros H. unfold is_close_mask_of, torch_norm_inf, take_cols. cbn [rows].
  by rewrite !list_lookup_fmap, H.
Qed.

Lemma is_close_mask_length threshold pc :
  length (is_close_mask_of threshold pc) = length (rows pc).
Proof. unfold is_close_mask_of, torch_norm_inf, take_cols. cbn [rows]. by rewrite !length_fmap. Qed.

Lemma torch_sum_mask_cons b mask :
  torch_sum_mask (b :: mask) = (if b then 1 else 0) + torch_sum_mask mask.
Proof.
  unfold torch_sum_mask. destruct b.
  - rewrite filter_cons_True by done. cbn [length]. lia.
  - rewrite filter_cons_False by done. lia.
Qed.

(** Splitting a mask by another mask and its complement loses and
    duplicates nothing. *)
Lemma torch_sum_mask_split (m a : list bool) :
  length m = length a →
  torch_sum_mask (mask_and m a) + torch_sum_mask (mask_and (mask_not m) a)
  = torch_sum_mask a.
Proof.
  revert a. induction m as [|b m IH]; intros [|x a] Hlen; try done.
  cbn in Hlen. injection Hlen as Hlen. specialize (IH a Hlen).
  unfold mask_and, mask_not in *. cbn [fmap list_fmap zip_with].
  rewrite !torch_sum_mask_cons. destruct b, x; cbn; lia.
Qed.

Lemma mask_and_assoc (m a b : list bool) :
  mask_and (mask_and m a) b = mask_and m (mask_and a b).
Proof.
  unfold mask_and. revert a b. induction m as [|x m IH]; intros [|y a] [|z b]; try done.
  cbn. by rewrite IH, andb_assoc.
Qed.

Lemma gt_speeds_length {R : Reductions} scale gt_flow :
  length (gt_speeds_of scale gt_flow) = length (rows gt_flow).
Proof. unfold gt_speeds_of, torch_norm_p2. by rewrite !length_fmap. Qed.

Lemma endpoint_errors_length {R : Reductions} regressed_flow gt_flow :
  length (rows regressed_flow) = length (rows gt_flow) →
  length (endpoint_errors_of regressed_flow gt_flow) = length (rows gt_flow).
Proof.
  intros H. unfold endpoint_errors_of, torch_norm_p2, tensor_sub. cbn [rows].
  rewrite length_fmap, length_zip_with. lia.
Qed.

Lemma bucket_mask_length values bounds :
  length (bucket_mask values bounds) = length values.
Proof. unfold bucket_mask. by rewrite length_fmap. Qed.

(* ===================================================================== *)
(** * Points outside all buckets *)
(* ===================================================================== *)

Lemma zip_with_delete {A B C} (f : A → B → C) l k i :
  zip_with f (delete i l) (delete i k) = delete i (zip_with f l k).
Proof.
  revert l k. induction i as [|i IH]; intros [|x l] [|y k]; cbn; try done.
  - by destruct l.
  - by rewrite IH.
Qed.

Lemma masked_select_delete {A} (values : list A) mask i :
  length values = length mask → mask !! i = Some false →
  masked_select (delete i values) (delete i mask) = masked_select values mask.
Proof.
  revert values mask. induction i as [|i IH]; intros [|v values] [|b mask] Hlen Hi;
    try done; cbn in *.
  - by injection Hi as ->.
  - injection Hlen as Hlen. rewrite IH by done. done.
Qed.

Lemma torch_sum_mask_delete mask i :
  mask !! i = Some false → torch_sum_mask (delete i mask) = torch_sum_mask mask.
Proof.
  revert mask. induction i as [|i IH]; intros [|b mask] Hi; try done; cbn in *.
  - injection Hi as ->. by rewrite torch_sum_mask_cons.
  - rewrite !torch_sum_mask_cons. by rewrite IH.
Qed.

Lemma outside_all_buckets_lookup v bounds j b :
  outside_all_buckets v bounds = true → bounds !! j = Some b → in_bucket v b = false.
Proof.
  unfold outside_all_buckets. intros H Hb.
  apply Is_true_true, forallb_True in H. rewrite Forall_lookup in H.
  specialize (H j b Hb). by apply Is_true_true, negb_true_iff in H.
Qed.

(** Below the lowest boundary, or at or above the highest, is outside. *)
Lemma out_of_range_outside v splits :
  out_of_range v splits → outside_all_buckets v (bucket_bounds splits) = true.
Proof.
  intros [H|[Hinc H]]; [done|].
  unfold outside_all_buckets. apply Is_true_true, forallb_True, Forall_lookup.
  intros j [lo' hi'] Hb. apply bucket_bounds_lookup in Hb as [Hlo' Hhi'].
  apply Is_true_true, negb_true_iff, not_true_is_false. rewrite in_bucket_unfold. cbn.
  intros [Hle Hlt]. destruct H as [(lo & Hlo & Hv)|(hi & Hhi & Hv)].
  - assert (F32.leb lo lo' = true) as Hlolo.
    { destruct j as [|j].
      - replace lo' with lo by congruence. apply F32Order.leb_refl.
        by eapply F32Order.ltb_not_nan_r.
      - eapply (sorted_le splits 0 (S j)); [done|lia|done..]. }
    pose proof (F32Order.ltb_leb_trans _ _ _ Hv (F32Order.leb_trans _ _ _ Hlolo Hle)) as Hvv.
    by rewrite F32Order.ltb_irrefl in Hvv.
  - rewrite last_lookup in Hhi.
    assert (F32.leb hi' hi = true) as Hhihi.
    { pose proof (lookup_lt_Some _ _ _ Hhi') as Hlen.
      destruct (decide (S j = pred (length splits))) as [Heq|Hne].
      - rewrite <- Heq in Hhi. replace hi with hi' by congruence.
        apply F32Order.leb_refl. by eapply F32Order.ltb_not_nan_r.
      - eapply (sorted_le splits (S j) (pred (length splits))); [done|lia|done..]. }
    pose proof (F32Order.ltb_leb_trans _ _ _ Hlt (F32Order.leb_trans _ _ _ Hhihi Hv)) as Hvv.
    by rewrite F32Order.ltb_irrefl in Hvv.
Qed.

Section delete_point.
Context (self : Metric) (pc regressed_flow gt_flow : Tensor) (i : nat).

Lemma is_close_mask_delete threshold :
  is_close_mask_of threshold (delete_point i pc) = delete i (is_close_mask_of threshold pc).
Proof.
  unfold is_close_mask_of, torch_norm_inf, take_cols, delete_point. cbn [rows].
  by rewrite !list_fmap_delete.
Qed.

Lemma gt_speeds_delete {R : Reductions} scale :
  gt_speeds_of scale (delete_point i gt_flow) = delete i (gt_speeds_of scale gt_flow).
Proof.
  unfold gt_speeds_of, torch_norm_p2, delete_point. cbn [rows].
  by rewrite !list_fmap_delete.
Qed.

Lemma endpoint_errors_delete {R : Reductions} :
  endpoint_errors_of (delete_point i regressed_flow) (delete_point i gt_flow)
  = delete i (endpoint_errors_of regressed_flow gt_flow).
Proof.
  unfold endpoint_errors_of, torch_norm_p2, tensor_sub, delete_point. cbn [rows].
  by rewrite zip_with_delete, list_fmap_delete.
Qed.

Lemma total_mask_delete {R : Reductions} c s e :
  (c < 2)%nat →
  total_mask_at self (delete_point i pc) (delete_point i regressed_flow)
    (delete_point i gt_flow) c s e
  = delete i (total_mask_at self pc regressed_flow gt_flow c s e).
Proof.
  intros Hc. unfold total_mask_at, mask_and, bucket_mask, mask_not.
  rewrite is_close_mask_delete, gt_speeds_delete, endpoint_errors_delete.
  destruct c as [|[|c]]; [| |lia]; cbn [lookup_total list_lookup_total];
    by rewrite !list_fmap_delete, !zip_with_delete.
Qed.

Lemma shape_check_delete :
  (i < length (rows pc))%nat → (i < length (rows regressed_flow))%nat →
  (i < length (rows gt_flow))%nat →
  shape_check (delete_point i pc) (delete_point i regressed_flow) (delete_point i gt_flow)
  = shape_check pc regressed_flow gt_flow.
Proof.
  intros H1 H2 H3. unfold shape_check, shape_eqb, shape, delete_point. cbn.
  rewrite !length_delete by (by apply lookup_lt_is_Some_2).
  f_equal. f_equal.
  - f_equal. destruct (Nat.eqb_spec (length (rows regressed_flow)) (length (rows gt_flow))),
      (Nat.eqb_spec (length (rows regressed_flow) - 1) (length (rows gt_flow) - 1)); done || lia.
  - destruct (Nat.eqb_spec (length (rows regressed_flow)) (length (rows pc))),
      (Nat.eqb_spec (length (rows regressed_flow) - 1) (length (rows pc) - 1)); done || lia.
Qed.

End delete_point.

Lemma total_mask_length {R : Reductions} self pc regressed_flow gt_flow c s e :
  shape_check pc regressed_flow gt_flow = true → (c < 2)%nat →
  length (total_mask_at self pc regressed_flow gt_flow c s e) = length (rows gt_flow).
Proof.
  intros Hshape Hc. apply shape_check_unfold in Hshape as (Hrg & Hlen & _).
  injection Hrg as Hrg _.
  unfold total_mask_at, mask_and. rewrite !length_zip_with, !bucket_mask_length.
  rewrite gt_speeds_length, endpoint_errors_length by done.
  destruct c as [|[|c]]; [| |lia]; cbn [lookup_total list_lookup_total];
    unfold mask_not; rewrite ?length_fmap, is_close_mask_length; lia.
Qed.

Lemma total_mask_lookup_outside {R : Reductions} self pc regressed_flow gt_flow c s e i v err :
  shape_check pc regressed_flow gt_flow = true →
  (c < 2)%nat → (s < length (speed_bucket_bounds self))%nat →
  (e < length (epe_bucket_bounds self))%nat →
  gt_speeds_of (per_frame_to_per_second_scale_factor self) gt_flow !! i = Some v →
  endpoint_errors_of regressed_flow gt_flow !! i = Some err →
  outside_all_buckets v (speed_bucket_bounds self) = true ∨
  outside_all_buckets err (epe_bucket_bounds self) = true →
  total_mask_at self pc regressed_flow gt_flow c s e !! i = Some false.
Proof.
  intros Hshape Hc Hs He Hv Herr Hout.
  destruct (lookup_lt_is_Some_2 (total_mask_at self pc regressed_flow gt_flow c s e) i)
    as [b Hb].
  { rewrite total_mask_length by done. apply lookup_lt_Some in Hv.
    by rewrite gt_speeds_length in Hv. }
  rewrite Hb. f_equal. unfold total_mask_at, mask_and in Hb.
  apply lookup_zip_with_Some in Hb as (b1 & b2 & -> & Hb1 & Hb2).
  apply lookup_zip_with_Some in Hb1 as (b3 & b4 & -> & Hb3 & Hb4).
  rewrite (bucket_mask_lookup _ _ _ _ Hv) in Hb4. injection Hb4 as <-.
  rewrite (bucket_mask_lookup _ _ _ _ Herr) in Hb2. injection Hb2 as <-.
  destruct (lookup_lt_is_Some_2 _ _ Hs) as [sb Hsb].
  destruct (lookup_lt_is_Some_2 _ _ He) as [eb Heb].
  rewrite (list_lookup_total_correct _ _ _ Hsb), (list_lookup_total_correct _ _ _ Heb).
  destruct Hout as [Hout|Hout].
  - rewrite (outside_all_buckets_lookup _ _ _ _ Hout Hsb). by rewrite andb_false_r.
  - rewrite (outside_all_buckets_lookup _ _ _ _ Hout Heb). by rewrite andb_false_r.
Qed.

Lemma iadd_keeps_bounds idx v n (self s : Metric) :
  speed_bucket_bounds s = speed_bucket_bounds self ∧
  epe_bucket_bounds s = epe_bucket_bounds self →
  speed_bucket_bounds ((iadd_error_sum idx v ;; iadd_error_count idx n) s).2
  = speed_bucket_bounds self ∧
  epe_bucket_bounds ((iadd_error_sum idx v ;; iadd_error_count idx n) s).2
  = epe_bucket_bounds self.
Proof.
  intros H. unfold mbind, method_bind, iadd_error_sum, iadd_error_count.
  destruct (tensor4_get (per_class_bucketed_error_sum s) idx); [|done]. cbn.
  by destruct (tensor4_get (per_class_bucketed_error_count s) idx).
Qed.

(** C6: a point of the input whose ground-truth speed, or whose endpoint
    error, is outside the ranges of all buckets (in particular below the
    lowest boundary, or at or above the highest, of sorted boundaries)
    contributes nothing: on every metric, the call has the same outcome and
    leaves the same metric, cell by cell, as the call on the input without
    that point. The speed and the error of the point are the values that
    the library's norm gives for it, whatever its kernel. *)
Theorem out_of_range_point_contributes_nothing {R : Reductions}
    (self : Metric) (pc regressed_flow gt_flow : Tensor) (class_id : Z)
    (i : nat) (v err : float32) :
  (i < length (rows pc))%nat →
  gt_speeds_of (per_frame_to_per_second_scale_factor self) gt_flow !! i = Some v →
  endpoint_errors_of regressed_flow gt_flow !! i = Some err →
  out_of_range v (speed_bucket_splits_meters_per_second self) ∨
  out_of_range err (endpoint_error_splits_meters self) →
  run (update_class_error pc class_id regressed_flow gt_flow) self
  = run (update_class_error (delete_point i pc) class_id
           (delete_point i regressed_flow) (delete_point i gt_flow)) self.
Proof.
  intros Hi Hv Herr Hout.
  assert (outside_all_buckets v (speed_bucket_bounds self) = true ∨
          outside_all_buckets err (epe_bucket_bounds self) = true) as Hout'.
  { destruct Hout as [H|H]; [left|right]; by apply out_of_range_outside. }
  assert ((i < length (rows regressed_flow))%nat ∧ (i < length (rows gt_flow))%nat) as [Hir Hig].
  { apply lookup_lt_Some in Herr.
    unfold endpoint_errors_of, torch_norm_p2, tensor_sub in Herr. cbn [rows] in Herr.
    rewrite length_fmap, length_zip_with in Herr. lia. }
  pose proof (shape_check_delete pc regressed_flow gt_flow i Hi Hir Hig) as Hsd.
  destruct (shape_check pc regressed_flow gt_flow) eqn:Hshape.
  2:{ by rewrite !update_class_error_shape_mismatch. }
  destruct (class_id_to_index_map self !! class_id) as [class_index|] eqn:Hk.
  2:{ by rewrite !update_class_error_unknown_class. }
  pose proof Hshape as Hshape0. pose proof Hsd as Hsd0.
  unfold shape_check in Hshape, Hsd.
  apply andb_true_iff in Hshape as [Hshape H3]. apply andb_true_iff in Hshape as [H1 H2].
  apply andb_true_iff in Hsd as [Hsd H3']. apply andb_true_iff in Hsd as [H1' H2'].
  unfold run, update_class_error. rewrite H1, H2, H3, H1', H2', H3'.
  do 4 (erewrite run_bind by reflexivity).
  erewrite run_bind by (unfold lookup_class_index; rewrite Hk; reflexivity).
  erewrite run_bind by reflexivity.
  do 4 (erewrite run_bind by reflexivity).
  erewrite run_bind by (unfold lookup_class_index; rewrite Hk; reflexivity).
  erewrite run_bind by reflexivity.
  set (I := λ s : Metric, speed_bucket_bounds s = speed_bucket_bounds self ∧
                           epe_bucket_bounds s = epe_bucket_bounds self).
  match goal with
  | |- for_each (enumerate ?l) ?b self = for_each (enumerate ?l') ?b' self =>
      refine (proj1 (for_each_ext I l l' b b' eq_refl _ self (conj eq_refl eq_refl)))
  end.
  intros c close_mask close_mask' Hcm Hcm' s1 Hs1. cbn beta iota.
  assert (c < 2)%nat as Hc by (apply lookup_lt_Some in Hcm; cbn in Hcm; lia).
  rewrite !gets_bind. destruct Hs1 as [Hs1 He1]. rewrite Hs1.
  match goal with
  | |- for_each (enumerate ?l) ?b s1 = for_each (enumerate ?l') ?b' s1 ∧ _ =>
      refine (for_each_ext I l l' b b' eq_refl _ s1 (conj Hs1 He1))
  end.
  intros s speed_bound speed_bound' Hs Hs' s2 Hs2. cbn beta iota.
  rewrite Hs in Hs'. injection Hs' as <-.
  rewrite !gets_bind. destruct Hs2 as [Hs2 He2]. rewrite He2.
  match goal with
  | |- for_each (enumerate ?l) ?b s2 = for_each (enumerate ?l') ?b' s2 ∧ _ =>
      refine (for_each_ext I l l' b b' eq_refl _ s2 (conj Hs2 He2))
  end.
  intros e epe_bound epe_bound' He He' s3 Hs3. cbn beta iota.
  rewrite He in He'. injection He' as <-.
  cbn zeta.
  pose proof (total_mask_lookup_outside self pc regressed_flow gt_flow c s e i v err
                Hshape0 Hc (lookup_lt_Some _ _ _ Hs) (lookup_lt_Some _ _ _ He)
                Hv Herr Hout') as Hmask.
  pose proof (total_mask_delete self pc regressed_flow gt_flow i c s e Hc) as Hdel.
  unfold total_mask_at in Hmask, Hdel.
  rewrite (list_lookup_total_correct _ _ _ Hcm), (list_lookup_total_correct _ _ _ Hs),
    (list_lookup_total_correct _ _ _ He) in Hmask, Hdel.
  rewrite (list_lookup_total_correct _ _ _ Hcm') in Hdel.
  rewrite Hdel, endpoint_errors_delete.
  rewrite masked_select_delete, torch_sum_mask_delete; [|done|..|done].
  - split; [done|]. by apply iadd_keeps_bounds.
  - pose proof (total_mask_length self pc regressed_flow gt_flow c s e Hshape0 Hc) as Hlen.
    unfold total_mask_at in Hlen.
    rewrite (list_lookup_total_correct _ _ _ Hcm), (list_lookup_total_correct _ _ _ Hs),
      (list_lookup_total_correct _ _ _ He) in Hlen.
    rewrite Hlen. apply endpoint_errors_length.
    apply shape_check_unfold in Hshape0 as (Hrg & _). by injection Hrg.
Qed.

Lemma out_of_range_point_contributes_nothing_witness :
  (1 < length (rows two_points))%nat ∧
  gt_speeds_of (per_frame_to_per_second_scale_factor example_metric) fast_flows !! 1%nat
  = Some (F32.of_Z 20) ∧
  endpoint_errors_of fast_flows fast_flows !! 1%nat = Some F32.zero ∧
  out_of_range (F32.of_Z 20) (speed_bucket_splits_meters_per_second example_metric) ∧
  run (update_class_error two_points 7 fast_flows fast_flows) example_metric
  = run (update_class_error (delete_point 1 two_points) 7
           (delete_point 1 fast_flows) (delete_point 1 fast_flows)) example_metric.
Proof.
  assert (out_of_range (F32.of_Z 20) (speed_bucket_splits_meters_per_second example_metric))
    as Hout.
  { right. split; [vm_compute; reflexivity|]. right. exists (F32.of_Z 10).
    split; vm_compute; reflexivity. }
  split; [cbn; lia|].
  split; [vm_compute; reflexivity|]. split; [vm_compute; reflexivity|].
  split; [exact Hout|].
  apply (out_of_range_point_contributes_nothing example_metric two_points fast_flows
           fast_flows 7 1 (F32.of_Z 20) F32.zero).
  - cbn; lia.
  - vm_compute; reflexivity.
  - vm_compute; reflexivity.
  - left. exact Hout.
Defined.

(* ===================================================================== *)
(** * One call for all points, or one call per point *)
(* ===================================================================== *)

Section per_point.
Context (n_pc n_flow : nat).

(** The tensors with given rows and the column counts of the call. *)
Let PC (ps : list (list float32)) : Tensor := {| rows := ps; ncols := n_pc |}.
Let FL (rs : list (list float32)) : Tensor := {| rows := rs; ncols := n_flow |}.

Lemma total_mask_at_cons {R : Reductions} self p ps r rs g gs c s e :
  (c < 2)%nat →
  total_mask_at self (PC (p :: ps)) (FL (r :: rs)) (FL (g :: gs)) c s e
  = total_mask_at self (PC [p]) (FL [r]) (FL [g]) c s e
    ++ total_mask_at self (PC ps) (FL rs) (FL gs) c s e.
Proof. intros Hc. destruct c as [|[|c]]; [reflexivity|reflexivity|lia]. Qed.

Lemma total_mask_at_single {R : Reductions} self p r g c s e :
  (c < 2)%nat →
  ∃ b, total_mask_at self (PC [p]) (FL [r]) (FL [g]) c s e = [b].
Proof. intros Hc. destruct c as [|[|c]]; [by eexists|by eexists|lia]. Qed.

Lemma cell_error_count_cons {R : Reductions} self p ps r rs g gs c s e :
  (c < 2)%nat →
  cell_error_count self (PC (p :: ps)) (FL (r :: rs)) (FL (g :: gs)) c s e
  = cell_error_count self (PC [p]) (FL [r]) (FL [g]) c s e
    + cell_error_count self (PC ps) (FL rs) (FL gs) c s e.
Proof.
  intros Hc. unfold cell_error_count. rewrite total_mask_at_cons by done.
  destruct (total_mask_at_single self p r g c s e Hc) as [b ->].
  cbn [app]. rewrite !torch_sum_mask_cons. unfold torch_sum_mask at 2. cbn. lia.
Qed.

Lemma per_point_counts {R : Reductions} self class_id class_index ps rs gs :
  wf self = true →
  n_pc = 3%nat →
  length rs = length ps → length gs = length ps →
  class_id_to_index_map self !! class_id = Some class_index →
  ∃ self',
    run (update_class_error_per_point (PC ps) class_id (FL rs) (FL gs)) self
    = (Return tt, self') ∧
    wf self' = true ∧
    same_outside_accumulators self self' ∧
    per_class_bucketed_error_count self'
    = per_class_bucketed_error_count
        (accumulated (λ _ _ _, true) class_index
           (cell_error_sum self (PC ps) (FL rs) (FL gs))
           (cell_error_count self (PC ps) (FL rs) (FL gs)) self).
Proof.
  intros Hwf Hn. revert self rs gs Hwf.
  induction ps as [|p ps IH]; intros self rs gs Hwf Hrs Hgs Hk.
  - destruct rs; [|done]. destruct gs; [|done].
    exists self. split; [done|]. split; [done|]. split; [by repeat split|].
    rewrite accumulated_zero; [done..|].
    intros c s e _ _ _. unfold cell_error_sum, cell_error_count, total_mask_at,
      endpoint_errors_of, torch_norm_p2, tensor_sub, bucket_mask, mask_and.
    cbn. rewrite zip_with_nil_right. cbn. by rewrite torch_sum_nil.
  - destruct rs as [|r rs]; [done|]. destruct gs as [|g gs]; [done|].
    cbn in Hrs, Hgs. injection Hrs as Hrs. injection Hgs as Hgs.
    unfold update_class_error_per_point, run. cbn [rows PC FL zip zip_with for_each].
    assert (shape_check (point_tensor (PC (p :: ps)) p) (point_tensor (FL (r :: rs)) r)
              (point_tensor (FL (g :: gs)) g) = true) as Hshape.
    { unfold shape_check, shape_eqb, shape, point_tensor. cbn. subst n_pc.
      by rewrite !Nat.eqb_refl. }
    erewrite run_bind by (by apply (update_class_error_ok _ _ _ _ _ class_index)).
    set (self1 := accumulated _ _ _ _ self).
    assert (wf self1 = true) as Hwf1.
    { apply wf_accumulated; [|done]. intros. apply cell_error_sum_sign_clear. }
    destruct (IH self1 rs gs Hwf1 Hrs Hgs Hk) as (self' & Hrun & Hwf' & Hsame & Hcount).
    exists self'. split; [exact Hrun|]. split; [done|]. split.
    { destruct Hsame as (? & ? & ? & ? & ? & ? & ? & ?). by repeat split. }
    rewrite Hcount. unfold self1. metric_simpl.
    rewrite tensor4_imap_imap. apply tensor4_imap_ext.
    intros [[[c k] s] e] x Hx.
    destruct (wf_unfold _ Hwf) as (_ & Hc & _).
    assert (in_shape (c, k, s, e) 2 (size (class_id_to_index_map self))
      (length (speed_bucket_bounds self)) (length (epe_bucket_bounds self))) as (Hc2 & _).
    { eapply has_shape_get; [exact Hc|eauto]. }
    destruct (bool_decide (k = class_index) && true); [|done].
    rewrite I64Facts.i64_add_add. f_equal.
    symmetry. by apply (cell_error_count_cons self p ps r rs g gs c s e).
Qed.

End per_point.

(* ===================================================================== *)
(** * The cell of a point *)
(* ===================================================================== *)

Lemma total_mask_lookup {R : Reductions} self pc regressed_flow gt_flow c s e i close v err :
  (c < 2)%nat →
  is_close_mask_of (close_object_threshold_meters self) pc !! i = Some close →
  gt_speeds_of (per_frame_to_per_second_scale_factor self) gt_flow !! i = Some v →
  endpoint_errors_of regressed_flow gt_flow !! i = Some err →
  total_mask_at self pc regressed_flow gt_flow c s e !! i
  = Some ((if decide (c = 0%nat) then close else negb close)
          && in_bucket v (speed_bucket_bounds self !!! s)
          && in_bucket err (epe_bucket_bounds self !!! e)).
Proof.
  intros Hc Hclose Hv Herr. unfold total_mask_at, mask_and.
  apply lookup_zip_with_Some. eexists _, _. split; [done|]. split.
  - apply lookup_zip_with_Some. eexists _, _. split; [done|]. split.
    + destruct c as [|[|c]]; [| |lia]; cbn [lookup_total list_lookup_total].
      * rewrite decide_True by done. exact Hclose.
      * rewrite decide_False by done. unfold mask_not.
        by rewrite list_lookup_fmap, Hclose.
    + by apply bucket_mask_lookup.
  - by apply bucket_mask_lookup.
Qed.

Lemma proximity_bit c close :
  (c < 2)%nat →
  (if decide (c = 0%nat) then close else negb close)
  = bool_decide (c = proximity_index close).
Proof. intros Hc. destruct c as [|[|c]], close; try done; lia. Qed.

(** With sorted boundaries, a point whose speed is in the speed bucket [s]
    and whose error is in the error bucket [e] is selected at the iteration
    of its proximity, [s] and [e], and at no other. *)
Lemma total_mask_one_cell {R : Reductions} self pc regressed_flow gt_flow i close v err s e sb eb :
  sorted (speed_bucket_splits_meters_per_second self) = true →
  sorted (endpoint_error_splits_meters self) = true →
  is_close_mask_of (close_object_threshold_meters self) pc !! i = Some close →
  gt_speeds_of (per_frame_to_per_second_scale_factor self) gt_flow !! i = Some v →
  endpoint_errors_of regressed_flow gt_flow !! i = Some err →
  speed_bucket_bounds self !! s = Some sb → in_bucket v sb = true →
  epe_bucket_bounds self !! e = Some eb → in_bucket err eb = true →
  ∀ c' s' e' : nat,
    (c' < 2)%nat → (s' < length (speed_bucket_bounds self))%nat →
    (e' < length (epe_bucket_bounds self))%nat →
    total_mask_at self pc regressed_flow gt_flow c' s' e' !! i
    = Some (bool_decide ((c', s', e') = (proximity_index close, s, e))).
Proof.
  intros Hincs Hince Hclose Hv Herr Hsb Hinv Heb Hine c' s' e' Hc' Hs' He'.
  rewrite (total_mask_lookup _ _ _ _ _ _ _ _ close v err) by done. f_equal.
  rewrite proximity_bit by done.
  destruct (lookup_lt_is_Some_2 _ _ Hs') as [sb' Hsb'].
  destruct (lookup_lt_is_Some_2 _ _ He') as [eb' Heb'].
  rewrite (list_lookup_total_correct _ _ _ Hsb'), (list_lookup_total_correct _ _ _ Heb').
  apply bool_eq_iff. rewrite !andb_true_iff, !bool_decide_eq_true. split.
  - intros [[-> Hs1] He1].
    assert (s' = s) as ->
      by exact (in_bucket_unique (speed_bucket_splits_meters_per_second self)
                  v s' s sb' sb Hincs Hsb' Hsb Hs1 Hinv).
    assert (e' = e) as ->
      by exact (in_bucket_unique (endpoint_error_splits_meters self)
                  err e' e eb' eb Hince Heb' Heb He1 Hine).
    done.
  - intros [= -> -> ->]. rewrite Hsb in Hsb'. rewrite Heb in Heb'.
    injection Hsb' as <-. injection Heb' as <-. done.
Qed.

Lemma list_singleton_lookup {A} (l : list A) x :
  length l = 1%nat → l !! 0%nat = Some x → l = [x].
Proof. destruct l as [|y [|z l]]; try done. cbn. by intros _ [= ->]. Qed.

(** The cells after a call, in terms of the masks of the iterations. *)
Lemma update_class_error_cells {R : Reductions}
    self pc regressed_flow gt_flow class_id class_index :
  wf self = true →
  shape_check pc regressed_flow gt_flow = true →
  class_id_to_index_map self !! class_id = Some class_index →
  ∃ self',
    run (update_class_error pc class_id regressed_flow gt_flow) self = (Return tt, self') ∧
    same_outside_accumulators self self' ∧
    wf self' = true ∧
    ∀ c k s e x n,
      tensor4_get (per_class_bucketed_error_sum self) (c, k, s, e) = Some x →
      tensor4_get (per_class_bucketed_error_count self) (c, k, s, e) = Some n →
      tensor4_get (per_class_bucketed_error_sum self') (c, k, s, e)
      = Some (if decide (k = class_index)
              then F32.add x (cell_error_sum self pc regressed_flow gt_flow c s e)
              else x) ∧
      tensor4_get (per_class_bucketed_error_count self') (c, k, s, e)
      = Some (if decide (k = class_index)
              then I64.add n (cell_error_count self pc regressed_flow gt_flow c s e)
              else n).
Proof.
  intros Hwf Hshape Hk.
  eexists. split; [by apply (update_class_error_ok _ _ _ _ _ class_index)|].
  split; [apply same_outside_accumulated|].
  split; [apply wf_accumulated; [intros; apply cell_error_sum_sign_clear|done]|].
  intros c k s e x n Hx Hn.
  by rewrite accumulated_error_sum_get, accumulated_error_count_get, Hx, Hn.
Qed.

(** The cells of the accumulators are within their shape. *)
Lemma wf_cell_in_shape self c k s e x :
  wf self = true →
  tensor4_get (per_class_bucketed_error_sum self) (c, k, s, e) = Some x →
  (c < 2)%nat ∧ (s < length (speed_bucket_bounds self))%nat ∧
  (e < length (epe_bucket_bounds self))%nat ∧
  F32.sign_clear x = true.
Proof.
  intros Hwf Hx. destruct (wf_unfold _ Hwf) as (Hs & _ & _ & Hsc & _).
  assert (in_shape (c, k, s, e) 2 (size (class_id_to_index_map self))
    (length (speed_bucket_bounds self)) (length (epe_bucket_bounds self)))
    as (Hc & _ & Hs' & He').
  { eapply has_shape_get; [exact Hs|eauto]. }
  repeat split; try done. by eapply (proj1 (tensor4_forallb_get _ _) Hsc).
Qed.

(** The mask of an iteration of a call on a single point. *)
Lemma total_mask_one_point {R : Reductions} self pc regressed_flow gt_flow close v err c s e sb eb :
  shape_check pc regressed_flow gt_flow = true →
  is_close_mask_of (close_object_threshold_meters self) pc = [close] →
  gt_speeds_of (per_frame_to_per_second_scale_factor self) gt_flow = [v] →
  endpoint_errors_of regressed_flow gt_flow = [err] →
  (c < 2)%nat →
  speed_bucket_bounds self !! s = Some sb → epe_bucket_bounds self !! e = Some eb →
  total_mask_at self pc regressed_flow gt_flow c s e
  = [bool_decide (c = proximity_index close) && in_bucket v sb && in_bucket err eb].
Proof.
  intros Hshape Hclose Hv Herr Hc Hsb Heb. apply list_singleton_lookup.
  - rewrite total_mask_length by done.
    rewrite <- (gt_speeds_length (per_frame_to_per_second_scale_factor self)).
    by rewrite Hv.
  - rewrite (total_mask_lookup _ _ _ _ _ _ _ _ close v err); try done.
    + rewrite proximity_bit by done.
      by rewrite (list_lookup_total_correct _ _ _ Hsb), (list_lookup_total_correct _ _ _ Heb).
    + by rewrite Hclose.
    + by rewrite Hv.
    + by rewrite Herr.
Qed.

(** A call on a single point adds the error of the point and 1 at the
    cells of the class whose proximity is that of the point and whose
    buckets hold its speed and its error, and leaves the other cells as
    they were. *)
Lemma update_class_error_one_point {R : Reductions}
    self pc regressed_flow gt_flow class_id class_index close v err :
  wf self = true →
  shape_check pc regressed_flow gt_flow = true →
  class_id_to_index_map self !! class_id = Some class_index →
  is_close_mask_of (close_object_threshold_meters self) pc = [close] →
  gt_speeds_of (per_frame_to_per_second_scale_factor self) gt_flow = [v] →
  endpoint_errors_of regressed_flow gt_flow = [err] →
  ∀ c k s e sb eb x n,
    speed_bucket_bounds self !! s = Some sb → epe_bucket_bounds self !! e = Some eb →
    tensor4_get (per_class_bucketed_error_sum self) (c, k, s, e) = Some x →
    tensor4_get (per_class_bucketed_error_count self) (c, k, s, e) = Some n →
    let self' := (run (update_class_error pc class_id regressed_flow gt_flow) self).2 in
    let hit := bool_decide (k = class_index) && bool_decide (c = proximity_index close)
               && in_bucket v sb && in_bucket err eb in
    tensor4_get (per_class_bucketed_error_sum self') (c, k, s, e)
    = Some (if hit then F32.add x err else x) ∧
    tensor4_get (per_class_bucketed_error_count self') (c, k, s, e)
    = Some (if hit then I64.add n 1 else n).
Proof.
  intros Hwf Hshape Hk Hclose Hv Herr c k s e sb eb x n Hsb Heb Hx Hn. cbn zeta.
  destruct (update_class_error_cells self pc regressed_flow gt_flow class_id class_index)
    as (self' & Hrun & _ & _ & Hcells); [done..|].
  rewrite Hrun. cbn [snd].
  destruct (Hcells c k s e x n Hx Hn) as [-> ->].
  destruct (wf_cell_in_shape _ _ _ _ _ _ Hwf Hx) as (Hc & _ & _ & Hxs).
  assert (I64.in_range n = true) as Hnr.
  { destruct (wf_unfold _ Hwf) as (_ & _ & _ & _ & Hr).
    by eapply (proj1 (tensor4_forallb_get _ _) Hr). }
  assert (F32.sign_clear err = true) as Herrs.
  { pose proof (endpoint_errors_sign_clear regressed_flow gt_flow) as Hall.
    rewrite Herr in Hall. exact (proj1 (Forall_singleton _ _) Hall). }
  unfold cell_error_sum, cell_error_count.
  rewrite (total_mask_one_point _ _ _ _ close v err c s e sb eb) by done. rewrite Herr.
  destruct (decide (k = class_index)) as [->|Hne].
  - rewrite (bool_decide_true (class_index = class_index)) by done. cbn [andb].
    destruct (bool_decide (c = proximity_index close) && in_bucket v sb && in_bucket err eb).
    + cbn [masked_select]. change (torch_sum_mask [true]) with 1.
      by rewrite (torch_sum_single err Herrs).
    + cbn [masked_select]. rewrite torch_sum_nil. change (torch_sum_mask [false]) with 0.
      rewrite F32Facts.f32_add_zero_r, I64Facts.i64_add_0_r; [done|done|].
      by apply F32Facts.sign_clear_not_neg_zero.
  - by rewrite (bool_decide_false (k = class_index)) by done.
Qed.

(** C1, as stated, fails in its last part: the sums of a call on two
    points and of two calls on one point each differ, here with the kernel
    [sequential] and with every kernel that sums two 1s to 2 and takes the
    norm of a unit vector to be 1. The cell holds 2^24
    after a first point with that error; two further points with error 1
    leave 2^24 when added one per call, since 2^24 + 1 rounds to 2^24 in
    binary32, and give 2^24 + 2 when their sum 2 is added by one call. *)
Lemma per_point_and_batched_sums_differ :
  let self := (run (update_class_error far_error_point 7 far_error_flow zero_flow)
                   example_metric).2 in
  wf self = true ∧
  shape_check two_points two_unit_flows two_zero_flows = true ∧
  tensor4_get (per_class_bucketed_error_sum self) (0, 1, 0, 1)%nat
  = Some (F32.of_Z 16777216) ∧
  tensor4_get (per_class_bucketed_error_sum
     (run (update_class_error two_points 7 two_unit_flows two_zero_flows) self).2)
     (0, 1, 0, 1)%nat = Some (F32.of_Z 16777218) ∧
  tensor4_get (per_class_bucketed_error_sum
     (run (update_class_error_per_point two_points 7 two_unit_flows two_zero_flows) self).2)
     (0, 1, 0, 1)%nat = Some (F32.of_Z 16777216) ∧
  (run (update_class_error two_points 7 two_unit_flows two_zero_flows) self).2
  ≠ (run (update_class_error_per_point two_points 7 two_unit_flows two_zero_flows) self).2.
Proof.
  cbn zeta.
  do 5 (split; [vm_compute; reflexivity|]).
  intros H.
  apply (f_equal (λ m, tensor4_get (per_class_bucketed_error_sum m) (0, 1, 0, 1)%nat)) in H.
  vm_compute in H. discriminate.
Qed.

(** C1, amended: for a call whose arrays pass the assertions and whose
    class id is in the table, on a metric that satisfies the invariant, and
    whatever kernel the library uses for its sums and norms:
    - the call returns normally and changes nothing but the two bucketed
      accumulators, whose invariant it keeps;
    - the iteration [(c, s, e)] of the loops selects the point [i] exactly
      when [c] is the proximity of the point, the speed bucket [s] holds
      its ground-truth speed and the error bucket [e] its endpoint error;
      when the boundaries are sorted, a point whose speed and error each
      fall in a bucket is therefore selected by exactly one iteration;
    - every cell of the row of the class receives the library's float32
      sum of the errors of the points selected for it, and their number;
      the cells of the other classes are unchanged;
    - so a call on a single point adds the error of the point to
      [error_sum] and 1 to [error_count] at the cells that select it and
      leaves every other cell of both tensors unchanged; with sorted
      boundaries and a point in range this is exactly the one cell of the
      point;
    - processing the points one per call gives the same [error_count] as
      the call on all of them. (The [error_sum] of the two ways agree up to
      the rounding of float32 additions only.) *)
Theorem update_class_error_effect {R : Reductions}
    (self : Metric) (pc regressed_flow gt_flow : Tensor) (class_id : Z) (class_index : nat) :
  wf self = true →
  shape_check pc regressed_flow gt_flow = true →
  class_id_to_index_map self !! class_id = Some class_index →
  let is_close_mask := is_close_mask_of (close_object_threshold_meters self) pc in
  let gt_speeds := gt_speeds_of (per_frame_to_per_second_scale_factor self) gt_flow in
  let endpoint_errors := endpoint_errors_of regressed_flow gt_flow in
  let total_mask := total_mask_at self pc regressed_flow gt_flow in
  ∃ self',
    run (update_class_error pc class_id regressed_flow gt_flow) self = (Return tt, self') ∧
    same_outside_accumulators self self' ∧
    wf self' = true ∧
    (∀ i close v err c s e sb eb,
       is_close_mask !! i = Some close →
       gt_speeds !! i = Some v → endpoint_errors !! i = Some err →
       (c < 2)%nat →
       speed_bucket_bounds self !! s = Some sb → epe_bucket_bounds self !! e = Some eb →
       total_mask c s e !! i
       = Some (bool_decide (c = proximity_index close)
               && in_bucket v sb && in_bucket err eb)) ∧
    (sorted (speed_bucket_splits_meters_per_second self) = true →
     sorted (endpoint_error_splits_meters self) = true →
     ∀ i close v err s e sb eb,
       is_close_mask !! i = Some close →
       gt_speeds !! i = Some v → endpoint_errors !! i = Some err →
       speed_bucket_bounds self !! s = Some sb → in_bucket v sb = true →
       epe_bucket_bounds self !! e = Some eb → in_bucket err eb = true →
       ∀ c' s' e' : nat,
         (c' < 2)%nat → (s' < length (speed_bucket_bounds self))%nat →
         (e' < length (epe_bucket_bounds self))%nat →
         total_mask c' s' e' !! i
         = Some (bool_decide ((c', s', e') = (proximity_index close, s, e)))) ∧
    (∀ c k s e x n,
       tensor4_get (per_class_bucketed_error_sum self) (c, k, s, e) = Some x →
       tensor4_get (per_class_bucketed_error_count self) (c, k, s, e) = Some n →
       tensor4_get (per_class_bucketed_error_sum self') (c, k, s, e)
       = Some (if decide (k = class_index)
               then F32.add x (torch_sum (masked_select endpoint_errors (total_mask c s e)))
               else x) ∧
       tensor4_get (per_class_bucketed_error_count self') (c, k, s, e)
       = Some (if decide (k = class_index)
               then I64.add n (torch_sum_mask (total_mask c s e))
               else n)) ∧
    (∀ close v err,
       is_close_mask = [close] → gt_speeds = [v] → endpoint_errors = [err] →
       ∀ c k s e sb eb x n,
         speed_bucket_bounds self !! s = Some sb → epe_bucket_bounds self !! e = Some eb →
         tensor4_get (per_class_bucketed_error_sum self) (c, k, s, e) = Some x →
         tensor4_get (per_class_bucketed_error_count self) (c, k, s, e) = Some n →
         let selected := bool_decide (k = class_index)
                         && bool_decide (c = proximity_index close)
                         && in_bucket v sb && in_bucket err eb in
         tensor4_get (per_class_bucketed_error_sum self') (c, k, s, e)
         = Some (if selected then F32.add x err else x) ∧
         tensor4_get (per_class_bucketed_error_count self') (c, k, s, e)
         = Some (if selected then I64.add n 1 else n)) ∧
    (sorted (speed_bucket_splits_meters_per_second self) = true →
     sorted (endpoint_error_splits_meters self) = true →
     ∀ close v err s e sb eb,
       is_close_mask = [close] → gt_speeds = [v] → endpoint_errors = [err] →
       speed_bucket_bounds self !! s = Some sb → in_bucket v sb = true →
       epe_bucket_bounds self !! e = Some eb → in_bucket err eb = true →
       ∀ c' k' s' e' x n,
         tensor4_get (per_class_bucketed_error_sum self) (c', k', s', e') = Some x →
         tensor4_get (per_class_bucketed_error_count self) (c', k', s', e') = Some n →
         tensor4_get (per_class_bucketed_error_sum self') (c', k', s', e')
         = Some (if decide ((c', k', s', e') = (proximity_index close, class_index, s, e))
                 then F32.add x err else x) ∧
         tensor4_get (per_class_bucketed_error_count self') (c', k', s', e')
         = Some (if decide ((c', k', s', e') = (proximity_index close, class_index, s, e))
                 then I64.add n 1 else n)) ∧
    (∃ self'',
       run (update_class_error_per_point pc class_id regressed_flow gt_flow) self
       = (Return tt, self'') ∧
       same_outside_accumulators self self'' ∧
       per_class_bucketed_error_count self'' = per_class_bucketed_error_count self').
Proof.
  intros Hwf Hshape Hk. cbn zeta.
  destruct (update_class_error_cells self pc regressed_flow gt_flow class_id class_index)
    as (self' & Hrun & Hsame & Hwf' & Hcells); [done..|].
  exists self'. split; [done|]. split; [done|]. split; [done|].
  split.
  { intros i close v err c s e sb eb Hclose Hv Herr Hc Hsb Heb.
    rewrite (total_mask_lookup _ _ _ _ _ _ _ _ close v err) by done.
    rewrite proximity_bit by done.
    by rewrite (list_lookup_total_correct _ _ _ Hsb), (list_lookup_total_correct _ _ _ Heb). }
  split; [intros; by eapply total_mask_one_cell|].
  split; [exact Hcells|].
  assert (∀ close v err,
    is_close_mask_of (close_object_threshold_meters self) pc = [close] →
    gt_speeds_of (per_frame_to_per_second_scale_factor self) gt_flow = [v] →
    endpoint_errors_of regressed_flow gt_flow = [err] →
    ∀ c k s e sb eb x n,
      speed_bucket_bounds self !! s = Some sb → epe_bucket_bounds self !! e = Some eb →
      tensor4_get (per_class_bucketed_error_sum self) (c, k, s, e) = Some x →
      tensor4_get (per_class_bucketed_error_count self) (c, k, s, e) = Some n →
      tensor4_get (per_class_bucketed_error_sum self') (c, k, s, e)
      = Some (if bool_decide (k = class_index) && bool_decide (c = proximity_index close)
                 && in_bucket v sb && in_bucket err eb
              then F32.add x err else x) ∧
      tensor4_get (per_class_bucketed_error_count self') (c, k, s, e)
      = Some (if bool_decide (k = class_index) && bool_decide (c = proximity_index close)
                 && in_bucket v sb && in_bucket err eb
              then I64.add n 1 else n)) as Hone.
  { intros close v err Hclose Hv Herr c k s e sb eb x n Hsb Heb Hx Hn.
    pose proof (update_class_error_one_point self pc regressed_flow gt_flow class_id
                  class_index close v err Hwf Hshape Hk Hclose Hv Herr
                  c k s e sb eb x n Hsb Heb Hx Hn) as H.
    cbn zeta in H. by rewrite Hrun in H. }
  split; [exact Hone|].
  split.
  - intros Hincs Hince close v err s e sb eb Hclose Hv Herr Hsb Hinv Heb Hine
      c' k' s' e' x n Hx Hn.
    destruct (wf_cell_in_shape _ _ _ _ _ _ Hwf Hx) as (Hc' & Hs' & He' & _).
    destruct (lookup_lt_is_Some_2 _ _ Hs') as [sb' Hsb'].
    destruct (lookup_lt_is_Some_2 _ _ He') as [eb' Heb'].
    destruct (Hone close v err Hclose Hv Herr c' k' s' e' sb' eb' x n Hsb' Heb' Hx Hn)
      as [-> ->].
    assert (bool_decide (k' = class_index) && bool_decide (c' = proximity_index close)
            && in_bucket v sb' && in_bucket err eb'
            = bool_decide ((c', k', s', e') = (proximity_index close, class_index, s, e)))
      as ->.
    { apply bool_eq_iff. rewrite !andb_true_iff, !bool_decide_eq_true. split.
      - intros [[[-> ->] Hs1] He1].
        assert (s' = s) as ->
          by exact (in_bucket_unique (speed_bucket_splits_meters_per_second self)
                      v s' s sb' sb Hincs Hsb' Hsb Hs1 Hinv).
        assert (e' = e) as ->
          by exact (in_bucket_unique (endpoint_error_splits_meters self)
                      err e' e eb' eb Hince Heb' Heb He1 Hine).
        done.
      - intros [= -> -> -> ->]. rewrite Hsb in Hsb'. rewrite Heb in Heb'.
        injection Hsb' as <-. injection Heb' as <-. done. }
    by destruct (decide _); [rewrite bool_decide_true|rewrite bool_decide_false].
  - destruct pc as [ps n_pc], regressed_flow as [rs n_flow], gt_flow as [gs n_gt].
    pose proof Hshape as Hshape'.
    apply shape_check_unfold in Hshape' as (Hrg & Hlen & Hn). cbn in Hrg, Hlen, Hn.
    injection Hrg as Hrg <-.
    destruct (per_point_counts n_pc n_flow self class_id class_index ps rs gs)
      as (self'' & Hrun'' & _ & Hsame'' & Hcount); try done; [lia|].
    exists self''. split; [done|]. split; [done|].
    rewrite Hcount. rewrite (update_class_error_ok _ _ _ _ _ class_index) in Hrun by done.
    by injection Hrun as <-.
Qed.

Lemma update_class_error_effect_witness :
  wf example_metric = true ∧
  shape_check one_point unit_flow zero_flow = true ∧
  class_id_to_index_map example_metric !! 7 = Some 1%nat ∧
  sorted (speed_bucket_splits_meters_per_second example_metric) = true ∧
  sorted (endpoint_error_splits_meters example_metric) = true ∧
  endpoint_errors_of unit_flow zero_flow = [F32.of_Z 1] ∧
  ∃ self' self'',
    run (update_class_error one_point 7 unit_flow zero_flow) example_metric
    = (Return tt, self') ∧
    tensor4_get (per_class_bucketed_error_sum self') (0, 1, 0, 1)%nat
    = Some (F32.add F32.zero (F32.of_Z 1)) ∧
    tensor4_get (per_class_bucketed_error_count self') (0, 1, 0, 1)%nat = Some 1 ∧
    tensor4_get (per_class_bucketed_error_sum self') (0, 1, 0, 0)%nat = Some F32.zero ∧
    tensor4_get (per_class_bucketed_error_count self') (1, 1, 0, 1)%nat = Some 0 ∧
    run (update_class_error_per_point one_point 7 unit_flow zero_flow) example_metric
    = (Return tt, self'') ∧
    per_class_bucketed_error_count self'' = per_class_bucketed_error_count self'.
Proof.
  do 6 (split; [vm_compute; reflexivity|]).
  destruct (update_class_error_effect example_metric one_point unit_flow zero_flow 7 1
              eq_refl eq_refl eq_refl)
    as (self' & Hrun & _ & _ & _ & _ & _ & _ & Hcell & self'' & Hper & _ & Hcount).
  pose proof (Hcell eq_refl eq_refl true F32.zero (F32.of_Z 1) 0%nat 1%nat
                (F32.of_Z 0, F32.of_Z 5) (F32.of_Z 1, F32.infinity)
                eq_refl eq_refl eq_refl eq_refl eq_refl eq_refl eq_refl) as H.
  exists self', self''. split; [exact Hrun|].
  split; [exact (proj1 (H 0%nat 1%nat 0%nat 1%nat F32.zero 0 eq_refl eq_refl))|].
  split; [exact (proj2 (H 0%nat 1%nat 0%nat 1%nat F32.zero 0 eq_refl eq_refl))|].
  split; [exact (proj1 (H 0%nat 1%nat 0%nat 0%nat F32.zero 0 eq_refl eq_refl))|].
  split; [exact (proj2 (H 1%nat 1%nat 0%nat 1%nat F32.zero 0 eq_refl eq_refl))|].
  split; [exact Hper|exact Hcount].
Defined.

(* ===================================================================== *)
(** * Classification into buckets *)
(* ===================================================================== *)

(** C2, as stated, fails on a sorted list in which a boundary is repeated.
    With the speed boundaries 0, 10, 10, 20 and a point of speed 10, the
    upper bound of the bucket [0, 10): the point is not counted in the next
    bucket, which is the empty [10, 10), but in the one after it. The
    speed is 10 times the norm of the flow (1, 0, 0), computed by the
    kernel [sequential]. *)
Lemma upper_bound_skips_an_empty_bucket :
  sorted (speed_bucket_splits_meters_per_second repeated_boundary_metric) = true ∧
  speed_bucket_bounds repeated_boundary_metric
  = [(F32.of_Z 0, F32.of_Z 10); (F32.of_Z 10, F32.of_Z 10); (F32.of_Z 10, F32.of_Z 20)] ∧
  gt_speeds_of (per_frame_to_per_second_scale_factor repeated_boundary_metric) unit_flow
  = [F32.of_Z 10] ∧
  let self' := (run (update_class_error one_point 7 unit_flow unit_flow)
                    repeated_boundary_metric).2 in
  tensor4_get (per_class_bucketed_error_count self') (0, 1, 0, 0)%nat = Some 0 ∧
  tensor4_get (per_class_bucketed_error_count self') (0, 1, 1, 0)%nat = Some 0 ∧
  tensor4_get (per_class_bucketed_error_count self') (0, 1, 2, 0)%nat = Some 1.
Proof. cbn zeta. repeat split; vm_compute; reflexivity. Qed.

(** C2, amended: the speed buckets and the error buckets are derived alike
    from their boundaries. A list of [N] boundaries yields [N - 1] buckets,
    the [i]-th being the pair of the boundaries [i] and [i + 1], and the
    accumulators have one index per bucket. For a call of
    [update_class_error] that passes the assertions, on a class of the
    table: the iteration of the speed bucket [s] and of the error bucket
    [e] counts the point [i] exactly when
    [boundaries[s] <= speed < boundaries[s+1]] and
    [boundaries[e] <= error < boundaries[e+1]], in the slice of its
    proximity; so a call on a single point adds 1 to the count of the cells
    for which these tests hold and leaves the other counts as they were.
    When the boundaries are sorted, which allows equal neighbours, a value
    lies in at most one bucket. A value equal to the upper bound of bucket
    [i] is not in bucket [i]; it is in bucket [i + 1] if and only if the
    boundary [i + 2] is strictly above it, and otherwise in a later bucket
    or in none. The comparisons are those of binary32. *)
Theorem bucket_classification {R : Reductions}
    (self : Metric) (pc regressed_flow gt_flow : Tensor) (class_id : Z) (class_index : nat) :
  wf self = true →
  shape_check pc regressed_flow gt_flow = true →
  class_id_to_index_map self !! class_id = Some class_index →
  let speed_splits := speed_bucket_splits_meters_per_second self in
  let epe_splits := endpoint_error_splits_meters self in
  let is_close_mask := is_close_mask_of (close_object_threshold_meters self) pc in
  let gt_speeds := gt_speeds_of (per_frame_to_per_second_scale_factor self) gt_flow in
  let endpoint_errors := endpoint_errors_of regressed_flow gt_flow in
  let total_mask := total_mask_at self pc regressed_flow gt_flow in
  length (speed_bucket_bounds self) = (length speed_splits - 1)%nat ∧
  length (epe_bucket_bounds self) = (length epe_splits - 1)%nat ∧
  (∀ i lo hi, speed_bucket_bounds self !! i = Some (lo, hi)
              ↔ speed_splits !! i = Some lo ∧ speed_splits !! S i = Some hi) ∧
  (∀ i lo hi, epe_bucket_bounds self !! i = Some (lo, hi)
              ↔ epe_splits !! i = Some lo ∧ epe_splits !! S i = Some hi) ∧
  (∃ self',
     run (update_class_error pc class_id regressed_flow gt_flow) self = (Return tt, self') ∧
     has_shape (per_class_bucketed_error_count self') 2 (size (class_id_to_index_map self))
       (length speed_splits - 1) (length epe_splits - 1) = true ∧
     (∀ c k s e n,
        tensor4_get (per_class_bucketed_error_count self) (c, k, s, e) = Some n →
        tensor4_get (per_class_bucketed_error_count self') (c, k, s, e)
        = Some (if decide (k = class_index)
                then I64.add n (torch_sum_mask (total_mask c s e)) else n)) ∧
     (∀ i close v err c s e lo hi elo ehi,
        is_close_mask !! i = Some close →
        gt_speeds !! i = Some v → endpoint_errors !! i = Some err →
        (c < 2)%nat →
        speed_splits !! s = Some lo → speed_splits !! S s = Some hi →
        epe_splits !! e = Some elo → epe_splits !! S e = Some ehi →
        total_mask c s e !! i
        = Some (bool_decide (c = proximity_index close)
                && (F32.leb lo v && F32.ltb v hi)
                && (F32.leb elo err && F32.ltb err ehi))) ∧
     (∀ close v err,
        is_close_mask = [close] → gt_speeds = [v] → endpoint_errors = [err] →
        ∀ c k s e lo hi elo ehi n,
          speed_splits !! s = Some lo → speed_splits !! S s = Some hi →
          epe_splits !! e = Some elo → epe_splits !! S e = Some ehi →
          tensor4_get (per_class_bucketed_error_count self) (c, k, s, e) = Some n →
          tensor4_get (per_class_bucketed_error_count self') (c, k, s, e)
          = Some (if bool_decide (k = class_index)
                     && bool_decide (c = proximity_index close)
                     && (F32.leb lo v && F32.ltb v hi)
                     && (F32.leb elo err && F32.ltb err ehi)
                  then I64.add n 1 else n))) ∧
  (∀ splits v i j b b',
     sorted splits = true →
     bucket_bounds splits !! i = Some b → bucket_bounds splits !! j = Some b' →
     in_bucket v b = true → in_bucket v b' = true → i = j) ∧
  (∀ splits i lo hi,
     bucket_bounds splits !! i = Some (lo, hi) →
     in_bucket hi (lo, hi) = false ∧
     ∀ hi', sorted splits = true → splits !! S (S i) = Some hi' →
            bucket_bounds splits !! S i = Some (hi, hi') ∧
            in_bucket hi (hi, hi') = F32.ltb hi hi').
Proof.
  intros Hwf Hshape Hk. cbn zeta.
  split; [apply bucket_bounds_length|]. split; [apply bucket_bounds_length|].
  split; [intros; apply bucket_bounds_lookup|].
  split; [intros; apply bucket_bounds_lookup|].
  split; [|split].
  - destruct (update_class_error_cells self pc regressed_flow gt_flow class_id class_index)
      as (self' & Hrun & Hsame & Hwf' & Hcells); [done..|].
    exists self'. split; [done|]. split; [|split; [|split]].
    + destruct (wf_unfold _ Hwf') as (_ & Hc & _).
      destruct Hsame as (_ & Hm & Hss & Hes & _).
      unfold speed_bucket_bounds, epe_bucket_bounds in Hc.
      by rewrite Hm, Hss, Hes, !bucket_bounds_length in Hc.
    + intros c k s e n Hn.
      assert (is_Some (tensor4_get (per_class_bucketed_error_sum self) (c, k, s, e)))
        as [x Hx].
      { destruct (wf_unfold _ Hwf) as (Hs & Hc & _).
        eapply has_shape_get; [exact Hs|]. eapply has_shape_get; [exact Hc|eauto]. }
      exact (proj2 (Hcells c k s e x n Hx Hn)).
    + intros i close v err c s e lo hi elo ehi Hclose Hv Herr Hc Hlo Hhi Helo Hehi.
      assert (speed_bucket_bounds self !! s = Some (lo, hi)) as Hsb
        by (by apply bucket_bounds_lookup).
      assert (epe_bucket_bounds self !! e = Some (elo, ehi)) as Heb
        by (by apply bucket_bounds_lookup).
      rewrite (total_mask_lookup _ _ _ _ _ _ _ _ close v err) by done.
      rewrite proximity_bit by done.
      by rewrite (list_lookup_total_correct _ _ _ Hsb), (list_lookup_total_correct _ _ _ Heb).
    + intros close v err Hclose Hv Herr c k s e lo hi elo ehi n Hlo Hhi Helo Hehi Hn.
      assert (speed_bucket_bounds self !! s = Some (lo, hi)) as Hsb
        by (by apply bucket_bounds_lookup).
      assert (epe_bucket_bounds self !! e = Some (elo, ehi)) as Heb
        by (by apply bucket_bounds_lookup).
      assert (is_Some (tensor4_get (per_class_bucketed_error_sum self) (c, k, s, e)))
        as [x Hx].
      { destruct (wf_unfold _ Hwf) as (Hs & Hc & _).
        eapply has_shape_get; [exact Hs|]. eapply has_shape_get; [exact Hc|eauto]. }
      pose proof (update_class_error_one_point self pc regressed_flow gt_flow class_id
                    class_index close v err Hwf Hshape Hk Hclose Hv Herr
                    c k s e _ _ x n Hsb Heb Hx Hn) as H.
      cbn zeta in H. rewrite Hrun in H. exact (proj2 H).
  - intros splits v i j b b' Hs. by apply in_bucket_unique.
  - intros splits i lo hi Hb. split.
    + unfold in_bucket. cbn. by rewrite F32Order.ltb_irrefl, andb_false_r.
    + intros hi' Hs Hhi'. apply bucket_bounds_lookup in Hb as [Hlo Hhi].
      split; [by apply bucket_bounds_lookup|].
      unfold in_bucket, F32.geb. cbn.
      rewrite F32Order.leb_refl; [done|].
      eapply F32Order.leb_not_nan_r. exact (sorted_adjacent splits i lo hi Hs Hlo Hhi).
Qed.

Lemma bucket_classification_witness :
  wf repeated_boundary_metric = true ∧
  shape_check one_point unit_flow unit_flow = true ∧
  class_id_to_index_map repeated_boundary_metric !! 7 = Some 1%nat ∧
  gt_speeds_of (per_frame_to_per_second_scale_factor repeated_boundary_metric) unit_flow
  = [F32.of_Z 10] ∧
  length (speed_bucket_bounds repeated_boundary_metric) = 3%nat ∧
  ∃ self',
    run (update_class_error one_point 7 unit_flow unit_flow) repeated_boundary_metric
    = (Return tt, self') ∧
    tensor4_get (per_class_bucketed_error_count self') (0, 1, 0, 0)%nat = Some 0 ∧
    tensor4_get (per_class_bucketed_error_count self') (0, 1, 1, 0)%nat = Some 0 ∧
    tensor4_get (per_class_bucketed_error_count self') (0, 1, 2, 0)%nat = Some 1.
Proof.
  do 4 (split; [vm_compute; reflexivity|]).
  destruct (bucket_classification repeated_boundary_metric one_point unit_flow unit_flow
              7 1 eq_refl eq_refl eq_refl)
    as (Hlen & _ & _ & _ & (self' & Hrun & _ & _ & _ & Hone) & _).
  split; [exact Hlen|].
  pose proof (Hone true (F32.of_Z 10) F32.zero eq_refl eq_refl eq_refl) as H.
  exists self'. split; [exact Hrun|].
  split; [exact (H 0%nat 1%nat 0%nat 0%nat (F32.of_Z 0) (F32.of_Z 10) (F32.of_Z 0)
                   (F32.of_Z 1) 0 eq_refl eq_refl eq_refl eq_refl eq_refl)|].
  split; [exact (H 0%nat 1%nat 1%nat 0%nat (F32.of_Z 10) (F32.of_Z 10) (F32.of_Z 0)
                   (F32.of_Z 1) 0 eq_refl eq_refl eq_refl eq_refl eq_refl)|].
  exact (H 0%nat 1%nat 2%nat 0%nat (F32.of_Z 10) (F32.of_Z 20) (F32.of_Z 0)
           (F32.of_Z 1) 0 eq_refl eq_refl eq_refl eq_refl eq_refl).
Defined.

(* ===================================================================== *)
(** * The two proximity slices *)
(* ===================================================================== *)

(** C9: for a call of [update_class_error] that passes the assertions, on
    a class of the table:
    - a point with coordinates [(x, y, z)] is classified close exactly
      when [max(|x|, |y|) <= close_object_threshold_meters], the comparison
      being inclusive, so that a point at exactly the threshold is close;
      the far mask is the complement of the close mask;
    - in every speed and error bucket, the call adds to the count of the
      close slice the number of close points of that bucket and to the
      count of the far slice the number of its far points, and the two
      numbers sum to the number of points of that bucket: no point is
      dropped and none is counted twice on the proximity axis;
    - a call on a single point whose speed and error are in the buckets
      adds 1 to the count of the slice of the point and leaves the count
      of the other slice as it was.
    The threshold of a metric built with the defaults is 35. *)
Theorem proximity_partition {R : Reductions}
    (self : Metric) (pc regressed_flow gt_flow : Tensor) (class_id : Z) (class_index : nat) :
  wf self = true →
  shape_check pc regressed_flow gt_flow = true →
  class_id_to_index_map self !! class_id = Some class_index →
  let threshold := close_object_threshold_meters self in
  let is_close_mask := is_close_mask_of threshold pc in
  let gt_speeds := gt_speeds_of (per_frame_to_per_second_scale_factor self) gt_flow in
  let endpoint_errors := endpoint_errors_of regressed_flow gt_flow in
  ∃ self',
    run (update_class_error pc class_id regressed_flow gt_flow) self = (Return tt, self') ∧
    (∀ i x y z,
       rows pc !! i = Some [x; y; z] →
       let distance := F32.max (F32.abs x) (F32.abs y) in
       is_close_mask !! i = Some (F32.leb distance threshold) ∧
       mask_not is_close_mask !! i = Some (negb (F32.leb distance threshold)) ∧
       (distance = threshold → F32.is_nan threshold = false →
          is_close_mask !! i = Some true)) ∧
    (∀ s e sb eb n_close n_far,
       speed_bucket_bounds self !! s = Some sb → epe_bucket_bounds self !! e = Some eb →
       tensor4_get (per_class_bucketed_error_count self) (0, class_index, s, e)%nat
       = Some n_close →
       tensor4_get (per_class_bucketed_error_count self) (1, class_index, s, e)%nat
       = Some n_far →
       let in_buckets :=
         mask_and (bucket_mask gt_speeds sb) (bucket_mask endpoint_errors eb) in
       let close_points := torch_sum_mask (mask_and is_close_mask in_buckets) in
       let far_points := torch_sum_mask (mask_and (mask_not is_close_mask) in_buckets) in
       tensor4_get (per_class_bucketed_error_count self') (0, class_index, s, e)%nat
       = Some (I64.add n_close close_points) ∧
       tensor4_get (per_class_bucketed_error_count self') (1, class_index, s, e)%nat
       = Some (I64.add n_far far_points) ∧
       close_points + far_points = torch_sum_mask in_buckets) ∧
    (∀ close v err,
       is_close_mask = [close] → gt_speeds = [v] → endpoint_errors = [err] →
       ∀ s e sb eb n_close n_far,
         speed_bucket_bounds self !! s = Some sb → in_bucket v sb = true →
         epe_bucket_bounds self !! e = Some eb → in_bucket err eb = true →
         tensor4_get (per_class_bucketed_error_count self) (0, class_index, s, e)%nat
         = Some n_close →
         tensor4_get (per_class_bucketed_error_count self) (1, class_index, s, e)%nat
         = Some n_far →
         tensor4_get (per_class_bucketed_error_count self') (0, class_index, s, e)%nat
         = Some (if close then I64.add n_close 1 else n_close) ∧
         tensor4_get (per_class_bucketed_error_count self') (1, class_index, s, e)%nat
         = Some (if close then n_far else I64.add n_far 1)) ∧
    (∀ items speed_splits epe_splits,
       close_object_threshold_meters (init_default items speed_splits epe_splits)
       = F32.of_Z 35).
Proof.
  intros Hwf Hshape Hk. cbn zeta.
  destruct (update_class_error_cells self pc regressed_flow gt_flow class_id class_index)
    as (self' & Hrun & _ & _ & Hcells); [done..|].
  assert (∀ c k s e n,
    tensor4_get (per_class_bucketed_error_count self) (c, k, s, e) = Some n →
    is_Some (tensor4_get (per_class_bucketed_error_sum self) (c, k, s, e))) as Hsum.
  { intros c k s e n Hn. destruct (wf_unfold _ Hwf) as (Hs & Hc & _).
    eapply has_shape_get; [exact Hs|]. eapply has_shape_get; [exact Hc|eauto]. }
  exists self'. split; [done|]. split; [|split; [|split; [|done]]].
  - intros i x y z Hrow. cbn zeta.
    assert (is_close_mask_of (close_object_threshold_meters self) pc !! i
            = Some (F32.leb (F32.max (F32.abs x) (F32.abs y))
                            (close_object_threshold_meters self))) as Hclose
      by (by rewrite (is_close_mask_lookup _ _ _ _ Hrow)).
    split; [done|]. split.
    + unfold mask_not. by rewrite list_lookup_fmap, Hclose.
    + intros Heq Hnan. rewrite Hclose, Heq. f_equal. by apply F32Order.leb_refl.
  - intros s e sb eb n_close n_far Hsb Heb Hn0 Hn1. cbn zeta.
    destruct (Hsum _ _ _ _ _ Hn0) as [x0 Hx0]. destruct (Hsum _ _ _ _ _ Hn1) as [x1 Hx1].
    pose proof (proj2 (Hcells _ _ _ _ _ _ Hx0 Hn0)) as H0.
    pose proof (proj2 (Hcells _ _ _ _ _ _ Hx1 Hn1)) as H1.
    rewrite decide_True in H0, H1 by done.
    unfold cell_error_count, total_mask_at in H0, H1.
    rewrite (list_lookup_total_correct _ _ _ Hsb), (list_lookup_total_correct _ _ _ Heb)
      in H0, H1.
    cbn [lookup_total list_lookup_total] in H0, H1.
    rewrite mask_and_assoc in H0, H1.
    split; [done|]. split; [done|].
    apply torch_sum_mask_split.
    apply shape_check_unfold in Hshape as (Hrg & Hlen & _). injection Hrg as Hrg _.
    unfold mask_and. rewrite length_zip_with, !bucket_mask_length.
    rewrite is_close_mask_length, gt_speeds_length.
    rewrite endpoint_errors_length by done. lia.
  - intros close v err Hclose Hv Herr s e sb eb n_close n_far Hsb Hinv Heb Hine Hn0 Hn1.
    destruct (Hsum _ _ _ _ _ Hn0) as [x0 Hx0]. destruct (Hsum _ _ _ _ _ Hn1) as [x1 Hx1].
    pose proof (update_class_error_one_point self pc regressed_flow gt_flow class_id
                  class_index close v err Hwf Hshape Hk Hclose Hv Herr
                  0%nat class_index s e sb eb x0 n_close Hsb Heb Hx0 Hn0) as H0.
    pose proof (update_class_error_one_point self pc regressed_flow gt_flow class_id
                  class_index close v err Hwf Hshape Hk Hclose Hv Herr
                  1%nat class_index s e sb eb x1 n_far Hsb Heb Hx1 Hn1) as H1.
    cbn zeta in H0, H1. rewrite Hrun, Hinv, Hine in H0, H1. cbn [snd] in H0, H1.
    rewrite (bool_decide_true (class_index = class_index)) in H0, H1 by done.
    rewrite (proj2 H0), (proj2 H1). by destruct close.
Qed.

Lemma proximity_partition_witness :
  wf example_metric = true ∧
  shape_check point_at_threshold zero_flow zero_flow = true ∧
  class_id_to_index_map example_metric !! 7 = Some 1%nat ∧
  rows point_at_threshold !! 0%nat = Some [F32.of_Z (-35); F32.of_Z 0; F32.of_Z 1] ∧
  close_object_threshold_meters example_metric = F32.of_Z 35 ∧
  is_close_mask_of (close_object_threshold_meters example_metric) point_at_threshold
  = [true] ∧
  ∃ self',
    run (update_class_error point_at_threshold 7 zero_flow zero_flow) example_metric
    = (Return tt, self') ∧
    tensor4_get (per_class_bucketed_error_count self') (0, 1, 0, 0)%nat = Some 1 ∧
    tensor4_get (per_class_bucketed_error_count self') (1, 1, 0, 0)%nat = Some 0.
Proof.
  do 6 (split; [vm_compute; reflexivity|]).
  destruct (proximity_partition example_metric point_at_threshold zero_flow zero_flow 7 1
              eq_refl eq_refl eq_refl)
    as (self' & Hrun & _ & _ & Hone & _).
  exists self'. split; [exact Hrun|].
  exact (Hone true F32.zero F32.zero eq_refl eq_refl eq_refl 0%nat 0%nat
           (F32.of_Z 0, F32.of_Z 5) (F32.of_Z 0, F32.of_Z 1) 0 0
           eq_refl eq_refl eq_refl eq_refl eq_refl eq_refl).
Defined.

(* ===================================================================== *)
(** * Summing the stack of the processes *)
(* ===================================================================== *)

(** ** Lifting element-wise laws through the dimensions of a tensor *)

Lemma zip_with_zero_comm {A} (f : A → A → A) (z : A → A) :
  (∀ x y, f (f (z x) x) y = f (f (z y) y) x) →
  ∀ l k, zip_with f (zip_with f (z <$> l) l) k = zip_with f (zip_with f (z <$> k) k) l.
Proof.
  intros H. induction l as [|x l IH]; intros [|y k]; cbn; try done.
  by rewrite H, IH.
Qed.

Lemma zip_with_zero_assoc {A} (f : A → A → A) (z : A → A) :
  (∀ x y w, f (f (z (f (f (z x) x) y)) (f (f (z x) x) y)) w
            = f (f (z x) x) (f (f (z y) y) w)) →
  ∀ l k m,
    zip_with f (zip_with f (z <$> zip_with f (zip_with f (z <$> l) l) k)
                           (zip_with f (zip_with f (z <$> l) l) k)) m
    = zip_with f (zip_with f (z <$> l) l) (zip_with f (zip_with f (z <$> k) k) m).
Proof.
  intros H. induction l as [|x l IH]; intros [|y k] [|w m]; cbn; try done.
  by rewrite H, IH.
Qed.

Lemma zip_with_right_comm {A} (f : A → A → A) :
  (∀ a x y, f (f a x) y = f (f a y) x) →
  ∀ acc l k, zip_with f (zip_with f acc l) k = zip_with f (zip_with f acc k) l.
Proof.
  intros H. induction acc as [|a acc IH]; intros [|x l] [|y k]; cbn; try done.
  by rewrite H, IH.
Qed.

Lemma foldl_permutation {A B} (f : A → B → A) (l l' : list B) :
  (∀ a x y, f (f a x) y = f (f a y) x) →
  l ≡ₚ l' → ∀ a, foldl f a l = foldl f a l'.
Proof.
  intros H Hp. induction Hp as [|x l l' Hp IH|x y l|l l' l'' Hp1 IH1 Hp2 IH2]; intros a; cbn.
  - done.
  - apply IH.
  - by rewrite H.
  - by rewrite IH1, IH2.
Qed.

(** ** The element-wise laws *)

Lemma f32_sum_pair_comm x y :
  F32.add (F32.add F32.zero x) y = F32.add (F32.add F32.zero y) x.
Proof.
  destruct x as [[]|[]| |sx mx ex], y as [[]|[]| |sy my ey]; try reflexivity.
  change (F32.add F32.zero (S754_finite sx mx ex)) with (S754_finite sx mx ex).
  change (F32.add F32.zero (S754_finite sy my ey)) with (S754_finite sy my ey).
  apply F32Facts.f32_add_comm.
Qed.

Lemma i64_sum_pair_assoc x y w :
  I64.add (I64.add 0 (I64.add (I64.add 0 x) y)) w
  = I64.add (I64.add 0 x) (I64.add (I64.add 0 y) w).
Proof.
  unfold I64.add. rewrite !Z.add_0_l, !I64Facts.wrap_wrap.
  rewrite !I64Facts.wrap_add_l, !I64Facts.wrap_add_r, ?I64Facts.wrap_add_l.
  rewrite <- Z.add_assoc, I64Facts.wrap_add_l. done.
Qed.

Lemma i64_add_right_comm a x y : I64.add (I64.add a x) y = I64.add (I64.add a y) x.
Proof. rewrite !I64Facts.i64_add_add. f_equal. lia. Qed.

(** ** The sums of [gather] *)

Lemma tensor4_zero_fmap {A} (z : A) (t : tensor4 A) :
  tensor4_zero z t
  = fmap (M := list) (fmap (M := list) (fmap (M := list) (fmap (M := list) (λ _, z)))) t.
Proof. reflexivity. Qed.

Lemma sum_dim0_tensor4_float_pair a b :
  sum_dim0_tensor4_float [a; b] = sum_dim0_tensor4_float [b; a].
Proof.
  unfold sum_dim0_tensor4_float, tensor4_zip_with. cbn [foldl]. rewrite !tensor4_zero_fmap.
  apply zip_with_zero_comm. intros t1 u1.
  apply zip_with_zero_comm. intros t2 u2.
  apply zip_with_zero_comm. intros t3 u3.
  apply zip_with_zero_comm. intros x y. apply f32_sum_pair_comm.
Qed.

Lemma i64_sum_pair_comm x y :
  I64.add (I64.add 0 x) y = I64.add (I64.add 0 y) x.
Proof. apply i64_add_right_comm. Qed.

Lemma sum_dim0_tensor4_long_pair a b :
  sum_dim0_tensor4_long [a; b] = sum_dim0_tensor4_long [b; a].
Proof.
  unfold sum_dim0_tensor4_long, tensor4_zip_with. cbn [foldl]. rewrite !tensor4_zero_fmap.
  apply zip_with_zero_comm. intros t1 u1.
  apply zip_with_zero_comm. intros t2 u2.
  apply zip_with_zero_comm. intros t3 u3.
  apply zip_with_zero_comm. intros x y. apply i64_sum_pair_comm.
Qed.

Lemma sum_dim0_tensor4_long_assoc a b c :
  sum_dim0_tensor4_long [sum_dim0_tensor4_long [a; b]; c]
  = sum_dim0_tensor4_long [a; sum_dim0_tensor4_long [b; c]].
Proof.
  unfold sum_dim0_tensor4_long, tensor4_zip_with. cbn [foldl]. rewrite !tensor4_zero_fmap.
  apply zip_with_zero_assoc. intros t1 u1 v1.
  apply zip_with_zero_assoc. intros t2 u2 v2.
  apply zip_with_zero_assoc. intros t3 u3 v3.
  apply zip_with_zero_assoc. intros x y w. apply i64_sum_pair_assoc.
Qed.

Lemma fmap_replicate_Forall {A B} (f : A → B) (y : B) (l : list A) :
  Forall (λ x, f x = y) l → f <$> l = replicate (length l) y.
Proof. induction 1 as [|x l Hx _ IH]; [done|]. cbn. by rewrite Hx, IH. Qed.

Lemma tensor4_zero_full {A} (z : A) (t : tensor4 A) n0 n1 n2 n3 :
  has_shape t n0 n1 n2 n3 = true → tensor4_zero z t = tensor4_full z n0 n1 n2 n3.
Proof.
  unfold has_shape, tensor4_full. rewrite tensor4_zero_fmap.
  rewrite andb_true_iff, Nat.eqb_eq. intros [<- H].
  apply fmap_replicate_Forall.
  apply Is_true_true, forallb_True in H. eapply Forall_impl; [exact H|].
  intros t1 H1. cbn beta in H1.
  apply Is_true_true, andb_true_iff in H1 as [Hlen1 H1]. apply Nat.eqb_eq in Hlen1 as <-.
  apply fmap_replicate_Forall.
  apply Is_true_true, forallb_True in H1. eapply Forall_impl; [exact H1|].
  intros t2 H2. cbn beta in H2.
  apply Is_true_true, andb_true_iff in H2 as [Hlen2 H2]. apply Nat.eqb_eq in Hlen2 as <-.
  apply fmap_replicate_Forall.
  apply Is_true_true, forallb_True in H2. eapply Forall_impl; [exact H2|].
  intros t3 H3. cbn beta in H3. apply Is_true_true, Nat.eqb_eq in H3 as <-.
  apply fmap_replicate_Forall. by apply Forall_forall.
Qed.

Lemma tensor4_zip_with_right_comm {A} (f : A → A → A) :
  (∀ a x y, f (f a x) y = f (f a y) x) →
  ∀ acc t u : tensor4 A,
    tensor4_zip_with f (tensor4_zip_with f acc t) u
    = tensor4_zip_with f (tensor4_zip_with f acc u) t.
Proof.
  intros H. unfold tensor4_zip_with.
  by do 4 apply zip_with_right_comm.
Qed.

(** The sum of the count tensors does not depend on the order of the
    stack. *)
Lemma sum_dim0_tensor4_long_permutation (stack stack' : list (tensor4 Z)) n0 n1 n2 n3 :
  stack ≡ₚ stack' →
  Forall (λ t, has_shape t n0 n1 n2 n3 = true) stack →
  sum_dim0_tensor4_long stack = sum_dim0_tensor4_long stack'.
Proof.
  intros Hp Hshape.
  assert (Forall (λ t, has_shape t n0 n1 n2 n3 = true) stack') as Hshape'
    by (by rewrite <- Hp).
  unfold sum_dim0_tensor4_long.
  destruct stack as [|t stack], stack' as [|t' stack'].
  - done.
  - by apply Permutation_nil_cons in Hp.
  - symmetry in Hp. by apply Permutation_nil_cons in Hp.
  - apply Forall_cons in Hshape as [Ht _]. apply Forall_cons in Hshape' as [Ht' _].
    rewrite (tensor4_zero_full _ _ _ _ _ _ Ht), (tensor4_zero_full _ _ _ _ _ _ Ht').
    apply foldl_permutation; [|done].
    apply tensor4_zip_with_right_comm, i64_add_right_comm.
Qed.

Lemma sum_dim0_long_permutation (stack stack' : list Z) :
  stack ≡ₚ stack' → sum_dim0_long stack = sum_dim0_long stack'.
Proof. intros Hp. by apply foldl_permutation; [apply i64_add_right_comm|]. Qed.

(** C5, as stated, fails on the float tensors: float32 addition is not
    associative. With the sums [2^24], [1] and [1] in one cell of three
    processes, summing the first two and then the third gives [2^24], the
    first and then the sum of the other two gives [2^24 + 2]; and the
    stack in the orders (a, b, c) and (b, c, a) gives these two values. *)
Lemma float_sums_depend_on_the_order :
  g_error_sum (sum_stack [sum_stack [process_a; process_b]; process_c])
  = [[[[F32.of_Z 16777216]]]] ∧
  g_error_sum (sum_stack [process_a; sum_stack [process_b; process_c]])
  = [[[[F32.of_Z 16777218]]]] ∧
  sum_stack [sum_stack [process_a; process_b]; process_c]
  ≠ sum_stack [process_a; sum_stack [process_b; process_c]] ∧
  sum_stack [process_a; process_b; process_c]
  ≠ sum_stack [process_b; process_c; process_a].
Proof.
  split; [vm_compute; reflexivity|]. split; [vm_compute; reflexivity|].
  split; intros H; apply (f_equal g_error_sum) in H; vm_compute in H; discriminate.
Qed.

(** C5, amended: the sum of the stacks of two processes does not depend on
    their order, for all four tensors; on the two integer tensors,
    [error_count] and [total_forward_count], the sum is also associative,
    and the sum over a stack of any number of processes (whose count
    tensors have one shape) does not depend on the order of the stack. On
    the two float32 tensors, [error_sum] and [total_forward_time], sums of
    three or more processes depend on the order by the rounding of the
    additions. *)
Theorem gather_sum_laws :
  (∀ a b : gathered, sum_stack [a; b] = sum_stack [b; a]) ∧
  (∀ a b c : gathered,
     g_error_count (sum_stack [sum_stack [a; b]; c])
     = g_error_count (sum_stack [a; sum_stack [b; c]]) ∧
     g_forward_count (sum_stack [sum_stack [a; b]; c])
     = g_forward_count (sum_stack [a; sum_stack [b; c]])) ∧
  (∀ (stack stack' : list gathered) n0 n1 n2 n3,
     stack ≡ₚ stack' →
     Forall (λ g, has_shape (g_error_count g) n0 n1 n2 n3 = true) stack →
     g_error_count (sum_stack stack) = g_error_count (sum_stack stack') ∧
     g_forward_count (sum_stack stack) = g_forward_count (sum_stack stack')).
Proof.
  split; [|split].
  - intros a b. unfold sum_stack. cbn [fmap list_fmap]. f_equal.
    + apply sum_dim0_tensor4_float_pair.
    + apply sum_dim0_tensor4_long_pair.
    + apply f32_sum_pair_comm.
    + apply i64_sum_pair_comm.
  - intros a b c. split.
    + apply sum_dim0_tensor4_long_assoc.
    + apply i64_sum_pair_assoc.
  - intros stack stack' n0 n1 n2 n3 Hp Hshape. split.
    + cbn [sum_stack g_error_count].
      apply (sum_dim0_tensor4_long_permutation _ _ n0 n1 n2 n3).
      * by apply fmap_Permutation.
      * by apply Forall_fmap.
    + cbn [sum_stack g_forward_count].
      apply sum_dim0_long_permutation. by apply fmap_Permutation.
Qed.

Lemma gather_sum_laws_witness :
  [process_a; process_b; process_c] ≡ₚ [process_b; process_c; process_a] ∧
  Forall (λ g, has_shape (g_error_count g) 1 1 1 1 = true)
         [process_a; process_b; process_c] ∧
  g_error_count (sum_stack [process_a; process_b; process_c])
  = g_error_count (sum_stack [process_b; process_c; process_a]).
Proof.
  assert ([process_a; process_b; process_c] ≡ₚ [process_b; process_c; process_a]) as Hp.
  { change ([process_a] ++ [process_b; process_c] ≡ₚ [process_b; process_c] ++ [process_a]).
    apply Permutation_app_comm. }
  assert (Forall (λ g, has_shape (g_error_count g) 1 1 1 1 = true)
            [process_a; process_b; process_c]) as Hshape.
  { repeat constructor. }
  split; [exact Hp|]. split; [exact Hshape|].
  destruct gather_sum_laws as (_ & _ & Hperm).
  exact (proj1 (Hperm _ _ 1%nat 1%nat 1%nat 1%nat Hp Hshape)).
Defined.

(* ===================================================================== *)
(** * The end of a validation epoch *)
(* ===================================================================== *)

Lemma run_gather fn self :
  run (gather fn) self =
  (Return
     {| g_error_sum :=
          sum_dim0_tensor4_float (gather_tensor4_float fn (per_class_bucketed_error_sum self));
        g_error_count :=
          sum_dim0_tensor4_long (gather_tensor4_long fn (per_class_bucketed_error_count self));
        g_forward_time := sum_dim0_float (gather_float fn (total_forward_time self));
        g_forward_count := sum_dim0_long (gather_long fn (total_forward_count self)) |},
   self).
Proof. reflexivity. Qed.

(** The gather reads the tensors that the metric holds before the reset. *)
Lemma run_gather_then_reset fn w :
  run (gather_then_reset fn) w =
  (Return
     {| g_error_sum :=
          sum_dim0_tensor4_float
            (gather_tensor4_float fn (per_class_bucketed_error_sum (metric w)));
        g_error_count :=
          sum_dim0_tensor4_long
            (gather_tensor4_long fn (per_class_bucketed_error_count (metric w)));
        g_forward_time := sum_dim0_float (gather_float fn (total_forward_time (metric w)));
        g_forward_count := sum_dim0_long (gather_long fn (total_forward_count (metric w))) |},
   {| metric := (run reset (metric w)).2; global_rank := global_rank w |}).
Proof. reflexivity. Qed.

(** The only tensors that the phase hands to [all_gather] are those that
    the metric holds before the reset: two capabilities that agree on them
    give the same run. *)
Lemma gather_then_reset_passes_initial_tensors fn fn' w :
  gather_tensor4_float fn (per_class_bucketed_error_sum (metric w))
  = gather_tensor4_float fn' (per_class_bucketed_error_sum (metric w)) →
  gather_tensor4_long fn (per_class_bucketed_error_count (metric w))
  = gather_tensor4_long fn' (per_class_bucketed_error_count (metric w)) →
  gather_float fn (total_forward_time (metric w))
  = gather_float fn' (total_forward_time (metric w)) →
  gather_long fn (total_forward_count (metric w))
  = gather_long fn' (total_forward_count (metric w)) →
  run (gather_then_reset fn) w = run (gather_then_reset fn') w.
Proof. intros H1 H2 H3 H4. rewrite !run_gather_then_reset. by rewrite H1, H2, H3, H4. Qed.

(** The order matters: were the reset to come first, a process would pass
    zeros, and two processes holding the count 5 would obtain 5, not 10. *)
Lemma reset_first_would_lose_the_own_counts :
  let w := {| metric := set_error_count (tensor4_alter (λ _, 5) (0, 1, 0, 0)%nat)
                                        example_metric;
              global_rank := 0 |} in
  ∃ g w',
    run (on_metric reset ;; on_metric (gather (all_gather_at [metric w; metric w] 0))) w
    = (Return g, w') ∧
    tensor4_get (g_error_count g) (0, 1, 0, 0)%nat = Some 5.
Proof. cbn zeta. eexists _, _. split; vm_compute; reflexivity. Qed.
















(* ===================================================================== *)
(** * The report of an epoch without samples *)
(* ===================================================================== *)

Lemma f32_div_zero_not_finite x :
  F32.div x F32.zero = F32.nan ∨ ∃ s, F32.div x F32.zero = S754_infinity s.
Proof.
  destruct x as [[]|[]| |[] mx ex]; cbn; (by left) || (right; by eexists).
Qed.

(** C3, as stated, fails: with a single process that has run no sample,
    so that the gathered [total_forward_count] is 0, the epoch end on rank
    0 raises nothing and builds a report whose [average_forward_time] is
    NaN. *)
Lemma no_samples_report_is_nan :
  total_forward_count example_metric = 0 ∧
  ∃ d w',
    run (validation_epoch_end (all_gather_at [example_metric] 0))
        {| metric := example_metric; global_rank := 0 |}
    = (Return (Some d), w') ∧
    r_average_forward_time d = F32.nan.
Proof.
  split; [reflexivity|]. eexists _, _. split; [vm_compute; reflexivity|reflexivity].
Qed.

(** C3, amended: when the gathered [total_forward_count] is 0, the epoch
    end on rank 0 does not fail: it returns normally with a report whose
    [average_forward_time] is the float32 quotient of the gathered
    [total_forward_time] by zero, that is NaN or an infinity. *)
Theorem report_without_samples (fn : gather_fn) (w : ModelWrapper) :
  global_rank w = 0%nat →
  sum_dim0_long (gather_long fn (total_forward_count (metric w))) = 0 →
  ∃ d w',
    run (validation_epoch_end fn) w = (Return (Some d), w') ∧
    r_average_forward_time d
    = F32.div (sum_dim0_float (gather_float fn (total_forward_time (metric w)))) F32.zero ∧
    (r_average_forward_time d = F32.nan ∨
     ∃ s, r_average_forward_time d = S754_infinity s).
Proof.
  intros Hrank Hcount. eexists _, _. split.
  { unfold validation_epoch_end, run.
    erewrite run_bind by apply run_gather_then_reset.
    erewrite run_bind by reflexivity. cbn [global_rank]. rewrite Hrank. cbn [Nat.eqb negb].
    cbn [g_error_sum g_error_count g_forward_time g_forward_count]. rewrite Hcount.
    reflexivity. }
  cbn [r_average_forward_time]. split; [reflexivity|].
  apply f32_div_zero_not_finite.
Qed.

Lemma report_without_samples_witness :
  global_rank {| metric := example_metric; global_rank := 0 |} = 0%nat ∧
  sum_dim0_long (gather_long (all_gather_at [example_metric] 0)
                   (total_forward_count example_metric)) = 0 ∧
  ∃ d w',
    run (validation_epoch_end (all_gather_at [example_metric] 0))
        {| metric := example_metric; global_rank := 0 |}
    = (Return (Some d), w').
Proof.
  split; [reflexivity|]. split; [reflexivity|].
  destruct (report_without_samples (all_gather_at [example_metric] 0)
              {| metric := example_metric; global_rank := 0 |} eq_refl eq_refl)
    as (d & w' & Hrun & _).
  by exists d, w'.
Defined.

(* ===================================================================== *)
(** * Invariants and frames of the methods *)
(* ===================================================================== *)

Section preserves.
Context {St : Type} (I : St → Prop).

Lemma preserves_ret {A} (a : A) : preserves I (mret a : method St A).
Proof. by intros s H. Qed.

Lemma preserves_raise {A} e : preserves I (raise e : method St A).
Proof. by intros s H. Qed.

Lemma preserves_gets {A} (g : St → A) : preserves I (gets g).
Proof. by intros s H. Qed.

Lemma preserves_modify (f : St → St) : (∀ s, I s → I (f s)) → preserves I (modify f).
Proof. intros Hf s H. by apply Hf. Qed.

Lemma preserves_py_assert b msg : preserves I (py_assert b msg : method St unit).
Proof. intros s H. by destruct b. Qed.

Lemma preserves_bind {A B} (m : method St A) (k : A → method St B) :
  preserves I m → (∀ a, preserves I (k a)) → preserves I (m ≫= k).
Proof.
  intros Hm Hk s H. specialize (Hm s H). unfold mbind, method_bind.
  destruct (m s) as [[a|e] s']; cbn in *; [by apply Hk|done].
Qed.

Lemma preserves_for_each {A} (l : list A) (body : A → method St unit) :
  (∀ x, preserves I (body x)) → preserves I (for_each l body).
Proof.
  intros Hbody. induction l as [|x l IH]; [by apply preserves_ret|].
  cbn [for_each]. apply preserves_bind; [apply Hbody|]. by intros _.
Qed.
End preserves.

Section commutes.
Context {St : Type} (f : St → St).

Lemma commutes_ret {A} (a : A) : commutes f (mret a : method St A).
Proof. by intros s. Qed.

Lemma commutes_raise {A} e : commutes f (raise e : method St A).
Proof. by intros s. Qed.

Lemma commutes_gets {A} (g : St → A) : (∀ s, g (f s) = g s) → commutes f (gets g).
Proof. intros Hg s. unfold gets. by rewrite Hg. Qed.

Lemma commutes_py_assert b msg : commutes f (py_assert b msg : method St unit).
Proof. intros s. by destruct b. Qed.

Lemma commutes_bind {A B} (m : method St A) (k : A → method St B) :
  commutes f m → (∀ a, commutes f (k a)) → commutes f (m ≫= k).
Proof.
  intros Hm Hk s. unfold mbind, method_bind. rewrite Hm.
  destruct (m s) as [[a|e] s']; cbn; [apply Hk|done].
Qed.

Lemma commutes_for_each {A} (l : list A) (body : A → method St unit) :
  (∀ x, commutes f (body x)) → commutes f (for_each l body).
Proof.
  intros Hbody. induction l as [|x l IH]; [by apply commutes_ret|].
  cbn [for_each]. apply commutes_bind; [apply Hbody|]. by intros _.
Qed.
End commutes.

Lemma same_shape_refl {A} (t : tensor4 A) : same_shape t t.
Proof. by intros n0 n1 n2 n3. Qed.

Lemma same_shape_imap {A} (g : idx4 → A → A) (t t' : tensor4 A) :
  same_shape t t' → same_shape t (tensor4_imap g t').
Proof. intros H n0 n1 n2 n3. by rewrite has_shape_imap. Qed.

Lemma tensor4_alter_as_imap {A} (h : A → A) (i : idx4) (t : tensor4 A) :
  tensor4_alter h i t = tensor4_imap (λ j x, if decide (j = i) then h x else x) t.
Proof. by rewrite <- (tensor4_imap_id t) at 1; rewrite tensor4_alter_imap. Qed.

Lemma same_shape_alter {A} (h : A → A) i (t t' : tensor4 A) :
  same_shape t t' → same_shape t (tensor4_alter h i t').
Proof. intros H. rewrite tensor4_alter_as_imap. by apply same_shape_imap. Qed.

Lemma same_shape_zero {A} (z : A) (t t' : tensor4 A) :
  same_shape t t' → same_shape t (tensor4_zero z t').
Proof.
  intros H. unfold tensor4_zero. rewrite tensor4_map_imap. by apply same_shape_imap.
Qed.

(** What every method keeps: the configuration, and the shapes of the two
    accumulators. *)
Section kept.
Context (self0 : Metric).

Let kept (self : Metric) : Prop :=
  same_configuration self0 self ∧
  same_shape (per_class_bucketed_error_sum self0) (per_class_bucketed_error_sum self) ∧
  same_shape (per_class_bucketed_error_count self0) (per_class_bucketed_error_count self).

Lemma kept_refl : kept self0.
Proof. repeat split; apply same_shape_refl. Qed.

Lemma kept_update_class_error {R : Reductions} pc class_id regressed_flow gt_flow :
  preserves kept (update_class_error pc class_id regressed_flow gt_flow).
Proof.
  unfold update_class_error.
  repeat (apply preserves_bind; [first [apply preserves_py_assert | apply preserves_gets]|intros ?]).
  apply preserves_bind.
  { intros s H. unfold lookup_class_index. by destruct (_ !! _). }
  intros class_index.
  apply preserves_bind; [apply preserves_gets|intros ?].
  apply preserves_for_each. intros [c close_mask].
  apply preserves_bind; [apply preserves_gets|intros ?].
  apply preserves_for_each. intros [s speed_bound].
  apply preserves_bind; [apply preserves_gets|intros ?].
  apply preserves_for_each. intros [e epe_bound].
  apply preserves_bind; [|intros _].
  - intros self (Hcfg & Hsum & Hcount). unfold iadd_error_sum.
    destruct (tensor4_get _ _); [|done]. cbn.
    split; [done|]. split; [by apply same_shape_alter|done].
  - intros self (Hcfg & Hsum & Hcount). unfold iadd_error_count.
    destruct (tensor4_get _ _); [|done]. cbn.
    split; [done|]. split; [done|by apply same_shape_alter].
Qed.

Lemma kept_run_call {R : Reductions} self c : kept self → kept (run_call self c).
Proof.
  intros H. destruct c as [pc class_id regressed_flow gt_flow|run_time run_count|fn|]; cbn.
  - by apply kept_update_class_error.
  - done.
  - done.
  - destruct H as (Hcfg & Hsum & Hcount). rewrite run_reset. cbn.
    split; [done|]. split; by apply same_shape_zero.
Qed.

Lemma kept_run_calls {R : Reductions} calls : kept (run_calls calls self0).
Proof.
  unfold run_calls. induction calls as [|c calls IH] using rev_ind; [apply kept_refl|].
  rewrite foldl_app. cbn. by apply kept_run_call.
Qed.
End kept.

Lemma reachable_run_calls {R : Reductions} items speed_splits epe_splits threshold scale calls :
  NoDup items.*1 →
  reachable (run_calls calls (init items speed_splits epe_splits threshold scale)).
Proof.
  intros Hnd. unfold run_calls.
  induction calls as [|c calls IH] using rev_ind; [by constructor|].
  rewrite foldl_app. cbn. destruct c; cbn; by constructor.
Qed.

Lemma update_class_error_keeps_totals {R : Reductions} self pc class_id regressed_flow gt_flow :
  let self' := (run (update_class_error pc class_id regressed_flow gt_flow) self).2 in
  total_forward_time self' = total_forward_time self ∧
  total_forward_count self' = total_forward_count self.
Proof.
  cbn zeta.
  set (I := λ s : Metric, total_forward_time s = total_forward_time self ∧
                          total_forward_count s = total_forward_count self).
  assert (preserves I (update_class_error pc class_id regressed_flow gt_flow)) as H;
    [|by apply H].
  unfold update_class_error.
  repeat (apply preserves_bind;
          [first [apply preserves_py_assert | apply preserves_gets]|intros ?]).
  apply preserves_bind.
  { intros s H. unfold lookup_class_index. by destruct (_ !! _). }
  intros class_index.
  apply preserves_bind; [apply preserves_gets|intros ?].
  apply preserves_for_each. intros [c close_mask].
  apply preserves_bind; [apply preserves_gets|intros ?].
  apply preserves_for_each. intros [s speed_bound].
  apply preserves_bind; [apply preserves_gets|intros ?].
  apply preserves_for_each. intros [e epe_bound].
  apply preserves_bind; [|intros _].
  + intros s0 H. unfold iadd_error_sum. by destruct (tensor4_get _ _).
  + intros s0 H. unfold iadd_error_count. by destruct (tensor4_get _ _).
Qed.

(* ===================================================================== *)
(** * Running the validation step *)
(* ===================================================================== *)

Lemma step_run_bind {St A B} (m : step St A) (k : A → step St B) s a s' :
  m s = (Done a, s') → (m ≫= k) s = k a s'.
Proof. intros H. unfold mbind, step_bind. by rewrite H. Qed.

Lemma step_bind_done {St A B} (m : step St A) (k : A → step St B) s b s'' :
  (m ≫= k) s = (Done b, s'') → ∃ a s', m s = (Done a, s') ∧ k a s' = (Done b, s'').
Proof.
  unfold mbind, step_bind. destruct (m s) as [[a| |] s']; [|done..].
  intros H. by exists a, s'.
Qed.

Lemma or_index_error_done {St A} (o : option A) (s : St) a s' :
  or_index_error o s = (Done a, s') → o = Some a ∧ s' = s.
Proof. unfold or_index_error. destruct o; [|done]. by intros [= -> ->]. Qed.

Lemma or_runtime_error_done {St A} (o : option A) (s : St) a s' :
  or_runtime_error o s = (Done a, s') → o = Some a ∧ s' = s.
Proof. unfold or_runtime_error. destruct o; [|done]. by intros [= -> ->]. Qed.

Lemma step_assert_done {St} b msg (s : St) u s' :
  step_assert b msg s = (Done u, s') → b = true ∧ s' = s.
Proof. unfold step_assert. destruct b; [|done]. by intros [= _ ->]. Qed.

Section step_preserves.
Context {St : Type} (I : St → Prop).

Lemma step_preserves_ret {A} (a : A) : step_preserves I (mret a : step St A).
Proof. by intros s H. Qed.

Lemma step_preserves_or_index_error {A} (o : option A) :
  step_preserves I (or_index_error o : step St A).
Proof. intros s H. by destruct o. Qed.

Lemma step_preserves_or_runtime_error {A} (o : option A) :
  step_preserves I (or_runtime_error o : step St A).
Proof. intros s H. by destruct o. Qed.

Lemma step_preserves_assert b msg : step_preserves I (step_assert b msg : step St unit).
Proof. intros s H. by destruct b. Qed.

Lemma step_preserves_lift {A} (m : method St A) :
  preserves I m → step_preserves I (lift m).
Proof.
  intros Hm s H. specialize (Hm s H). unfold lift. by destruct (m s) as [[a|e] s'].
Qed.

Lemma step_preserves_bind {A B} (m : step St A) (k : A → step St B) :
  step_preserves I m → (∀ a, step_preserves I (k a)) → step_preserves I (m ≫= k).
Proof.
  intros Hm Hk s H. specialize (Hm s H). unfold mbind, step_bind.
  destruct (m s) as [[a|e|] s']; cbn in *; [by apply Hk|done..].
Qed.

Lemma step_preserves_for_each {A} (l : list A) (body : A → step St unit) :
  (∀ x, step_preserves I (body x)) → step_preserves I (for_each_step l body).
Proof.
  intros Hbody. induction l as [|x l IH]; [by apply step_preserves_ret|].
  cbn [for_each_step]. apply step_preserves_bind; [apply Hbody|]. by intros _.
Qed.
End step_preserves.

Lemma for_each_step_Forall2 {St A B} (l : list A) (l' : list B)
    (body : A → step St unit) (body' : B → step St unit) :
  Forall2 (λ x y, body x = body' y) l l' →
  for_each_step l body = for_each_step l' body'.
Proof. induction 1 as [|x y l l' Hxy _ IH]; [done|]. cbn. by rewrite Hxy, IH. Qed.

Lemma Forall2_zip_zip {A A' B B'} (P : A → A' → Prop) (Q : B → B' → Prop)
    (a : list A) (a' : list A') (b : list B) (b' : list B') :
  Forall2 P a a' → Forall2 Q b b' →
  Forall2 (λ x y, P x.1 y.1 ∧ Q x.2 y.2) (zip a b) (zip a' b').
Proof.
  intros Ha. revert b b'. induction Ha as [|x x' a a' Hx _ IH]; intros b b' Hb; [constructor|].
  destruct Hb as [|y y' b b' Hy Hb]; [constructor|]. cbn. constructor; [done|by apply IH].
Qed.

Lemma Forall2_fmap_same {A B} (f : A → B) (l : list A) :
  Forall2 (λ x y, x = f y) (f <$> l) l.
Proof. induction l; constructor; done. Qed.

Lemma Forall2_same {A} (l : list A) : Forall2 eq l l.
Proof. induction l; constructor; done. Qed.

(** ** Indexing from the end *)

Lemma py_getitem_negative {A} (l : list A) (i : Z) :
  - Z.of_nat (length l) ≤ i < 0 →
  py_getitem l i = l !! Z.to_nat (i + Z.of_nat (length l)).
Proof.
  intros Hi. unfold py_getitem.
  replace (0 <=? i) with false by (symmetry; apply Z.leb_gt; lia).
  replace (- Z.of_nat (length l) <=? i) with true by (symmetry; apply Z.leb_le; lia).
  by replace (i <? 0) with true by (symmetry; apply Z.ltb_lt; lia).
Qed.

Lemma py_getitem_too_negative {A} (l : list A) (i : Z) :
  i < - Z.of_nat (length l) → py_getitem l i = None.
Proof.
  intros Hi. unfold py_getitem.
  replace (0 <=? i) with false by (symmetry; apply Z.leb_gt; lia).
  by replace (- Z.of_nat (length l) <=? i) with false by (symmetry; apply Z.leb_gt; lia).
Qed.

Lemma py_getitem_last_two {A} (l : list A) (i : Z) :
  i = -2 ∨ i = -1 → py_getitem (last_two l) i = py_getitem l i.
Proof.
  intros Hi. unfold last_two.
  destruct (decide (length l < 2)%nat) as [Hlt|Hge].
  { by replace (length l - 2)%nat with 0%nat by lia. }
  rewrite !py_getitem_negative by (rewrite ?length_drop; lia).
  rewrite lookup_drop, length_drop. f_equal. lia.
Qed.

(** ** The split of the points by class *)

Lemma elem_of_torch_unique (t : list Z) (x : Z) : x ∈ torch_unique t ↔ x ∈ t.
Proof. unfold torch_unique. by rewrite merge_sort_Permutation, elem_of_remove_dups. Qed.

Lemma NoDup_torch_unique (t : list Z) : NoDup (torch_unique t).
Proof. unfold torch_unique. rewrite merge_sort_Permutation. apply NoDup_remove_dups. Qed.

Lemma masked_select_or {A} (points : list A) (m1 m2 : list bool) :
  length m1 = length m2 →
  Forall2 (λ b1 b2, b1 && b2 = false) m1 m2 →
  masked_select points m1 ++ masked_select points m2
  ≡ₚ masked_select points (zip_with orb m1 m2).
Proof.
  intros _ H. revert points. induction H as [|b1 b2 m1 m2 Hb _ IH]; intros [|p points].
  - done.
  - done.
  - done.
  - cbn. destruct b1, b2; cbn in *; try done.
    + by rewrite IH.
    + rewrite <- IH. by rewrite Permutation_middle.
Qed.

Lemma masked_select_all {A} (points : list A) (mask : list bool) :
  length points = length mask → Forall (λ b, b = true) mask →
  masked_select points mask = points.
Proof.
  intros Hlen H. revert points Hlen.
  induction H as [|b mask -> _ IH]; intros [|p points] Hlen; try done.
  cbn. f_equal. apply IH. by injection Hlen.
Qed.

Lemma masked_select_none {A} (points : list A) (mask : list bool) :
  Forall (λ b, b = false) mask → masked_select points mask = [].
Proof.
  intros H. revert points. induction H as [|b mask -> _ IH]; intros [|p points]; try done.
  cbn. apply IH.
Qed.

Lemma class_selections {A} (points : list A) (class_info classes : list Z) :
  NoDup classes →
  concat ((λ cls_id, masked_select points (cls_mask_of class_info cls_id)) <$> classes)
  ≡ₚ masked_select points ((λ c, bool_decide (c ∈ classes)) <$> class_info).
Proof.
  induction 1 as [|c classes Hnot Hnd IH]; cbn [fmap list_fmap concat].
  { rewrite masked_select_none; [done|].
    apply Forall_fmap, Forall_forall. intros x _. cbn.
    apply bool_decide_eq_false. by apply not_elem_of_nil. }
  rewrite IH, masked_select_or.
  - unfold cls_mask_of. rewrite zip_with_fmap_l, zip_with_fmap_r, zip_with_diag.
    f_equiv. apply list_fmap_ext. intros _ x _.
    destruct (Z.eqb_spec x c) as [->|Hne]; cbn.
    + symmetry. apply bool_decide_eq_true. by left.
    + apply bool_decide_ext. rewrite elem_of_cons. naive_solver.
  - unfold cls_mask_of. by rewrite !length_fmap.
  - unfold cls_mask_of. apply Forall2_fmap, Forall2_same_length_lookup_2; [done|].
    intros i x y Hx Hy. assert (x = y) as <- by congruence.
    destruct (Z.eqb_spec x c) as [->|Hne]; [|done]. cbn.
    by apply bool_decide_eq_false.
Qed.

Lemma lift_done {St A} (m : method St A) s a s' :
  lift m s = (Done a, s') → m s = (Return a, s').
Proof. unfold lift. destruct (m s) as [[a0|e] s0]; [|done]. by intros [= -> ->]. Qed.

Lemma on_metric_return {A} (m : method Metric A) w a w' :
  on_metric m w = (Return a, w') → ∃ metric', m (metric w) = (Return a, metric').
Proof.
  unfold on_metric. destruct (m (metric w)) as [r metric'] eqn:H.
  intros [= -> _]. by exists metric'.
Qed.

Lemma tensor_index_shape t idxes t' :
  tensor_index t idxes = Some t' → shape t' = (length idxes, ncols t).
Proof.
  unfold tensor_index, index_select.
  destruct (mapM _ _) as [rows'|] eqn:H; [|done]. cbn. intros [= <-].
  apply length_mapM in H. unfold shape. cbn. by rewrite H.
Qed.

Lemma tensor_mask_ncols t mask t' : tensor_mask t mask = Some t' → ncols t' = ncols t.
Proof. unfold tensor_mask. case_match; [|done]. by intros [= <-]. Qed.

Lemma shape_eqb_eq s1 s2 : shape_eqb s1 s2 = true → s1 = s2.
Proof.
  destruct s1, s2. unfold shape_eqb. cbn. rewrite andb_true_iff, !Nat.eqb_eq.
  by intros [-> ->].
Qed.

Ltac step_inv H :=
  let a := fresh "a" in
  let s := fresh "s" in
  let H1 := fresh "H" in
  apply step_bind_done in H as (a & s & H1 & H);
  first [apply or_index_error_done in H1 as [H1 ->]
        |apply or_runtime_error_done in H1 as [H1 ->]
        |apply step_assert_done in H1 as [H1 ->]].

Lemma for_each_step_done {St A} (I : St → Prop) (l : list A) (body : A → step St unit) :
  (∀ x s, x ∈ l → I s → ∃ s', body x s = (Done tt, s') ∧ I s') →
  ∀ s, I s → ∃ s', for_each_step l body s = (Done tt, s') ∧ I s'.
Proof.
  induction l as [|x l IH]; intros Hbody s Hs; [by exists s|].
  destruct (Hbody x s ltac:(by left) Hs) as (s1 & Hx & Hs1).
  destruct (IH (λ y s0 Hy, Hbody y s0 ltac:(by right)) s1 Hs1) as (s2 & Hl & Hs2).
  exists s2. split; [|done]. cbn [for_each_step].
  by erewrite step_run_bind by exact Hx.
Qed.

Lemma length_masked_select {A B} (values : list A) (values' : list B) (mask : list bool) :
  length values = length mask → length values' = length mask →
  length (masked_select values mask) = length (masked_select values' mask).
Proof.
  revert values values'. induction mask as [|b mask IH]; intros [|v vs] [|v' vs'] H H';
    try done.
  cbn. destruct b; cbn; [f_equal|]; apply IH; by simplify_eq/=.
Qed.

Lemma broadcast_dim_same n : broadcast_dim n n = Some n.
Proof. unfold broadcast_dim. by rewrite Nat.eqb_refl. Qed.

Lemma expand_same t : expand (length (rows t)) (ncols t) t = t.
Proof.
  unfold expand. rewrite !Nat.eqb_refl. destruct t as [rs c]. cbn. f_equal.
  by rewrite list_fmap_id.
Qed.

Lemma torch_sub_same_shape a b :
  shape a = shape b → torch_sub a b = Some (tensor_sub a b).
Proof.
  unfold shape. intros [= Hr Hc]. unfold torch_sub.
  rewrite <- Hr, <- Hc, !broadcast_dim_same. cbn.
  rewrite expand_same. rewrite Hr, Hc, expand_same. done.
Qed.

(* ===================================================================== *)
(** * Facts on the formatting of integers *)
(* ===================================================================== *)

Lemma zeros_succ k :
  String.concat "" (replicate (S k) "0") = String (Ascii.ascii_of_nat 48) (String.concat "" (replicate k "0")).
Proof. by destruct k. Qed.

Lemma strip_zeros_zeros k s :
  strip_zeros (String.concat "" (replicate k "0") +:+ s) = strip_zeros s.
Proof. induction k as [|k IH]; [done|]. rewrite zeros_succ. cbn. apply IH. Qed.

Lemma pretty_N_go_head (x : N) (s : string) :
  (0 < x)%N →
  ∃ c s', pretty_N_go x s = String c s' ∧ c ≠ Ascii.ascii_of_nat 48.
Proof.
  revert s. induction (N.lt_wf_0 x) as [x _ IH]; intros s Hx.
  rewrite pretty_N_go_step by done.
  destruct (decide (x `div` 10 = 0)%N) as [Hz|Hnz].
  - rewrite Hz, pretty_N_go_0. eexists _, _. split; [done|].
    assert (x < 10)%N as Hlt by (by apply N.div_small_iff in Hz).
    rewrite N.mod_small by done.
    assert (x = 1 ∨ x = 2 ∨ x = 3 ∨ x = 4 ∨ x = 5 ∨ x = 6 ∨ x = 7 ∨ x = 8 ∨ x = 9)%N
      as Hcases by lia.
    by repeat (destruct Hcases as [->|Hcases]; [done|]); subst.
  - apply IH; [|by apply N.neq_0_lt_0]. apply N.div_lt; lia.
Qed.

Lemma strip_zeros_pretty (x : N) :
  strip_zeros (pretty x) = if decide (x = 0)%N then "" else pretty x.
Proof.
  unfold pretty, pretty_N. case_decide as Hx; [done|].
  destruct (pretty_N_go_head x "") as (c & s' & Hgo & Hc); [lia|].
  rewrite Hgo. cbn. by rewrite (proj2 (Ascii.eqb_neq _ _) Hc).
Qed.

Lemma pretty_N_nonempty (x : N) : pretty x ≠ "".
Proof.
  unfold pretty, pretty_N. case_decide as Hx; [done|].
  destruct (pretty_N_go_head x "") as (c & s' & Hgo & Hc); [lia|]. by rewrite Hgo.
Qed.

Lemma format_0d_nat (width n : nat) :
  format_0d width (Z.of_nat n)
  = String.concat "" (replicate (width - String.length (pretty (N.of_nat n))) "0")
      +:+ pretty (N.of_nat n).
Proof.
  unfold format_0d. replace (Z.of_nat n <? 0) with false by (symmetry; apply Z.ltb_ge; lia).
  cbn [String.length]. rewrite Nat.sub_0_r.
  by replace (Z.abs_N (Z.of_nat n)) with (N.of_nat n) by lia.
Qed.

Lemma format_0d_nat_inj (width n m : nat) :
  format_0d width (Z.of_nat n) = format_0d width (Z.of_nat m) → n = m.
Proof.
  rewrite !format_0d_nat. intros H.
  apply (f_equal strip_zeros) in H. rewrite !strip_zeros_zeros, !strip_zeros_pretty in H.
  repeat case_decide.
  - lia.
  - symmetry in H. by apply pretty_N_nonempty in H.
  - by apply pretty_N_nonempty in H.
  - apply (inj pretty) in H. lia.
Qed.

Lemma format_0d_two_digits (n : Z) : 0 ≤ n < 100 → format_0d 2 n = two_digits n.
Proof.
  intros Hn.
  assert (Forall (λ n, format_0d 2 n = two_digits n) (seqZ 0 100)) as H.
  { apply (bool_decide_unpack _). vm_compute. exact I. }
  rewrite Forall_forall in H. apply H, elem_of_seqZ. lia.
Qed.

(* ===================================================================== *)
(** * Running the functions of the script *)
(* ===================================================================== *)

Lemma run_perform e log : run (perform e) log = (Return tt, log ++ [e]).
Proof. reflexivity. Qed.

Lemma commands_run_app log log' :
  commands_run (log ++ log') = commands_run log ++ commands_run log'.
Proof. apply omap_app. Qed.

Lemma files_written_app log log' :
  files_written (log ++ log') = files_written log ++ files_written log'.
Proof. apply omap_app. Qed.

(* ===================================================================== *)
(** * Facts on the string operations *)
(* ===================================================================== *)

Lemma prefix_spec (sub s : string) :
  String.prefix sub s = true ↔ ∃ post, s = sub +:+ post.
Proof.
  revert s. induction sub as [|a sub IH]; intros s.
  { split; [by exists s|]. intros _. by destruct s. }
  destruct s as [|b s]; cbn; [split; [done|by intros [post ?]]|].
  destruct (Ascii.ascii_dec a b) as [->|Hne].
  - rewrite IH. split; intros [post H]; exists post; [by rewrite H|by injection H].
  - split; [done|]. intros [post H]. by injection H as <-.
Qed.

Lemma is_substring_spec (sub s : string) :
  is_substring sub s = true ↔ ∃ pre post, s = pre +:+ sub +:+ post.
Proof.
  induction s as [|c s IH]; cbn [is_substring].
  - rewrite orb_false_r, prefix_spec. split.
    + intros [post H]. by exists "", post.
    + intros (pre & post & H). destruct pre; [by exists post|done].
  - rewrite orb_true_iff, prefix_spec, IH. split.
    + intros [[post H]|(pre & post & H)].
      * by exists "", post.
      * exists (String c pre), post. cbn. by rewrite H.
    + intros (pre & post & H). destruct pre as [|c' pre].
      * left. by exists post.
      * right. exists pre, post. by injection H.
Qed.

Lemma split_nonempty sep s : split sep s ≠ [].
Proof. destruct s as [|c s]; [done|]. cbn. case_match; [done|]. by case_match. Qed.

Lemma split_single_cons sep c s :
  split sep (String c s) = [String c s] ↔ c ≠ sep ∧ split sep s = [s].
Proof.
  cbn. destruct (Ascii.eqb_spec c sep) as [->|Hne].
  - split; [|by intros [? _]]. intros H. injection H as H _. done.
  - destruct (split sep s) as [|part parts] eqn:Hs; [by apply split_nonempty in Hs|].
    split.
    + intros [= -> ->]. done.
    + by intros [_ [= -> ->]].
Qed.

Lemma split_parts_single sep s part :
  part ∈ split sep s → split sep part = [part].
Proof.
  revert part. induction s as [|c s IH]; intros part; cbn.
  { by intros ->%list_elem_of_singleton. }
  destruct (Ascii.eqb_spec c sep) as [->|Hne].
  { rewrite elem_of_cons. intros [->|H]; [done|by apply IH]. }
  destruct (split sep s) as [|p parts] eqn:Hs; [by apply split_nonempty in Hs|].
  rewrite elem_of_cons. intros [->|H].
  - apply split_single_cons. split; [done|]. apply IH. by left.
  - apply IH. by right.
Qed.

Lemma lstrip_lstrip s : lstrip (lstrip s) = lstrip s.
Proof. induction s as [|c s IH]; [done|]. cbn. destruct (isspace c) eqn:Hc; [done|]. cbn. by rewrite Hc. Qed.

Lemma rstrip_rstrip s : rstrip (rstrip s) = rstrip s.
Proof.
  induction s as [|c s IH]; [done|]. cbn.
  destruct (rstrip s) as [|d r] eqn:Hr.
  - destruct (isspace c) eqn:Hc; [done|]. cbn. by rewrite Hc.
  - cbn [rstrip]. cbn [rstrip] in IH. by rewrite IH.
Qed.

Lemma lstrip_rstrip t : lstrip t = t → lstrip (rstrip t) = rstrip t.
Proof.
  destruct t as [|c t]; [done|]. cbn. destruct (isspace c) eqn:Hc.
  - intros H. exfalso. assert (String.length (lstrip t) ≤ String.length t)%nat as Hle.
    { clear. induction t as [|d t IH]; [done|]. cbn. destruct (isspace d); cbn; lia. }
    rewrite H in Hle. cbn in Hle. lia.
  - intros _. destruct (rstrip t); cbn; by rewrite Hc.
Qed.

Lemma strip_stripped s : lstrip (strip s) = strip s ∧ rstrip (strip s) = strip s.
Proof.
  unfold strip. split; [|apply rstrip_rstrip]. apply lstrip_rstrip, lstrip_lstrip.
Qed.

Lemma lstrip_single sep s : split sep s = [s] → split sep (lstrip s) = [lstrip s].
Proof.
  induction s as [|c s IH]; [done|]. intros H. pose proof H as H'.
  apply split_single_cons in H' as [Hne Hs].
  cbn [lstrip]. destruct (isspace c); [by apply IH|done].
Qed.

Lemma rstrip_single sep s : split sep s = [s] → split sep (rstrip s) = [rstrip s].
Proof.
  induction s as [|c s IH]; [done|]. intros H.
  apply split_single_cons in H as [Hne Hs]. specialize (IH Hs).
  cbn [rstrip]. destruct (rstrip s) as [|d r].
  - destruct (isspace c); [done|]. by apply split_single_cons.
  - by apply split_single_cons.
Qed.

(* ===================================================================== *)
(** * Sums over the iterations of the loops *)
(* ===================================================================== *)

Lemma sum_Z_cons x l : sum_Z (x :: l) = x + sum_Z l.
Proof. reflexivity. Qed.

Lemma sum_Z_fmap_add {A} (f g : A → Z) (l : list A) :
  sum_Z ((λ x, f x + g x) <$> l) = sum_Z (f <$> l) + sum_Z (g <$> l).
Proof. induction l as [|x l IH]; [done|]. rewrite !fmap_cons, !sum_Z_cons. lia. Qed.

Lemma sum_Z_fmap_mul {A} (k : Z) (f : A → Z) (l : list A) :
  sum_Z ((λ x, k * f x) <$> l) = k * sum_Z (f <$> l).
Proof.
  induction l as [|x l IH]; [cbn; lia|]. rewrite !fmap_cons, !sum_Z_cons. lia.
Qed.

Lemma sum_Z_fmap_ext {A} (f g : A → Z) (l : list A) :
  (∀ x, x ∈ l → f x = g x) → sum_Z (f <$> l) = sum_Z (g <$> l).
Proof.
  intros H. induction l as [|x l IH]; [done|]. rewrite !fmap_cons, !sum_Z_cons.
  rewrite H by (by left). rewrite IH; [done|]. intros y Hy. apply H. by right.
Qed.

Lemma sum_Z_fmap_zero {A} (l : list A) : sum_Z ((λ _, 0) <$> l) = 0.
Proof. induction l as [|x l IH]; [done|]. by rewrite fmap_cons, sum_Z_cons, IH. Qed.

Lemma fmap_seq_lookup_total {A B} `{Inhabited A} (f : A → B) (l : list A) :
  (λ i, f (l !!! i)) <$> seq 0 (length l) = f <$> l.
Proof.
  induction l as [|x l IH]; [done|]. cbn [length seq fmap list_fmap].
  f_equal. rewrite <- IH, <- fmap_S_seq, <- list_fmap_compose. done.
Qed.

Lemma sum_Z_indicator_none {A} (P : A → bool) (l : list A) :
  existsb P l = false → sum_Z ((λ x, Z.b2z (P x)) <$> l) = 0.
Proof.
  induction l as [|x l IH]; [done|]. cbn [existsb]. intros H.
  apply orb_false_iff in H as [Hx H]. by rewrite fmap_cons, sum_Z_cons, Hx, IH.
Qed.

Lemma sum_Z_indicator_unique {A} (P : A → bool) (l : list A) :
  (∀ i j x y, l !! i = Some x → l !! j = Some y → P x = true → P y = true → i = j) →
  sum_Z ((λ x, Z.b2z (P x)) <$> l) = Z.b2z (existsb P l).
Proof.
  induction l as [|x l IH]; [done|]. intros Hu.
  rewrite fmap_cons, sum_Z_cons. cbn [existsb].
  destruct (P x) eqn:Hx; cbn [orb Z.b2z].
  - rewrite sum_Z_indicator_none; [done|].
    destruct (existsb P l) eqn:He; [|done]. exfalso.
    apply existsb_exists in He as (y & Hy & HPy).
    apply list_elem_of_In, list_elem_of_lookup in Hy as [j Hj].
    by specialize (Hu 0%nat (S j) x y eq_refl Hj Hx HPy).
  - rewrite Z.add_0_l. apply IH. intros i j a b Ha Hb HPa HPb.
    assert (S i = S j) as Heq by (by eapply Hu). by injection Heq.
Qed.

Lemma b2z_andb a b : Z.b2z (a && b) = Z.b2z a * Z.b2z b.
Proof. by destruct a, b. Qed.

Lemma torch_sum_mask_b2z b mask :
  torch_sum_mask (b :: mask) = Z.b2z b + torch_sum_mask mask.
Proof. rewrite torch_sum_mask_cons. by destruct b. Qed.

Section masks.
Context (sbs ebs : list (float32 * float32)).
Hypothesis Hsbs : ∀ v i j b b', sbs !! i = Some b → sbs !! j = Some b' →
  in_bucket v b = true → in_bucket v b' = true → i = j.
Hypothesis Hebs : ∀ v i j b b', ebs !! i = Some b → ebs !! j = Some b' →
  in_bucket v b = true → in_bucket v b' = true → i = j.

Let cell (cm : list bool) (vs es : list float32) (sb eb : float32 * float32) : Z :=
  torch_sum_mask (mask_and (mask_and cm (bucket_mask vs sb)) (bucket_mask es eb)).

Let total (cm : list bool) (vs es : list float32) : Z :=
  sum_Z ((λ sb, sum_Z ((λ eb, cell cm vs es sb eb) <$> ebs)) <$> sbs).

Lemma total_nil cm es : total cm [] es = 0.
Proof.
  unfold total, cell. erewrite sum_Z_fmap_ext; [apply sum_Z_fmap_zero|].
  intros sb _. cbn beta. erewrite sum_Z_fmap_ext; [apply sum_Z_fmap_zero|].
  intros eb _. cbn beta. unfold mask_and, bucket_mask. cbn.
  by rewrite zip_with_nil_r.
Qed.

Lemma total_cons b cm v vs err es :
  total (b :: cm) (v :: vs) (err :: es)
  = Z.b2z b * (Z.b2z (existsb (in_bucket v) sbs) * Z.b2z (existsb (in_bucket err) ebs))
    + total cm vs es.
Proof.
  unfold total.
  transitivity
    (sum_Z ((λ sb, (Z.b2z b * Z.b2z (existsb (in_bucket err) ebs)) * Z.b2z (in_bucket v sb)
                   + sum_Z ((λ eb, cell cm vs es sb eb) <$> ebs)) <$> sbs)).
  { apply sum_Z_fmap_ext. intros sb _. cbn beta.
    transitivity
      (sum_Z ((λ eb, (Z.b2z b * Z.b2z (in_bucket v sb)) * Z.b2z (in_bucket err eb)
                     + cell cm vs es sb eb) <$> ebs)).
    { apply sum_Z_fmap_ext. intros eb _. unfold cell, mask_and, bucket_mask.
      cbn [fmap list_fmap zip_with]. rewrite torch_sum_mask_b2z, !b2z_andb. ring. }
    rewrite sum_Z_fmap_add, sum_Z_fmap_mul.
    rewrite (sum_Z_indicator_unique (in_bucket err) ebs) by (intros ????; apply Hebs).
    apply f_equal2; [ring|reflexivity]. }
  rewrite sum_Z_fmap_add, sum_Z_fmap_mul.
  rewrite (sum_Z_indicator_unique (in_bucket v) sbs) by (intros ????; apply Hsbs).
  apply f_equal2; [ring|reflexivity].
Qed.

Lemma masks_sum (cl : list bool) (vs es : list float32) :
  length cl = length vs → length es = length vs →
  total cl vs es + total (mask_not cl) vs es
  = torch_sum_mask
      (zip_with (λ v err, existsb (in_bucket v) sbs && existsb (in_bucket err) ebs) vs es).
Proof.
  revert cl es. induction vs as [|v vs IH]; intros [|b cl] [|err es] Hcl Hes; try done.
  { by rewrite !total_nil. }
  unfold mask_not. rewrite fmap_cons. fold (mask_not cl).
  rewrite !total_cons. cbn [zip_with]. rewrite torch_sum_mask_b2z, b2z_andb.
  rewrite <- (IH cl es) by (by simplify_eq/=). destruct b; cbn [negb Z.b2z]; lia.
Qed.
Lemma masks_sum_explicit (cl : list bool) (vs es : list float32) :
  length cl = length vs → length es = length vs →
  sum_Z ((λ sb, sum_Z ((λ eb,
      torch_sum_mask (mask_and (mask_and cl (bucket_mask vs sb)) (bucket_mask es eb)))
      <$> ebs)) <$> sbs)
  + sum_Z ((λ sb, sum_Z ((λ eb,
      torch_sum_mask (mask_and (mask_and (mask_not cl) (bucket_mask vs sb))
                               (bucket_mask es eb)))
      <$> ebs)) <$> sbs)
  = torch_sum_mask
      (zip_with (λ v err, existsb (in_bucket v) sbs && existsb (in_bucket err) ebs) vs es).
Proof. apply masks_sum. Qed.
End masks.

Lemma torch_sum_mask_bounds mask : 0 ≤ torch_sum_mask mask ≤ Z.of_nat (length mask).
Proof.
  unfold torch_sum_mask. split; [lia|]. apply inj_le, length_filter.
Qed.

Lemma sum_over_loops_cell_error_count {R : Reductions} self pc regressed_flow gt_flow :
  sorted (speed_bucket_splits_meters_per_second self) = true →
  sorted (endpoint_error_splits_meters self) = true →
  shape_check pc regressed_flow gt_flow = true →
  sum_over_loops self (cell_error_count self pc regressed_flow gt_flow)
  = torch_sum_mask (in_range_mask self regressed_flow gt_flow).
Proof.
  intros Hs He Hshape. pose proof Hshape as Hshape'.
  apply shape_check_unfold in Hshape' as (Hrg & Hlen & _). injection Hrg as Hrg _.
  unfold sum_over_loops, cell_error_count, total_mask_at, in_range_mask.
  cbn [seq fmap list_fmap]. rewrite !sum_Z_cons. cbn [lookup_total list_lookup_total].
  rewrite Z.add_assoc. change (sum_Z []) with 0. rewrite Z.add_0_r.
  rewrite <- (masks_sum_explicit (speed_bucket_bounds self) (epe_bucket_bounds self)
               (λ v i j b b', in_bucket_unique _ v i j b b' Hs)
               (λ v i j b b', in_bucket_unique _ v i j b b' He)
               (is_close_mask_of (close_object_threshold_meters self) pc)).
  - f_equal.
    + rewrite <- (fmap_seq_lookup_total _ (speed_bucket_bounds self)).
      apply sum_Z_fmap_ext. intros s _. cbn beta.
      by rewrite <- (fmap_seq_lookup_total _ (epe_bucket_bounds self)).
    + rewrite <- (fmap_seq_lookup_total _ (speed_bucket_bounds self)).
      apply sum_Z_fmap_ext. intros s _. cbn beta.
      by rewrite <- (fmap_seq_lookup_total _ (epe_bucket_bounds self)).
  - rewrite is_close_mask_length, gt_speeds_length. lia.
  - rewrite endpoint_errors_length, gt_speeds_length by done. done.
Qed.


Lemma sum_over_loops_ext self f g :
  (∀ c s e, (c < 2)%nat → (s < length (speed_bucket_bounds self))%nat →
            (e < length (epe_bucket_bounds self))%nat → f c s e = g c s e) →
  sum_over_loops self f = sum_over_loops self g.
Proof.
  intros H. unfold sum_over_loops.
  apply sum_Z_fmap_ext. intros c Hc%elem_of_seq.
  apply sum_Z_fmap_ext. intros s Hs%elem_of_seq.
  apply sum_Z_fmap_ext. intros e He%elem_of_seq.
  apply H; lia.
Qed.


(* ===================================================================== *)
(** * The constructor of the metric *)
(* ===================================================================== *)

Lemma name_fold (items : list (Z * string)) (m : gmap nat string) (j k : nat) :
  foldl (λ m '(cls_index, (cls_id, cls_name)), <[cls_index := cls_name]> m)
        m (zip (seq j (length items)) items) !! k
  = if decide (j ≤ k < j + length items)%nat then snd <$> items !! (k - j)%nat else m !! k.
Proof.
  revert m j. induction items as [|[id0 nm] items IH]; intros m j.
  { cbn. case_decide; [lia|done]. }
  cbn [length seq zip zip_with foldl]. rewrite IH.
  destruct (decide (k = j)) as [->|Hne].
  - rewrite lookup_insert_eq, Nat.sub_diag. cbn.
    case_decide; [lia|]. case_decide; [done|lia].
  - rewrite lookup_insert_ne by done.
    case_decide; case_decide; try lia; [|done].
    replace (k - j)%nat with (S (k - S j)) by lia. done.
Qed.

Lemma build_class_index_to_name_map_lookup items i :
  build_class_index_to_name_map items !! i = snd <$> items !! i.
Proof.
  unfold build_class_index_to_name_map, enumerate. rewrite name_fold, Nat.sub_0_r.
  case_decide as H; [done|]. rewrite lookup_empty.
  by rewrite (lookup_ge_None_2 items i) by lia.
Qed.

Lemma tensor4_get_full {A} (z : A) n0 n1 n2 n3 a b c d :
  tensor4_get (tensor4_full z n0 n1 n2 n3) (a, b, c, d)
  = if bool_decide (a < n0 ∧ b < n1 ∧ c < n2 ∧ d < n3)%nat then Some z else None.
Proof.
  unfold tensor4_get, tensor4_full.
  case_bool_decide as H.
  - destruct H as (Ha & Hb & Hc & Hd).
    rewrite (lookup_replicate_2 _ _ a Ha). cbn.
    rewrite (lookup_replicate_2 _ _ b Hb). cbn.
    rewrite (lookup_replicate_2 _ _ c Hc). cbn.
    by rewrite (lookup_replicate_2 _ _ d Hd).
  - destruct (decide (a < n0)%nat) as [Ha|Ha].
    2:{ by rewrite (proj1 (lookup_replicate_None _ _ a)) by lia. }
    rewrite (lookup_replicate_2 _ _ a Ha). cbn.
    destruct (decide (b < n1)%nat) as [Hb|Hb].
    2:{ by rewrite (proj1 (lookup_replicate_None _ _ b)) by lia. }
    rewrite (lookup_replicate_2 _ _ b Hb). cbn.
    destruct (decide (c < n2)%nat) as [Hc|Hc].
    2:{ by rewrite (proj1 (lookup_replicate_None _ _ c)) by lia. }
    rewrite (lookup_replicate_2 _ _ c Hc). cbn.
    apply lookup_replicate_None. lia.
Qed.

(** X1: the two tables that [__init__] builds from the dict of class names
    compose to the dict: the index that [class_id_to_index_map] gives to a
    class id of the dict is, in [class_index_to_name_map], the index of the
    name that the dict gives to that id; it is the position of the id in
    the dict. *)
Theorem class_tables_round_trip
    (items : list (Z * string)) (speed_splits epe_splits : list float32)
    (threshold scale : float32) (class_id : Z) (name : string) :
  NoDup items.*1 →
  (class_id, name) ∈ items →
  let self := init items speed_splits epe_splits threshold scale in
  ∃ class_index : nat,
    class_id_to_index_map self !! class_id = Some class_index ∧
    class_index_to_name_map self !! class_index = Some name ∧
    items !! class_index = Some (class_id, name).
Proof.
  intros Hnd Hin. cbn zeta. apply list_elem_of_lookup in Hin as [i Hi].
  exists i. cbn [init class_id_to_index_map class_index_to_name_map].
  split; [by eapply build_class_id_to_index_map_present|].
  split; [|done]. by rewrite build_class_index_to_name_map_lookup, Hi.
Qed.

Lemma class_tables_round_trip_witness :
  NoDup example_items.*1 ∧ (7, "CAR") ∈ example_items ∧
  ∃ class_index : nat,
    class_id_to_index_map example_metric !! 7 = Some class_index ∧
    class_index_to_name_map example_metric !! class_index = Some "CAR".
Proof.
  assert (NoDup example_items.*1) as Hnd by (apply (bool_decide_unpack _); vm_compute; exact I).
  assert ((7, "CAR") ∈ example_items) as Hin by (apply (bool_decide_unpack _); vm_compute; exact I).
  split; [done|]. split; [done|].
  destruct (class_tables_round_trip example_items [F32.zero; F32.of_Z 5; F32.of_Z 10]
              [F32.zero; F32.of_Z 1; F32.infinity]
              default_close_object_threshold_meters
              default_per_frame_to_per_second_scale_factor 7 "CAR" Hnd Hin)
    as (i & H1 & H2 & _).
  by exists i.
Defined.

(** X2: the class indices that [__init__] assigns are the rows of the
    accumulators, one class per row: two ids of the dict never share an
    index, and the indices in use are exactly those below the number of
    classes, which is the size of the second dimension of both tensors. *)
Theorem class_indices_are_the_rows
    (items : list (Z * string)) (speed_splits epe_splits : list float32)
    (threshold scale : float32) :
  NoDup items.*1 →
  let self := init items speed_splits epe_splits threshold scale in
  (∀ id1 id2 class_index,
     class_id_to_index_map self !! id1 = Some class_index →
     class_id_to_index_map self !! id2 = Some class_index → id1 = id2) ∧
  (∀ class_index : nat,
     (∃ class_id, class_id_to_index_map self !! class_id = Some class_index)
     ↔ (class_index < length items)%nat) ∧
  has_shape (per_class_bucketed_error_sum self) 2 (length items)
    (length speed_splits - 1) (length epe_splits - 1) = true ∧
  has_shape (per_class_bucketed_error_count self) 2 (length items)
    (length speed_splits - 1) (length epe_splits - 1) = true.
Proof.
  intros Hnd. cbn zeta. cbn [init class_id_to_index_map per_class_bucketed_error_sum
                              per_class_bucketed_error_count].
  assert (∀ class_id class_index,
            build_class_id_to_index_map items !! class_id = Some class_index →
            ∃ name, items !! class_index = Some (class_id, name)) as Hinv.
  { intros class_id class_index H.
    destruct (decide (class_id ∈ items.*1)) as [Hin|Hnot].
    - apply list_elem_of_fmap in Hin as ([id0 name] & -> & Hin).
      apply list_elem_of_lookup in Hin as [i Hi]. cbn in *.
      rewrite (build_class_id_to_index_map_present _ _ _ _ Hnd Hi) in H.
      injection H as <-. by exists name.
    - by rewrite build_class_id_to_index_map_absent in H. }
  rewrite !bucket_bounds_length.
  split; [|split; [|split; apply has_shape_full]].
  - intros id1 id2 class_index H1 H2.
    apply Hinv in H1 as [n1 H1]. apply Hinv in H2 as [n2 H2]. congruence.
  - intros class_index. split.
    + intros [class_id H]. by eapply build_class_id_to_index_map_bound.
    + intros Hlt. destruct (lookup_lt_is_Some_2 items class_index Hlt) as [[class_id name] Hi].
      exists class_id. by eapply build_class_id_to_index_map_present.
Qed.

Lemma class_indices_are_the_rows_witness :
  NoDup example_items.*1 ∧
  has_shape (per_class_bucketed_error_count example_metric) 2 2 2 2 = true.
Proof.
  assert (NoDup example_items.*1) as Hnd by (apply (bool_decide_unpack _); vm_compute; exact I).
  split; [done|].
  exact (proj2 (proj2 (proj2
    (class_indices_are_the_rows example_items [F32.zero; F32.of_Z 5; F32.of_Z 10]
       [F32.zero; F32.of_Z 1; F32.infinity]
       default_close_object_threshold_meters
       default_per_frame_to_per_second_scale_factor Hnd)))).
Defined.

(* ===================================================================== *)
(** * What the methods of the metric keep *)
(* ===================================================================== *)

(** X3: whatever methods are called on a metric, with whatever arguments and
    outcomes, the attributes set by the constructor (the two class tables,
    the boundaries, the threshold and the scale factor) stay as they are,
    and the two accumulators keep their shapes. *)
Theorem methods_keep_configuration_and_shapes {R : Reductions} (self : Metric) (calls : list metric_call) :
  let self' := run_calls calls self in
  class_index_to_name_map self' = class_index_to_name_map self ∧
  class_id_to_index_map self' = class_id_to_index_map self ∧
  speed_bucket_splits_meters_per_second self' = speed_bucket_splits_meters_per_second self ∧
  endpoint_error_splits_meters self' = endpoint_error_splits_meters self ∧
  close_object_threshold_meters self' = close_object_threshold_meters self ∧
  per_frame_to_per_second_scale_factor self' = per_frame_to_per_second_scale_factor self ∧
  (∀ n0 n1 n2 n3,
     has_shape (per_class_bucketed_error_sum self') n0 n1 n2 n3
     = has_shape (per_class_bucketed_error_sum self) n0 n1 n2 n3) ∧
  (∀ n0 n1 n2 n3,
     has_shape (per_class_bucketed_error_count self') n0 n1 n2 n3
     = has_shape (per_class_bucketed_error_count self) n0 n1 n2 n3).
Proof.
  cbn zeta. pose proof (kept_run_calls self calls) as (Hcfg & Hsum & Hcount).
  destruct Hcfg as (H1 & H2 & H3 & H4 & H5 & H6).
  repeat split; done.
Qed.

(** X4: [reset] brings a metric back to the state in which the constructor
    made it: after any calls of the methods, with any arguments and
    outcomes, a [reset] returns and leaves the metric equal to the newly
    constructed one. *)
Theorem reset_restores_the_constructed_metric {R : Reductions}
    (items : list (Z * string)) (speed_splits epe_splits : list float32)
    (threshold scale : float32) (calls : list metric_call) :
  let new := init items speed_splits epe_splits threshold scale in
  run reset (run_calls calls new) = (Return tt, new).
Proof.
  cbn zeta. rewrite run_reset. f_equal.
  pose proof (kept_run_calls (init items speed_splits epe_splits threshold scale) calls)
    as (Hcfg & Hsum & Hcount).
  destruct Hcfg as (H1 & H2 & H3 & H4 & H5 & H6).
  specialize (Hsum 2%nat (length items) (length (bucket_bounds speed_splits))
                (length (bucket_bounds epe_splits))).
  specialize (Hcount 2%nat (length items) (length (bucket_bounds speed_splits))
                (length (bucket_bounds epe_splits))).
  cbn [init per_class_bucketed_error_sum per_class_bucketed_error_count] in Hsum, Hcount.
  rewrite has_shape_full in Hsum. rewrite has_shape_full in Hcount.
  unfold set_forward_count, set_forward_time, set_error_count, set_error_sum.
  cbn [class_index_to_name_map class_id_to_index_map
       speed_bucket_splits_meters_per_second endpoint_error_splits_meters
       per_class_bucketed_error_sum per_class_bucketed_error_count
       close_object_threshold_meters per_frame_to_per_second_scale_factor
       total_forward_time total_forward_count].
  rewrite (tensor4_zero_full _ _ _ _ _ _ Hsum), (tensor4_zero_full _ _ _ _ _ _ Hcount).
  rewrite H1, H2, H3, H4, H5, H6. reflexivity.
Qed.

(** X5: on a metric made by the constructor and used through its methods,
    [update_class_error] fails in two ways only, and then before it
    writes: with the [AssertionError] of its shape assertions or with the
    [KeyError] of the class id, the metric being left exactly as it was.
    It never raises an [IndexError]: the indices it computes are within the
    accumulators. *)
Theorem update_class_error_fails_before_it_writes {R : Reductions}
    (items : list (Z * string)) (speed_splits epe_splits : list float32)
    (threshold scale : float32) (calls : list metric_call)
    (pc : Tensor) (class_id : Z) (regressed_flow gt_flow : Tensor) :
  NoDup items.*1 →
  let self := run_calls calls (init items speed_splits epe_splits threshold scale) in
  let result := run (update_class_error pc class_id regressed_flow gt_flow) self in
  result.1 ≠ Raise IndexError ∧
  ((shape_check pc regressed_flow gt_flow = true ∧ class_id ∈ items.*1 ∧
    result.1 = Return tt) ∨
   (shape_check pc regressed_flow gt_flow = false ∧
    result = (Raise (AssertionError "Shapes do not match"), self)) ∨
   (shape_check pc regressed_flow gt_flow = true ∧ (class_id ∉ items.*1) ∧
    result = (Raise (KeyError class_id), self))).
Proof.
  intros Hnd. cbn zeta.
  set (self := run_calls calls (init items speed_splits epe_splits threshold scale)).
  assert (wf self = true) as Hwf by (by apply reachable_wf, reachable_run_calls).
  assert (class_id_to_index_map self = build_class_id_to_index_map items) as Hmap.
  { pose proof (kept_run_calls (init items speed_splits epe_splits threshold scale) calls)
      as (Hcfg & _). by destruct Hcfg as (_ & H2 & _). }
  destruct (shape_check pc regressed_flow gt_flow) eqn:Hshape.
  2:{ rewrite update_class_error_shape_mismatch by done. split; [done|]. right. by left. }
  destruct (decide (class_id ∈ items.*1)) as [Hin|Hnot].
  - apply list_elem_of_fmap in Hin as Hin'. destruct Hin' as ([id0 name] & -> & Hin').
    apply list_elem_of_lookup in Hin' as [i Hi]. cbn in *.
    erewrite update_class_error_ok; [|done|done|].
    2:{ rewrite Hmap. by eapply build_class_id_to_index_map_present. }
    split; [done|]. by left.
  - rewrite update_class_error_unknown_class; [|done|].
    2:{ rewrite Hmap. by apply build_class_id_to_index_map_absent. }
    split; [done|]. right. by right.
Qed.

Lemma update_class_error_fails_before_it_writes_witness :
  NoDup example_items.*1 ∧
  (run (update_class_error one_point 8 zero_flow zero_flow)
       (run_calls [call_update_runtime F32.zero 1; call_reset] example_metric)).1
  ≠ Raise IndexError.
Proof.
  assert (NoDup example_items.*1) as Hnd
    by (apply (bool_decide_unpack _); vm_compute; exact I).
  split; [done|].
  exact (proj1 (update_class_error_fails_before_it_writes example_items
                  [F32.of_Z 0; F32.of_Z 5; F32.of_Z 10] [F32.of_Z 0; F32.of_Z 1; F32.infinity]
                  default_close_object_threshold_meters
                  default_per_frame_to_per_second_scale_factor
                  [call_update_runtime F32.zero 1; call_reset]
                  one_point 8 zero_flow zero_flow Hnd)).
Defined.

(** X6: the bookkeeping of the run time and the accumulation of the errors
    do not meet: [update_class_error] has the same outcome and the same
    effect on the accumulators whether [update_runtime] has been called
    before it or is called after it, and it leaves the two totals of the
    run time as it finds them. *)
Theorem update_class_error_is_independent_of_the_run_time {R : Reductions}
    (self : Metric) (pc : Tensor) (class_id : Z) (regressed_flow gt_flow : Tensor)
    (run_time : float32) (run_count : Z) :
  let result := run (update_class_error pc class_id regressed_flow gt_flow) self in
  run (update_class_error pc class_id regressed_flow gt_flow)
      (run (update_runtime run_time run_count) self).2
  = (result.1, (run (update_runtime run_time run_count) result.2).2) ∧
  total_forward_time result.2 = total_forward_time self ∧
  total_forward_count result.2 = total_forward_count self.
Proof.
  cbn zeta. split.
  - unfold run at 2 4. cbn [update_runtime].
    set (f := λ s : Metric, ((update_runtime run_time run_count) s).2).
    change ((update_runtime run_time run_count) self).2 with (f self).
    change ((update_runtime run_time run_count)
              (run (update_class_error pc class_id regressed_flow gt_flow) self).2).2
      with (f (run (update_class_error pc class_id regressed_flow gt_flow) self).2).
    assert (commutes f (update_class_error pc class_id regressed_flow gt_flow)) as H;
      [|apply H].
    unfold update_class_error.
    repeat (apply commutes_bind;
            [first [apply commutes_py_assert | by apply commutes_gets]|intros ?]).
    apply commutes_bind.
    { intros s. unfold lookup_class_index. cbn. by destruct (_ !! _). }
    intros class_index.
    apply commutes_bind; [by apply commutes_gets|intros ?].
    apply commutes_for_each. intros [c close_mask].
    apply commutes_bind; [by apply commutes_gets|intros ?].
    apply commutes_for_each. intros [s speed_bound].
    apply commutes_bind; [by apply commutes_gets|intros ?].
    apply commutes_for_each. intros [e epe_bound].
    apply commutes_bind; [|intros _].
    + intros s0. unfold iadd_error_sum. cbn. by destruct (tensor4_get _ _).
    + intros s0. unfold iadd_error_count. cbn. by destruct (tensor4_get _ _).
  - apply update_class_error_keeps_totals.
Qed.

Lemma sign_clear_not_below_zero x : F32.sign_clear x = true → F32.ltb x F32.zero = false.
Proof. by destruct x as [[]|[]| |[] m e]. Qed.

(** X19: the accumulators stay in their domains. On a metric made by the
    constructor and used through its methods, no cell of
    [per_class_bucketed_error_sum] is ever negative, the negative zero
    included: its sign bit is clear or it is a NaN, and it does not compare
    below zero; and every cell of [per_class_bucketed_error_count] is an
    int64. *)
Theorem accumulators_stay_in_their_domains {R : Reductions}
    (items : list (Z * string)) (speed_splits epe_splits : list float32)
    (threshold scale : float32) (calls : list metric_call) :
  NoDup items.*1 →
  let self := run_calls calls (init items speed_splits epe_splits threshold scale) in
  (∀ i x, tensor4_get (per_class_bucketed_error_sum self) i = Some x →
          F32.sign_clear x = true ∧ F32.ltb x F32.zero = false) ∧
  (∀ i n, tensor4_get (per_class_bucketed_error_count self) i = Some n →
          I64.min_int ≤ n ≤ I64.max_int).
Proof.
  intros Hnd. cbn zeta.
  pose proof (reachable_wf _ (reachable_run_calls items speed_splits epe_splits
                                threshold scale calls Hnd)) as Hwf.
  apply wf_unfold in Hwf as (_ & _ & _ & Hsign & Hrange). split.
  - intros i x Hx.
    assert (F32.sign_clear x = true) as H
      by (by eapply (proj1 (tensor4_forallb_get _ _) Hsign)).
    split; [done|by apply sign_clear_not_below_zero].
  - intros i n Hn.
    assert (I64.in_range n = true) as H
      by (by eapply (proj1 (tensor4_forallb_get _ _) Hrange)).
    unfold I64.in_range in H. apply andb_true_iff in H as [H1 H2].
    apply Z.leb_le in H1, H2. done.
Qed.

Lemma accumulators_stay_in_their_domains_witness :
  NoDup example_items.*1 ∧
  ∀ i n,
    tensor4_get (per_class_bucketed_error_count
                   (run_calls [call_update_class_error one_point 7 zero_flow zero_flow]
                              example_metric)) i = Some n →
    I64.min_int ≤ n ≤ I64.max_int.
Proof.
  assert (NoDup example_items.*1) as Hnd
    by (apply (bool_decide_unpack _); vm_compute; exact I).
  split; [done|].
  exact (proj2 (accumulators_stay_in_their_domains example_items
                  [F32.of_Z 0; F32.of_Z 5; F32.of_Z 10] [F32.of_Z 0; F32.of_Z 1; F32.infinity]
                  default_close_object_threshold_meters
                  default_per_frame_to_per_second_scale_factor
                  [call_update_class_error one_point 7 zero_flow zero_flow] Hnd)).
Defined.

(* ===================================================================== *)
(** * The validation step *)
(* ===================================================================== *)

Lemma validation_steps_without_labels {R : Reductions} batches (w : ModelWrapper) :
  validation_steps false batches w = (Done tt, w).
Proof.
  unfold validation_steps. induction batches as [|[input_batch output_batch] batches IH];
    [done|].
  cbn [for_each_step]. by erewrite step_run_bind by reflexivity.
Qed.

Lemma sum_dim0_float_zeros n : sum_dim0_float (replicate n F32.zero) = F32.zero.
Proof. unfold sum_dim0_float. induction n as [|n IH]; [done|]. cbn. apply IH. Qed.

Lemma sum_dim0_long_zeros n : sum_dim0_long (replicate n 0) = 0.
Proof. unfold sum_dim0_long. induction n as [|n IH]; [done|]. cbn. apply IH. Qed.

(** X7: a run without labels reports no forward time. When the
    configuration sets [has_labels] to false, as
    [pseudolabel_train_cached.py] does, the validation steps of an epoch
    return at once and leave the metric as the constructor made it,
    whatever the batches; with any number of such processes, the epoch end
    on rank 0 then builds a report whose [average_forward_time] is the
    quotient of zero by zero, a NaN. *)
Theorem epoch_without_labels_reports_nan {R : Reductions}
    (items : list (Z * string)) (speed_splits epe_splits : list float32)
    (threshold scale : float32) (other_processes : nat)
    (batches : list (InputBatch * OutputBatch)) :
  let new := init items speed_splits epe_splits threshold scale in
  let w := {| metric := new; global_rank := 0 |} in
  validation_steps (init_has_labels (Some false)) batches w = (Done tt, w) ∧
  ∃ d w',
    run (validation_epoch_end (all_gather_at (replicate (S other_processes) new) 0)) w
    = (Return (Some d), w') ∧
    r_average_forward_time d = F32.nan.
Proof.
  cbn zeta. split; [apply validation_steps_without_labels|].
  eexists _, _. split.
  { unfold validation_epoch_end, run.
    erewrite run_bind by apply run_gather_then_reset.
    erewrite run_bind by reflexivity. cbn [global_rank Nat.eqb negb]. reflexivity. }
  cbn [r_average_forward_time g_forward_time g_forward_count metric
       all_gather_at gather_float gather_long].
  rewrite !fmap_replicate. cbn [init total_forward_time total_forward_count].
  rewrite !list_insert_id by done.
  by rewrite sum_dim0_float_zeros, sum_dim0_long_zeros.
Qed.

(** X8: only the last two frames of a sample are evaluated: the step has the
    same outcome and the same effect on the batch from which all frames
    but the last two of every sample are removed. *)
Theorem validation_step_reads_the_last_two_frames {R : Reductions}
    (has_labels : bool) (input_batch : InputBatch) (output_batch : OutputBatch) :
  validation_step has_labels (keep_last_two input_batch) output_batch
  = validation_step has_labels input_batch output_batch.
Proof.
  unfold validation_step. destruct has_labels; [|done]. cbn [negb].
  cbn [keep_last_two pc_array_stack flowed_pc_array_stack pc_class_mask_stack].
  rewrite length_fmap.
  match goal with
  | |- (_ ≫= λ _, for_each_step ?l ?b) = (_ ≫= λ _, for_each_step ?l' ?b') =>
      assert (for_each_step l b = for_each_step l' b') as ->; [|done]
  end.
  apply for_each_step_Forall2.
  eapply Forall2_impl.
  { apply Forall2_zip_zip; [apply Forall2_fmap_same|].
    apply Forall2_zip_zip; [apply Forall2_fmap_same|].
    apply Forall2_zip_zip; [apply Forall2_same|].
    apply Forall2_zip_zip; [apply Forall2_same|].
    apply Forall2_zip_zip; [apply Forall2_same|apply Forall2_fmap_same]. }
  intros (pc & fl & rf & i0 & i1 & ci) (pc' & fl' & rf' & i0' & i1' & ci').
  cbn [fst snd]. intros (-> & -> & -> & -> & -> & ->).
  unfold validation_sample. by rewrite !py_getitem_last_two by auto.
Qed.

Lemma masked_select_lookup_true {A} (points : list A) (mask : list bool) (i : nat) :
  length points = length mask → mask !! i = Some true → masked_select points mask ≠ [].
Proof.
  revert points mask. induction i as [|i IH]; intros [|p points] [|b mask] Hlen Hi;
    try done; cbn in *.
  - by injection Hi as ->.
  - destruct b; [done|]. apply IH; [by injection Hlen|done].
Qed.

(** X9: the split of the valid points of a sample by class loses and
    duplicates no point. The classes that the inner loop visits are the
    distinct class ids of the points, each once; every point is selected by
    the mask of its own class and of no other, so that the selections of
    all the classes together are a rearrangement of the points; and no
    class is visited without a point. *)
Theorem classes_partition_the_points {A} (points : list A) (class_info : list Z) :
  length points = length class_info →
  NoDup (torch_unique class_info) ∧
  (∀ cls_id, cls_id ∈ torch_unique class_info ↔ cls_id ∈ class_info) ∧
  (∀ i c cls_id, class_info !! i = Some c →
     cls_mask_of class_info cls_id !! i = Some (bool_decide (c = cls_id))) ∧
  concat ((λ cls_id, masked_select points (cls_mask_of class_info cls_id))
            <$> torch_unique class_info) ≡ₚ points ∧
  (∀ cls_id, cls_id ∈ torch_unique class_info →
     masked_select points (cls_mask_of class_info cls_id) ≠ []).
Proof.
  intros Hlen. split; [apply NoDup_torch_unique|].
  split; [apply elem_of_torch_unique|]. split; [|split].
  - intros i c cls_id Hi. unfold cls_mask_of. rewrite list_lookup_fmap, Hi. cbn.
    f_equal. destruct (Z.eqb_spec c cls_id).
    + by rewrite bool_decide_eq_true_2.
    + by rewrite bool_decide_eq_false_2.
  - rewrite class_selections by apply NoDup_torch_unique.
    rewrite masked_select_all; [done|by rewrite length_fmap|].
    apply Forall_fmap, Forall_forall. intros x Hx. cbn.
    apply bool_decide_eq_true. by apply elem_of_torch_unique.
  - intros cls_id Hin. apply (proj1 (elem_of_torch_unique _ _)) in Hin.
    apply list_elem_of_lookup in Hin as [i Hi].
    apply (masked_select_lookup_true _ _ i).
    + unfold cls_mask_of. by rewrite length_fmap.
    + unfold cls_mask_of. rewrite list_lookup_fmap, Hi. cbn. by rewrite Z.eqb_refl.
Qed.

Lemma classes_partition_the_points_witness :
  length [10; 20; 30]%nat = length [7; 0; 7] ∧
  concat ((λ cls_id, masked_select [10; 20; 30]%nat (cls_mask_of [7; 0; 7] cls_id))
            <$> torch_unique [7; 0; 7]) = [20; 10; 30]%nat ∧
  concat ((λ cls_id, masked_select [10; 20; 30]%nat (cls_mask_of [7; 0; 7] cls_id))
            <$> torch_unique [7; 0; 7]) ≡ₚ [10; 20; 30]%nat.
Proof.
  split; [reflexivity|]. split; [vm_compute; reflexivity|].
  exact (proj1 (proj2 (proj2 (proj2
    (classes_partition_the_points [10; 20; 30]%nat [7; 0; 7] eq_refl))))).
Defined.

Lemma on_metric_preserves {A} (J : Metric → Prop) (K : nat → Prop) (m : method Metric A) :
  preserves J m →
  preserves (λ w, J (metric w) ∧ K (global_rank w)) (on_metric m).
Proof.
  intros Hm w [HJ HK]. specialize (Hm _ HJ). unfold on_metric.
  by destruct (m (metric w)) as [r metric'].
Qed.

Lemma validation_sample_preserves {R : Reductions} (J : Metric → Prop) (K : nat → Prop)
    pc_array flowed_pc_array regressed_flow idxes0 idxes1 class_info :
  (∀ pc class_id regressed gt, preserves J (update_class_error pc class_id regressed gt)) →
  step_preserves (λ w, J (metric w) ∧ K (global_rank w))
    (validation_sample pc_array flowed_pc_array regressed_flow idxes0 idxes1 class_info).
Proof.
  intros Hupd. unfold validation_sample.
  repeat (apply step_preserves_bind;
          [first [apply step_preserves_or_index_error
                 |apply step_preserves_or_runtime_error
                 |apply step_preserves_assert]|intros ?]).
  apply step_preserves_for_each. intros cls_id. cbn zeta.
  repeat (apply step_preserves_bind; [apply step_preserves_or_index_error|intros ?]).
  apply step_preserves_lift, on_metric_preserves, Hupd.
Qed.

(** X10: a validation step with labels counts its batch once, whatever
    follows: whether the step returns or raises while it decodes the
    samples, it has added the number of samples of the batch to
    [total_forward_count] and the time of the batch to
    [total_forward_time], and nothing else has touched the two totals. *)
Theorem validation_step_counts_the_batch {R : Reductions}
    (input_batch : InputBatch) (output_batch : OutputBatch) (w : ModelWrapper) :
  let w' := (validation_step true input_batch output_batch w).2 in
  total_forward_count (metric w')
  = I64.add (total_forward_count (metric w))
            (Z.of_nat (length (pc_array_stack input_batch))) ∧
  total_forward_time (metric w')
  = F32.add (total_forward_time (metric w)) (batch_delta_time output_batch) ∧
  global_rank w' = global_rank w.
Proof.
  cbn zeta. unfold validation_step. cbn [negb].
  erewrite step_run_bind by reflexivity.
  set (w1 := {| metric := _; global_rank := _ |}).
  set (J := λ s : Metric,
         total_forward_count s
         = I64.add (total_forward_count (metric w))
                   (Z.of_nat (length (pc_array_stack input_batch))) ∧
         total_forward_time s
         = F32.add (total_forward_time (metric w)) (batch_delta_time output_batch)).
  set (K := λ r : nat, r = global_rank w).
  match goal with
  | |- context [for_each_step ?l ?body w1] =>
      assert (J (metric (for_each_step l body w1).2) ∧
              K (global_rank (for_each_step l body w1).2)) as [[H1 H2] H3]
  end; [|done].
  apply (step_preserves_for_each (λ w, J (metric w) ∧ K (global_rank w))).
  - intros (pc & fl & rf & i0 & i1 & ci). apply validation_sample_preserves.
    intros pc' class_id regressed gt s [Hc Ht].
    destruct (update_class_error_keeps_totals s pc' class_id regressed gt) as [Ht' Hc'].
    unfold run in Ht', Hc'. unfold J. by rewrite Hc', Ht'.
  - done.
Qed.

(** X11: the step checks what the metric leaves unchecked. A sample with at
    least one valid point on which the body of the step returns has passed
    the assertions of the step and those of [update_class_error]; together
    they leave no room for a flow with a number of columns other than 3:
    the evaluated frames of the point array and of the flowed point array
    have three columns, and the regressed flow has one row of three columns
    per valid point. *)
Theorem validation_sample_checks_three_columns {R : Reductions}
    (pc_array flowed_pc_array : list Tensor) (regressed_flow : Tensor)
    (idxes0 idxes1 : list Z) (class_info : list (list Z)) (w w' : ModelWrapper) :
  validation_sample pc_array flowed_pc_array regressed_flow idxes0 idxes1 class_info w
  = (Done tt, w') →
  idxes0 ≠ [] →
  shape regressed_flow = (length idxes0, 3%nat) ∧
  ∃ pc0_frame flowed_frame,
    py_getitem pc_array (-2) = Some pc0_frame ∧ ncols pc0_frame = 3%nat ∧
    py_getitem flowed_pc_array (-2) = Some flowed_frame ∧ ncols flowed_frame = 3%nat.
Proof.
  intros H Hne. unfold validation_sample in H.
  do 12 step_inv H.
  rename a into pc0_frame, a0 into pc0_pc, a3 into flowed_frame, a4 into flowed,
    a6 into pc0_pc_class_info, a7 into ground_truth_flow.
  pose proof (tensor_index_shape _ _ _ H1) as Hs0.
  pose proof (tensor_index_shape _ _ _ H5) as Hs1.
  apply shape_eqb_eq in H9, H10.
  assert (ncols pc0_frame = 3%nat) as Hcols.
  { destruct (torch_unique pc0_pc_class_info) as [|cls_id classes] eqn:Hu.
    { exfalso. unfold index_select in H7. apply length_mapM in H7.
      destruct pc0_pc_class_info as [|c cs]; [by destruct idxes0|].
      assert (c ∈ torch_unique (c :: cs)) as Hc by (apply elem_of_torch_unique; by left).
      rewrite Hu in Hc. by apply not_elem_of_nil in Hc. }
    cbn [for_each_step] in H. apply step_bind_done in H as (u & s & H & _).
    cbn zeta in H. do 3 step_inv H.
    apply lift_done, on_metric_return in H as [metric' H].
    match type of H with
    | update_class_error ?pc ?c ?rf ?gf _ = _ =>
        destruct (shape_check pc rf gf) eqn:Hshape;
        [|pose proof (update_class_error_shape_mismatch (metric w) pc c rf gf Hshape) as Hr;
          unfold run in Hr; congruence];
        apply shape_check_unfold in Hshape as (_ & _ & Hc3)
    end.
    match goal with
    | Hm : tensor_mask pc0_pc _ = Some _ |- _ =>
        apply tensor_mask_ncols in Hm; rewrite Hm in Hc3
    end.
    rewrite <- Hc3. by injection Hs0. }
  split.
  - rewrite <- H10, Hs0. by rewrite Hcols.
  - exists pc0_frame, flowed_frame. repeat split; try done.
    rewrite Hs0, Hs1 in H9. injection H9 as H9. congruence.
Qed.

Lemma validation_sample_checks_three_columns_witness :
  ∃ w',
    validation_sample [one_point; one_point] [one_point; one_point] zero_flow [0] [0]
      [[7]; [7]] {| metric := example_metric; global_rank := 0 |}
    = (Done tt, w') ∧
    shape zero_flow = (1%nat, 3%nat).
Proof.
  eexists. split; [vm_compute; reflexivity|].
  refine (proj1 (validation_sample_checks_three_columns
                   [one_point; one_point] [one_point; one_point] zero_flow [0] [0]
                   [[7]; [7]] {| metric := example_metric; global_rank := 0 |} _ _ _)).
  - vm_compute. reflexivity.
  - done.
Defined.

(** X21: a well-formed sample is evaluated without an exception. If the
    two frames exist, the indices of the valid points are within them, the
    evaluated frames of the point array and of the flowed point array have
    three columns, the regressed flow has one row of three columns per
    valid point and every class id of the valid points is in the table of
    the metric, then the body of the step returns; it leaves the metric
    well formed and changes nothing but the two accumulators. *)
Theorem validation_sample_returns {R : Reductions}
    (pc_array flowed_pc_array : list Tensor) (regressed_flow : Tensor)
    (idxes0 idxes1 : list Z) (class_info : list (list Z)) (w : ModelWrapper)
    (pc0_frame pc1_frame flowed_frame pc0_pc pc1_pc flowed : Tensor)
    (class_frame pc0_pc_class_info : list Z) :
  wf (metric w) = true →
  py_getitem pc_array (-2) = Some pc0_frame →
  tensor_index pc0_frame idxes0 = Some pc0_pc →
  py_getitem pc_array (-1) = Some pc1_frame →
  tensor_index pc1_frame idxes1 = Some pc1_pc →
  py_getitem flowed_pc_array (-2) = Some flowed_frame →
  tensor_index flowed_frame idxes0 = Some flowed →
  py_getitem class_info (-2) = Some class_frame →
  index_select class_frame idxes0 = Some pc0_pc_class_info →
  ncols pc0_frame = 3%nat → ncols flowed_frame = 3%nat →
  shape regressed_flow = (length idxes0, 3%nat) →
  (∀ cls_id, cls_id ∈ pc0_pc_class_info →
             is_Some (class_id_to_index_map (metric w) !! cls_id)) →
  ∃ w',
    validation_sample pc_array flowed_pc_array regressed_flow idxes0 idxes1 class_info w
    = (Done tt, w') ∧
    wf (metric w') = true ∧
    same_outside_accumulators (metric w) (metric w') ∧
    global_rank w' = global_rank w.
Proof.
  intros Hwf H0 H1 H2 H3 H4 H5 H6 H7 Hc0 Hcf Hrf Hknown.
  pose proof (tensor_index_shape _ _ _ H1) as Hs0.
  pose proof (tensor_index_shape _ _ _ H5) as Hs1.
  rewrite Hc0 in Hs0. rewrite Hcf in Hs1.
  assert (length pc0_pc_class_info = length idxes0) as Hlen.
  { unfold index_select in H7. by apply length_mapM in H7. }
  unfold validation_sample.
  rewrite H0. erewrite step_run_bind by reflexivity.
  rewrite H1. erewrite step_run_bind by reflexivity.
  rewrite H2. erewrite step_run_bind by reflexivity.
  rewrite H3. erewrite step_run_bind by reflexivity.
  rewrite H4. erewrite step_run_bind by reflexivity.
  rewrite H5. erewrite step_run_bind by reflexivity.
  rewrite H6. erewrite step_run_bind by reflexivity.
  rewrite H7. erewrite step_run_bind by reflexivity.
  rewrite (torch_sub_same_shape flowed pc0_pc) by congruence.
  erewrite step_run_bind by reflexivity.
  assert (shape (tensor_sub flowed pc0_pc) = (length idxes0, 3%nat)) as Hsg.
  { unfold shape, tensor_sub. cbn. rewrite length_zip_with.
    injection Hs0 as Hr0 Hn0. injection Hs1 as Hr1 Hn1. rewrite Hr0, Hr1, Hn1.
    f_equal. lia. }
  rewrite Hs0, Hs1, Hrf, Hsg.
  replace (shape_eqb (length idxes0, 3%nat) (length idxes0, 3%nat)) with true
    by (unfold shape_eqb; cbn; by rewrite !Nat.eqb_refl).
  do 3 (erewrite step_run_bind by reflexivity).
  set (I := λ w' : ModelWrapper,
         wf (metric w') = true ∧ same_outside_accumulators (metric w) (metric w') ∧
         global_rank w' = global_rank w).
  apply (for_each_step_done I).
  2:{ repeat split; done. }
  intros cls_id w1 Hin (Hwf1 & Hsame & Hrank). cbn zeta.
  apply (proj1 (elem_of_torch_unique _ _)) in Hin.
  destruct (Hknown cls_id Hin) as [class_index Hk].
  assert (class_id_to_index_map (metric w1) !! cls_id = Some class_index) as Hk1.
  { destruct Hsame as (_ & -> & _). done. }
  unfold tensor_mask.
  assert (length (rows pc0_pc) = length idxes0 ∧ ncols pc0_pc = 3%nat) as [Hr0 Hn0]
    by (by injection Hs0).
  assert (length (rows regressed_flow) = length idxes0 ∧ ncols regressed_flow = 3%nat)
    as [Hrr Hnr] by (by injection Hrf).
  assert (length (rows (tensor_sub flowed pc0_pc)) = length idxes0 ∧
          ncols (tensor_sub flowed pc0_pc) = 3%nat) as [Hrg Hng] by (by injection Hsg).
  assert (length (cls_mask_of pc0_pc_class_info cls_id) = length idxes0) as Hm.
  { unfold cls_mask_of. by rewrite length_fmap. }
  rewrite Hm, Hr0, Hrr, Hrg, Nat.eqb_refl.
  do 3 (erewrite step_run_bind by reflexivity).
  match goal with
  | |- context [update_class_error ?pc ?c ?rf ?gf] =>
      pose proof (update_class_error_ok (metric w1) pc c rf gf class_index Hwf1) as Hrun
  end.
  unfold run in Hrun. unfold lift, on_metric. rewrite Hrun; [| |done].
  - eexists. split; [reflexivity|]. unfold I. cbn [metric global_rank].
    split; [|split; [|done]].
    + apply wf_accumulated; [|done]. intros c s e. apply cell_error_sum_sign_clear.
    + match goal with
      | |- same_outside_accumulators _ (accumulated ?d ?k ?fs ?fc ?m) =>
          pose proof (same_outside_accumulated d k fs fc m) as HT
      end.
      destruct Hsame as (S1 & S2 & S3 & S4 & S5 & S6 & S7 & S8).
      destruct HT as (T1 & T2 & T3 & T4 & T5 & T6 & T7 & T8).
      repeat split; (etrans; [eassumption|eassumption]).
  - apply shape_check_unfold. unfold shape. cbn [rows ncols].
    split; [|split].
    + f_equal; [|congruence]. apply length_masked_select; congruence.
    + apply length_masked_select; congruence.
    + done.
Qed.

Lemma validation_sample_returns_witness :
  wf example_metric = true ∧
  tensor_index one_point [0] = Some one_point ∧
  ∃ w',
    validation_sample [one_point; one_point] [one_point; one_point] zero_flow [0] [0]
      [[7]; [7]] {| metric := example_metric; global_rank := 0 |}
    = (Done tt, w') ∧
    wf (metric w') = true.
Proof.
  split; [reflexivity|]. split; [reflexivity|].
  destruct (validation_sample_returns
              [one_point; one_point] [one_point; one_point] zero_flow [0] [0] [[7]; [7]]
              {| metric := example_metric; global_rank := 0 |}
              one_point one_point one_point one_point one_point one_point [7] [7]
              eq_refl eq_refl eq_refl eq_refl eq_refl eq_refl eq_refl eq_refl eq_refl
              eq_refl eq_refl eq_refl)
    as (w' & Hrun & Hwf & _).
  { intros cls_id ->%list_elem_of_singleton. by eexists. }
  by exists w'.
Defined.

(** X22: a sample without valid points is passed over. When the list of
    the valid points of the first frame is empty, and the frames exist and
    agree on their number of columns with the regressed flow, which has no
    row, the body of the step returns and leaves the wrapper exactly as it
    was: no class is visited, [update_class_error] is not called, and the
    number of columns is not checked against 3. *)
Theorem validation_sample_without_points {R : Reductions}
    (pc_array flowed_pc_array : list Tensor) (regressed_flow : Tensor)
    (idxes1 : list Z) (class_info : list (list Z)) (w : ModelWrapper)
    (pc0_frame pc1_frame flowed_frame pc1_pc : Tensor) (class_frame : list Z) :
  py_getitem pc_array (-2) = Some pc0_frame →
  py_getitem pc_array (-1) = Some pc1_frame →
  tensor_index pc1_frame idxes1 = Some pc1_pc →
  py_getitem flowed_pc_array (-2) = Some flowed_frame →
  py_getitem class_info (-2) = Some class_frame →
  ncols flowed_frame = ncols pc0_frame →
  shape regressed_flow = (0%nat, ncols pc0_frame) →
  validation_sample pc_array flowed_pc_array regressed_flow [] idxes1 class_info w
  = (Done tt, w).
Proof.
  intros H0 H2 H3 H4 H6 Hcols Hrf. unfold validation_sample.
  rewrite H0. erewrite step_run_bind by reflexivity.
  erewrite step_run_bind by reflexivity.
  rewrite H2. erewrite step_run_bind by reflexivity.
  rewrite H3. erewrite step_run_bind by reflexivity.
  rewrite H4. erewrite step_run_bind by reflexivity.
  erewrite step_run_bind by reflexivity.
  rewrite H6. erewrite step_run_bind by reflexivity.
  erewrite step_run_bind by reflexivity.
  rewrite torch_sub_same_shape by (unfold shape; cbn; by rewrite Hcols).
  erewrite step_run_bind by reflexivity.
  rewrite Hrf. unfold shape, tensor_sub. cbn [rows ncols length zip_with].
  rewrite Hcols. unfold shape_eqb. cbn [fst snd]. rewrite !Nat.eqb_refl. cbn [andb].
  do 3 (erewrite step_run_bind by reflexivity).
  reflexivity.
Qed.

Lemma validation_sample_without_points_witness :
  validation_sample [flow_two_columns; flow_two_columns]
    [flow_two_columns; flow_two_columns] {| rows := []; ncols := 2 |} [] [0]
    [[7]; [7]] {| metric := example_metric; global_rank := 0 |}
  = (Done tt, {| metric := example_metric; global_rank := 0 |}).
Proof.
  exact (validation_sample_without_points
           [flow_two_columns; flow_two_columns] [flow_two_columns; flow_two_columns]
           {| rows := []; ncols := 2 |} [0] [[7]; [7]]
           {| metric := example_metric; global_rank := 0 |}
           flow_two_columns flow_two_columns flow_two_columns flow_two_columns [7]
           eq_refl eq_refl eq_refl eq_refl eq_refl eq_refl eq_refl).
Defined.

(* ===================================================================== *)
(** * The job launcher *)
(* ===================================================================== *)

(** X12: the time limit of a job of less than a hundred hours is written as
    [HH:MM:00]: two digits of hours, two digits of minutes below 60, both
    padded with a zero, and they are the hours and minutes of the run time:
    sixty times the hours plus the minutes is the number of minutes
    given. *)
Theorem runtime_format_is_hours_and_minutes (runtime_mins : Z) :
  0 ≤ runtime_mins < 6000 →
  let hours := runtime_mins `div` 60 in
  let minutes := runtime_mins `mod` 60 in
  get_runtime_format runtime_mins = two_digits hours +:+ ":" +:+ two_digits minutes +:+ ":00" ∧
  String.length (get_runtime_format runtime_mins) = 8%nat ∧
  0 ≤ hours < 100 ∧ 0 ≤ minutes < 60 ∧ 60 * hours + minutes = runtime_mins.
Proof.
  intros H. cbn zeta.
  assert (0 ≤ runtime_mins `div` 60 < 100) as Hh.
  { split; [apply Z.div_pos; lia|apply Z.div_lt_upper_bound; lia]. }
  assert (0 ≤ runtime_mins `mod` 60 < 60) as Hm by (apply Z.mod_pos_bound; lia).
  assert (get_runtime_format runtime_mins
          = two_digits (runtime_mins `div` 60) +:+ ":" +:+
            two_digits (runtime_mins `mod` 60) +:+ ":00") as Heq.
  { unfold get_runtime_format. by rewrite !format_0d_two_digits by lia. }
  split; [done|]. split; [by rewrite Heq|]. split; [done|]. split; [done|].
  pose proof (Z.div_mod runtime_mins 60). lia.
Qed.

Lemma runtime_format_is_hours_and_minutes_witness :
  0 ≤ 180 < 6000 ∧ get_runtime_format 180 = "03:00:00".
Proof.
  split; [lia|].
  exact (proj1 (runtime_format_is_hours_and_minutes 180 ltac:(lia))).
Defined.

(** X13: when [--runtime_hours] is given it decides the time limit alone: the
    job runs for that many hours and no minutes, whatever [--runtime_mins]
    says. *)
Theorem runtime_hours_override_the_minutes (args : Args) (hours : Z) :
  runtime_hours args = Some hours →
  0 ≤ hours < 100 →
  get_runtime_format (job_runtime_mins_of args) = two_digits hours +:+ ":00:00".
Proof.
  intros Hh Hrange. unfold job_runtime_mins_of. rewrite Hh.
  unfold get_runtime_format. rewrite Z.div_mul, Z.mod_mul by lia.
  by rewrite format_0d_two_digits by lia.
Qed.

Lemma runtime_hours_override_the_minutes_witness :
  get_runtime_format
    (job_runtime_mins_of
       {| command := "true"; job_dir := "job_dir"; num_gpus := 1; cpus_per_gpu := 2;
          mem_per_gpu := 12; runtime_mins := 180; runtime_hours := Some 5;
          job_name := "ff3d"; qos := "ee-med"; partition := "eaton-compute";
          dry_run := true; use_srun := false; blacklist_substring := None |})
  = "05:00:00".
Proof.
  exact (runtime_hours_override_the_minutes
           {| command := "true"; job_dir := "job_dir"; num_gpus := 1; cpus_per_gpu := 2;
              mem_per_gpu := 12; runtime_mins := 180; runtime_hours := Some 5;
              job_name := "ff3d"; qos := "ee-med"; partition := "eaton-compute";
              dry_run := true; use_srun := false; blacklist_substring := None |}
           5 eq_refl ltac:(lia)).
Defined.

(** X14: job directories are numbered without clashes as long as nothing else
    touches [job_dir]: two different numbers of prior jobs give two
    different names, so when the entries of [job_dir] are the directories
    of the jobs launched so far, the name of the next one is not among
    them. *)
Theorem jobdir_names_are_fresh (entries : list string) (n : nat) :
  entries ≡ₚ jobdir_name <$> seq 0 n →
  length entries = n ∧
  (jobdir_name (length entries) ∉ entries) ∧
  jobdir_name (length entries) :: entries ≡ₚ jobdir_name <$> seq 0 (S n) ∧
  (∀ m m' : nat, jobdir_name m = jobdir_name m' → m = m').
Proof.
  intros Hp.
  assert (length entries = n) as Hlen.
  { by rewrite Hp, length_fmap, length_seq. }
  split; [done|]. rewrite Hlen. split; [|split].
  - rewrite Hp. intros Hin. apply list_elem_of_fmap in Hin as (m & Heq & Hm).
    apply format_0d_nat_inj in Heq. subst. apply elem_of_seq in Hm. lia.
  - rewrite Hp, seq_S, fmap_app. cbn. by rewrite Permutation_cons_append.
  - intros m m'. apply format_0d_nat_inj.
Qed.

Lemma jobdir_names_are_fresh_witness :
  ["000001"; "000000"] ≡ₚ jobdir_name <$> seq 0 2 ∧
  jobdir_name (length ["000001"; "000000"]) = "000002" ∧
  jobdir_name (length ["000001"; "000000"]) ∉ ["000001"; "000000"].
Proof.
  assert (["000001"; "000000"] ≡ₚ jobdir_name <$> seq 0 2) as Hp.
  { change (jobdir_name <$> seq 0 2) with ["000000"; "000001"]. apply Permutation_swap. }
  split; [done|]. split; [reflexivity|].
  exact (proj1 (proj2 (jobdir_names_are_fresh ["000001"; "000000"] 2 Hp))).
Defined.

(** X15: the launcher submits a job in one case only. The commands that the
    script runs are the query of the nodes, when a blacklist substring is
    given, and [bash .../screen.sh], when [--use_srun] is given without
    [--dry_run] and the image file exists. Without [--use_srun] the batch
    file is written and no command submits it. *)
Theorem launch_job_commands (args : Args) (env : Env) :
  let jobdir_path := path_join (job_dir args) (jobdir_name (num_prior_jobs env)) in
  commands_run (run (launch_job args env) []).2
  = (match blacklist_substring args with
     | Some _ => ["sinfo --Node | awk '{print $1}' | tail +2"]
     | None => []
     end)
    ++ (if use_srun args && negb (dry_run args) && docker_image_is_file env
        then ["bash " +:+ jobdir_path +:+ "/screen.sh"] else []).
Proof.
  cbn zeta. unfold launch_job, make_srun, make_sbatch.
  destruct (blacklist_substring args), (use_srun args), (dry_run args),
    (docker_image_is_file env); reflexivity.
Qed.

(** X16: the files of a job. The script always writes [command.sh] into the
    directory of the job. If the image file exists it goes on to write
    [srun.sh] and [screen.sh] under [--use_srun], and [sbatch.bash]
    otherwise, and returns; if the image file is missing it stops there
    with an [AssertionError] that names the file, [command.sh] being
    already written. *)
Theorem launch_job_files (args : Args) (env : Env) :
  let jobdir_path := path_join (job_dir args) (jobdir_name (num_prior_jobs env)) in
  let result := run (launch_job args env) [] in
  result.1
  = (if docker_image_is_file env then Return tt
     else Raise (AssertionError ("Docker image " +:+ docker_image_path_of env
                                 +:+ " squash file does not exist"))) ∧
  files_written result.2
  = path_join jobdir_path "command.sh"
    :: (if docker_image_is_file env
        then if use_srun args
             then [path_join jobdir_path "srun.sh"; path_join jobdir_path "screen.sh"]
             else [path_join jobdir_path "sbatch.bash"]
        else []) ∧
  ∃ effects, result.2 = Mkdir jobdir_path :: effects.
Proof.
  cbn zeta. unfold launch_job, make_srun, make_sbatch.
  destruct (blacklist_substring args), (use_srun args), (dry_run args),
    (docker_image_is_file env); (split; [reflexivity|split; [reflexivity|by eexists]]).
Qed.

(** X17: the names of the available nodes are clean lines. [load_available_nodes]
    runs the query once and returns one name per line of its output, one
    more than the output has line feeds; no name contains a line feed, and
    none begins or ends with a whitespace character: to split or to strip
    a name again changes nothing. *)
Theorem available_nodes_are_stripped_lines (env : Env) (log : list effect) :
  let query := "sinfo --Node | awk '{print $1}' | tail +2" in
  ∃ node_list,
    run (load_available_nodes env) log = (Return node_list, log ++ [RunCmd query]) ∧
    length node_list = length (split line_feed (stdout_of env query)) ∧
    ∀ node, node ∈ node_list →
      split line_feed node = [node] ∧ lstrip node = node ∧ rstrip node = node.
Proof.
  cbn zeta. eexists. split; [reflexivity|]. split; [by rewrite length_fmap|].
  intros node Hin. apply list_elem_of_fmap in Hin as (line & -> & Hin).
  split; [|apply strip_stripped].
  unfold strip. by apply rstrip_single, lstrip_single, (split_parts_single _ _ _ Hin).
Qed.

(** X18: the nodes excluded from a job are the available nodes whose name
    contains the blacklist substring somewhere, in the order of the query;
    the empty substring excludes every node. *)
Theorem blacklist_selects_by_substring (substring : string) (node_list : list string) :
  (∀ node, node ∈ node_blacklist_of substring node_list ↔
           node ∈ node_list ∧ ∃ pre post, node = pre +:+ substring +:+ post) ∧
  node_blacklist_of substring node_list `sublist_of` node_list ∧
  node_blacklist_of "" node_list = node_list.
Proof.
  unfold node_blacklist_of. split; [|split].
  - intros node. by rewrite list_elem_of_filter, is_substring_spec, (comm and).
  - apply sublist_filter.
  - induction node_list as [|node nodes IH]; [done|].
    rewrite filter_cons_True; [by rewrite IH|]. by destruct node.
Qed.

(* ===================================================================== *)
(** * The total of the counts of a class *)
(* ===================================================================== *)

(** X20: no point in range is lost or counted twice. A call of
    [update_class_error] that passes its assertions, on a class of the
    table and with sorted boundaries, makes the counts of the cells of that
    class grow, in total over the two proximity slices, the speed buckets
    and the error buckets, by the number of points whose ground-truth speed
    lies in some speed bucket and whose endpoint error lies in some error
    bucket; this number is at most the number of points of the call. The
    counts are assumed to have room for the points of the call below the
    largest int64. *)
Theorem counts_grow_by_the_points_in_range {R : Reductions}
    (self : Metric) (pc : Tensor) (class_id : Z) (class_index : nat)
    (regressed_flow gt_flow : Tensor) :
  wf self = true →
  sorted (speed_bucket_splits_meters_per_second self) = true →
  sorted (endpoint_error_splits_meters self) = true →
  shape_check pc regressed_flow gt_flow = true →
  class_id_to_index_map self !! class_id = Some class_index →
  (∀ c s e x,
     tensor4_get (per_class_bucketed_error_count self) (c, class_index, s, e) = Some x →
     x + Z.of_nat (length (rows pc)) ≤ I64.max_int) →
  ∃ self',
    run (update_class_error pc class_id regressed_flow gt_flow) self = (Return tt, self') ∧
    sum_over_loops self
      (λ c s e, count_at self' c class_index s e - count_at self c class_index s e)
    = torch_sum_mask (in_range_mask self regressed_flow gt_flow) ∧
    0 ≤ torch_sum_mask (in_range_mask self regressed_flow gt_flow)
      ≤ Z.of_nat (length (rows pc)).
Proof.
  intros Hwf Hs He Hshape Hk Hroom.
  eexists. split; [by apply update_class_error_ok|].
  pose proof Hshape as Hshape'.
  apply shape_check_unfold in Hshape' as (Hrg & Hlen & _). injection Hrg as Hrg _.
  split.
  - rewrite <- (sum_over_loops_cell_error_count self pc) by done.
    apply sum_over_loops_ext. intros c s e Hc Hsl Hel.
    unfold count_at. rewrite accumulated_error_count_get.
    pose proof (wf_unfold self Hwf) as (_ & Hcount & Hmap & _ & Hrange).
    assert (is_Some (tensor4_get (per_class_bucketed_error_count self)
                                 (c, class_index, s, e))) as [x Hx].
    { apply (has_shape_get _ _ _ _ _ _ Hcount). cbn.
      repeat split; try done. by eapply (map_Forall_lookup_1 _ _ _ _ Hmap). }
    rewrite Hx. cbn. rewrite decide_True by done.
    assert (I64.in_range x = true) as Hin.
    { by eapply (proj1 (tensor4_forallb_get _ _) Hrange). }
    specialize (Hroom c s e x Hx).
    pose proof (torch_sum_mask_bounds (total_mask_at self pc regressed_flow gt_flow c s e))
      as Hb.
    rewrite total_mask_length in Hb by done.
    unfold cell_error_count, I64.add. rewrite I64Facts.wrap_id; [lia|].
    unfold I64.in_range, I64.min_int, I64.max_int in *.
    apply andb_true_iff in Hin as [H1 H2]. apply Z.leb_le in H1, H2.
    apply andb_true_iff. split; apply Z.leb_le; lia.
  - pose proof (torch_sum_mask_bounds (in_range_mask self regressed_flow gt_flow)) as Hb.
    unfold in_range_mask in Hb at 3. rewrite length_zip_with in Hb.
    rewrite gt_speeds_length, endpoint_errors_length in Hb by done. lia.
Qed.

Lemma counts_grow_by_the_points_in_range_witness :
  wf example_metric = true ∧
  shape_check two_points two_unit_flows two_zero_flows = true ∧
  ∃ self',
    run (update_class_error two_points 7 two_unit_flows two_zero_flows) example_metric
    = (Return tt, self') ∧
    sum_over_loops example_metric
      (λ c s e, count_at self' c 1 s e - count_at example_metric c 1 s e)
    = 2.
Proof.
  split; [reflexivity|]. split; [reflexivity|].
  destruct (counts_grow_by_the_points_in_range example_metric two_points 7 1
              two_unit_flows two_zero_flows eq_refl eq_refl eq_refl eq_refl eq_refl)
    as (self' & Hrun & Hsum & _).
  { intros c s e x Hx.
    destruct c as [|[|c]], s as [|[|s]], e as [|[|e]]; try done;
      injection Hx as <-; vm_compute; discriminate. }
  exists self'. split; [exact Hrun|]. rewrite Hsum. vm_compute. reflexivity.
Defined.
